(** * Quote localisation in [app.py]: [find_text_fuzzy]

    A shallow embedding of [find_text_fuzzy] (src/app.py, lines 42-120) and of
    the per-file loop that calls it (lines 755-765), with the properties of
    the fuzzy quote-to-page alignment.

    Conventions of the embedding.
    - A Python [str] is a list of characters; a character is a code point
      below 256 (Latin-1), which is what [ascii] holds.
    - A score returned by [rapidfuzz.fuzz] is a finite double; it is carried
      as the rational number it denotes, so every comparison made by the code
      is exact in [Q]. The threshold (an int or a float) is a rational too.
    - Page coordinates are IEEE doubles ([PrimFloat.float]); [width] and
      [height] are computed with the double subtraction.
    - [st.warning] and the appends to [annotations] are effects: the body of
      the [try] block runs in a state-and-exception monad. *)

From Stdlib Require Import PrimFloat Ascii String.
From Stdlib Require Import ZArith Arith Lia Bool QArith Lqa DecimalString List.
From Stdlib Require Import Sorting.Sorted.
Import ListNotations.

Open Scope nat_scope.

(** ** Python strings *)

Definition str := list ascii.

Definition lit (s : string) : str := list_ascii_of_string s.

Definition space : ascii := " "%char.

(** [str.isspace] on one character, which is also what [\s] matches in a
    [str] pattern: TAB..CR, FS..US, SPACE, NEL and NBSP. *)
Definition is_space (c : ascii) : bool :=
  let n := nat_of_ascii c in
  ((9 <=? n) && (n <=? 13)) || ((28 <=? n) && (n <=? 32))
  || (n =? 133) || (n =? 160).

(** [str.lower] on one character: A-Z and the Latin-1 capitals
    (U+00C0..U+00DE without the multiplication sign U+00D7). *)
Definition lower_char (c : ascii) : ascii :=
  let n := nat_of_ascii c in
  if ((65 <=? n) && (n <=? 90))
     || ((192 <=? n) && (n <=? 222) && negb (n =? 215))
  then ascii_of_nat (n + 32) else c.

Definition lower (s : str) : str := map lower_char s.

(** [re.sub(r'\s+', ' ', s)]: every maximal run of whitespace becomes one
    space. [in_run] tells that the previous character was whitespace. *)
Fixpoint collapse_from (in_run : bool) (s : str) : str :=
  match s with
  | [] => []
  | c :: rest =>
      if is_space c
      then if in_run then collapse_from true rest
           else space :: collapse_from true rest
      else c :: collapse_from false rest
  end.

Definition re_sub_ws (s : str) : str := collapse_from false s.

Fixpoint lstrip (s : str) : str :=
  match s with
  | [] => []
  | c :: rest => if is_space c then lstrip rest else s
  end.

Definition rstrip (s : str) : str := rev (lstrip (rev s)).

Definition strip (s : str) : str := rstrip (lstrip s).

(** [s.split()]: the maximal whitespace-free runs of [s]. [cur] is the run
    being read, most recent character first. *)
Fixpoint split_from (cur : str) (s : str) : list str :=
  match s with
  | [] => match cur with [] => [] | _ => [rev cur] end
  | c :: rest =>
      if is_space c
      then match cur with
           | [] => split_from [] rest
           | _ => rev cur :: split_from [] rest
           end
      else split_from (c :: cur) rest
  end.

Definition split (s : str) : list str := split_from [] s.

(** [" ".join(l)] *)
Fixpoint join (l : list str) : str :=
  match l with
  | [] => []
  | [w] => w
  | w :: rest => w ++ space :: join rest
  end.

(** [l[i:j]] for [0 <= i], [0 <= j] *)
Definition slice {A} (l : list A) (i j : nat) : list A :=
  firstn (j - i) (skipn i l).

(** ** Words, queries, annotations *)

(** One tuple of [page.get_text("words")]:
    [(x0, y0, x1, y1, "word", block_no, line_no, word_no)]. *)
Record word := mk_word {
  w_x0 : float; w_y0 : float; w_x1 : float; w_y1 : float;
  w_text : str;
  w_block_no : nat; w_line_no : nat; w_word_no : nat
}.

Definition page := list word.
Definition document := list page.

(** The values a query dict is seen to hold under its keys. *)
Inductive pyval :=
| PStr (s : str)
| PInt (n : nat)
| PNone.

Definition dict := list (str * pyval).

Definition str_eqb (a b : str) : bool :=
  if list_eq_dec ascii_dec a b then true else false.

Fixpoint dict_get (d : dict) (key : str) : option pyval :=
  match d with
  | [] => None
  | (k, v) :: rest => if str_eqb k key then Some v else dict_get rest key
  end.

(** An element of [text_quotes]: a bare string, a dict, or anything else. *)
Inductive raw_query :=
| QStr (s : str)
| QDict (d : dict)
| QOther (v : pyval).

Record annotation := mk_annotation {
  a_page : nat;
  a_x : float; a_y : float; a_width : float; a_height : float;
  a_color : pyval;
  a_quote : str
}.

(** ** The collaborators: [rapidfuzz.fuzz] and [fitz] *)

(** The two scorers of [rapidfuzz.fuzz] that the code calls. *)
Class Fuzz := {
  ratio : str -> str -> Q;
  partial_ratio : str -> str -> Q
}.

(** What the library documents of them: a score is at most 100, [ratio]
    gives 100 exactly on equal strings, and [partial_ratio] gives 100 when the
    first string occurs in the second. *)
Class FuzzLaws (F : Fuzz) : Prop := {
  ratio_le_100 : forall a b, (ratio a b <= 100)%Q;
  ratio_100_iff : forall a b, (ratio a b == 100)%Q <-> a = b;
  partial_ratio_substring :
    forall a pre post,
      a <> [] -> (partial_ratio a (pre ++ a ++ post) == 100)%Q
}.

Inductive exn :=
| KeyError (key : str)
| TypeError (msg : str)
| FileDataError (msg : str).

(** [fitz.open(stream=pdf_bytes, filetype="pdf")] followed by
    [page.get_text("words")] on each page: the words of every page, or the
    exception raised for a stream that cannot be opened. Reading the words
    of a page of an opened document is taken not to raise. *)
Class Fitz := {
  fitz_open : list Byte.byte -> exn + document
}.

Definition Qlt_bool (x y : Q) : bool := negb (Qle_bool y x).

(** ** A reference scorer: the Indel similarity of rapidfuzz *)

Module Indel.

(** Length of a longest common subsequence. *)
Fixpoint lcs (a b : str) : nat :=
  match a with
  | [] => 0
  | x :: a' =>
      (fix along (b : str) : nat :=
         match b with
         | [] => 0
         | y :: b' =>
             if Ascii.eqb x y then S (lcs a' b')
             else Nat.max (lcs a' b) (along b')
         end) b
  end.

(** The suffixes of [b], longest first. *)
Fixpoint suffixes (b : str) : list str :=
  match b with
  | [] => [[]]
  | _ :: b' => b :: suffixes b'
  end.

(** The same length by dynamic programming, one row per character of [a]:
    the row of [a] lists the length for [a] against every suffix of [b],
    longest suffix first. *)
Fixpoint lcs_row (x : ascii) (b : str) (prev : list nat) : list nat :=
  match b, prev with
  | y :: b', p :: prev' =>
      let rest := lcs_row x b' prev' in
      (if Ascii.eqb x y then S (hd 0 prev') else Nat.max p (hd 0 rest))
      :: rest
  | _, _ => [0]
  end.

Definition lcs_rows (a b : str) : list nat :=
  fold_right (fun x row => lcs_row x b row) (repeat 0 (S (length b))) a.

Definition lcs_length (a b : str) : nat := hd 0 (lcs_rows a b).

(** [fuzz.ratio]: 100 * (1 - indel_distance / (len1 + len2)), that is
    200 * lcs / (len1 + len2); 100 on two empty strings. *)
Definition indel_ratio (a b : str) : Q :=
  let n := length a + length b in
  if n =? 0 then 100%Q
  else Qmake (Z.of_nat (200 * lcs_length a b)) (Pos.of_nat n).

Definition best_of (s1 : str) (candidates : list str) (start : Q) : Q :=
  fold_left (fun best w =>
               let r := indel_ratio s1 w in
               if Qlt_bool best r then r else best)
            candidates start.

(** The windows of the longer string [s2] that [partial_ratio] aligns the
    shorter string against: the proper prefixes shorter than it, the windows
    of its length, and the suffixes no longer than it. *)
Definition alignments (len1 : nat) (s2 : str) : list str :=
  let len2 := length s2 in
  map (fun i => firstn i s2) (seq 1 (len1 - 1))
  ++ map (fun i => slice s2 i (i + len1)) (seq 0 (len2 - len1))
  ++ map (fun i => skipn i s2) (seq (len2 - len1) len1).

Definition partial_impl (s1 s2 : str) (start : Q) : Q :=
  match s1 with
  | [] => start
  | _ => best_of s1 (alignments (length s1) s2) start
  end.

(** [fuzz.partial_ratio]: the best [ratio] of the shorter string against an
    alignment window of the longer one; both directions when the lengths are
    equal. *)
Definition indel_partial_ratio (s1 s2 : str) : Q :=
  match s1, s2 with
  | [], [] => 100%Q
  | _, _ =>
      let len1 := length s1 in
      let len2 := length s2 in
      if len1 <? len2 then partial_impl s1 s2 0%Q
      else if len2 <? len1 then partial_impl s2 s1 0%Q
      else partial_impl s2 s1 (partial_impl s1 s2 0%Q)
  end.

End Indel.

#[export] Instance indel_fuzz : Fuzz := {|
  ratio := Indel.indel_ratio;
  partial_ratio := Indel.indel_partial_ratio
|}.

(** ** The state-and-exception monad of the [try] block *)

(** [annotations] is the list the code appends to. [ratio_calls] is a ghost
    log: one entry [(i, window_size)] for every call of [fuzz.ratio]. *)
Record state := mk_state {
  annotations : list annotation;
  ratio_calls : list (nat * nat)
}.

Definition M (A : Type) : Type := state -> (exn + A) * state.

Definition ret {A} (a : A) : M A := fun st => (inr a, st).

Definition bind {A B} (m : M A) (k : A -> M B) : M B :=
  fun st =>
    match m st with
    | (inl e, st') => (inl e, st')
    | (inr a, st') => k a st'
    end.

Definition raise {A} (e : exn) : M A := fun st => (inl e, st).

Definition lift {A} (r : exn + A) : M A := fun st => (r, st).

Declare Scope py_scope.
Delimit Scope py_scope with py.
Notation "x <- m ;; k" := (bind m (fun x => k))
  (at level 61, m at next level, right associativity) : py_scope.
Notation "' p <- m ;; k" := (bind m (fun x => match x with p => k end))
  (at level 61, p pattern, m at next level, right associativity) : py_scope.
Notation "m ;; k" := (bind m (fun _ => k))
  (at level 61, right associativity) : py_scope.
Open Scope py_scope.

(** A [for] loop whose body can raise. *)
Fixpoint for_each {A} (l : list A) (body : A -> M unit) : M unit :=
  match l with
  | [] => ret tt
  | x :: rest => body x ;; for_each rest body
  end.

(** [annotations.append(a)] *)
Definition append_annotation (a : annotation) : M unit :=
  fun st => (inr tt, mk_state (annotations st ++ [a]) (ratio_calls st)).

Definition log_ratio_calls (l : list (nat * nat)) : M unit :=
  fun st => (inr tt, mk_state (annotations st) (ratio_calls st ++ l)).

(** [range(lo, hi)] and [enumerate(l)] *)
Definition py_range (lo hi : nat) : list nat := seq lo (hi - lo).

Definition enumerate {A} (l : list A) : list (nat * A) :=
  combine (seq 0 (length l)) l.

(** ** [find_text_fuzzy] *)

Definition default_color : pyval := PStr (lit "rgba(255, 255, 0, 0.4)").

Definition default_threshold : Q := 85%Q.

(** Lines 47-53: a bare string becomes a dict with the default colour, a dict
    is kept, anything else is dropped. *)
Definition normalize_query (q : raw_query) : list dict :=
  match q with
  | QStr s => [[(lit "text", PStr s); (lit "color", default_color)]]
  | QDict d => [d]
  | QOther _ => []
  end.

Definition normalize_queries (text_quotes : list raw_query) : list dict :=
  flat_map normalize_query text_quotes.

(** [query_item['text']] *)
Definition item_text (query_item : dict) : exn + pyval :=
  match dict_get query_item (lit "text") with
  | Some v => inr v
  | None => inl (KeyError (lit "text"))
  end.

(** [query_item.get('color', "rgba(255, 255, 0, 0.4)")] *)
Definition item_color (query_item : dict) : pyval :=
  match dict_get query_item (lit "color") with
  | Some v => v
  | None => default_color
  end.

(** Line 65: [re.sub(r'\s+', ' ', quote).strip()]; [re.sub] raises a
    [TypeError] on a value that is not a string. *)
Definition not_a_string : exn :=
  TypeError (lit "expected string or bytes-like object").

Definition clean_quote (quote : pyval) : exn + (str * str) :=
  match quote with
  | PStr s => inr (s, strip (re_sub_ws s))
  | _ => inl not_a_string
  end.

(** Line 69: [" ".join([w[4] for w in words])] *)
Definition page_text (words : list word) : str := join (map w_text words).

(** Line 93: [" ".join([w[4] for w in words[i:i+window_size]])] *)
Definition window_text (words : list word) (i window_size : nat) : str :=
  join (map w_text (slice words i (i + window_size))).

(** Lines 106-115: the annotation of one matched word. *)
Definition annotation_of (page_num : nat) (color : pyval) (quote : str)
    (w : word) : annotation :=
  {| a_page := page_num + 1;
     a_x := w_x0 w;
     a_y := w_y0 w;
     a_width := PrimFloat.sub (w_x1 w) (w_x0 w);
     a_height := PrimFloat.sub (w_y1 w) (w_y0 w);
     a_color := color;
     a_quote := quote |}.

(** The local variables of the window scan (lines 83-84), with the ghost log
    of the windows whose score was computed. *)
Record scan_state := mk_scan {
  best_window_score : Q;
  best_window_indices : option (nat * nat);
  windows_seen : list (nat * nat)
}.

Definition scan_init : scan_state := mk_scan 0%Q None [].

Section Engine.

Context {F : Fuzz} {P : Fitz}.

(** Line 94 *)
Definition window_score (words : list word) (quote_clean : str)
    (w : nat * nat) : Q :=
  ratio (lower quote_clean) (lower (window_text words (fst w) (snd w))).

(** Lines 93-98: score one window and keep it when it is strictly better. *)
Definition visit (words : list word) (quote_clean : str)
    (acc : scan_state) (w : nat * nat) : scan_state :=
  let score := window_score words quote_clean w in
  let seen := windows_seen acc ++ [w] in
  if Qlt_bool (best_window_score acc) score
  then mk_scan score (Some (fst w, fst w + snd w)) seen
  else mk_scan (best_window_score acc) (best_window_indices acc) seen.

(** Lines 89-98: the inner loop over the window sizes, left by [break] at the
    first size that runs past the end of the page. *)
Fixpoint scan_sizes (words : list word) (quote_clean : str) (i : nat)
    (sizes : list nat) (acc : scan_state) : scan_state :=
  match sizes with
  | [] => acc
  | window_size :: rest =>
      if length words <? i + window_size then acc
      else scan_sizes words quote_clean i rest
             (visit words quote_clean acc (i, window_size))
  end.

(** [range(max(1, quote_word_count - 2), quote_word_count + 5)]; the
    subtraction on [nat] stops at 0, which [max 1] hides. *)
Definition window_sizes (quote_word_count : nat) : list nat :=
  py_range (Nat.max 1 (quote_word_count - 2)) (quote_word_count + 5).

(** Lines 80-98: the scan of one page for one quote. *)
Definition scan_windows (words : list word) (quote_clean : str) : scan_state :=
  let quote_word_count := length (split quote_clean) in
  fold_left
    (fun acc i =>
       scan_sizes words quote_clean i (window_sizes quote_word_count) acc)
    (py_range 0 (length words)) scan_init.

Definition unpack_error : exn :=
  TypeError (lit "cannot unpack non-iterable NoneType object").

(** Line 101: [start_idx, end_idx = best_window_indices] *)
Definition unpack (indices : option (nat * nat)) : exn + (nat * nat) :=
  match indices with
  | Some p => inr p
  | None => inl unpack_error
  end.

(** Lines 61-115: the body of the loop over the queries, for one page. *)
Definition process_query (threshold : Q) (page_num : nat) (words : list word)
    (query_item : dict) : M unit :=
  quote_v <- lift (item_text query_item) ;;
  let color := item_color query_item in
  '(quote, quote_clean) <- lift (clean_quote quote_v) ;;
  if length quote_clean <? 5 then ret tt
  else
    let full_text := page_text words in
    let score := partial_ratio (lower quote_clean) (lower full_text) in
    if Qle_bool threshold score then
      let scan := scan_windows words quote_clean in
      log_ratio_calls (windows_seen scan) ;;
      if Qle_bool threshold (best_window_score scan) then
        '(start_idx, end_idx) <- lift (unpack (best_window_indices scan)) ;;
        let matched_words := slice words start_idx end_idx in
        for_each matched_words
          (fun w => append_annotation (annotation_of page_num color quote w))
      else ret tt
    else ret tt.

(** Lines 73-101 as a function of the page and the cleaned quote: the span
    [(start_idx, end_idx)] that reaches line 101, if any. *)
Definition accepted_match (threshold : Q) (words : list word)
    (quote_clean : str) : option (nat * nat) :=
  if Qle_bool threshold
       (partial_ratio (lower quote_clean) (lower (page_text words)))
  then
    let scan := scan_windows words quote_clean in
    if Qle_bool threshold (best_window_score scan)
    then best_window_indices scan
    else None
  else None.

(** Lines 56-115: the body of the [try] block. *)
Definition try_body (threshold : Q) (pdf_bytes : list Byte.byte)
    (normalized_queries : list dict) : M unit :=
  doc <- lift (fitz_open pdf_bytes) ;;
  for_each (enumerate doc)
    (fun '(page_num, words) =>
       for_each normalized_queries (process_query threshold page_num words)).

(** What a call leaves behind: the list it returns, the warnings it shows
    with [st.warning], and the ghost log of scored windows. *)
Record outcome := mk_outcome {
  returned : list annotation;
  warnings : list exn;
  scored : list (nat * nat)
}.

(** Lines 42-120. *)
Definition find_text_fuzzy (pdf_bytes : list Byte.byte)
    (text_quotes : list raw_query) (threshold : Q) : outcome :=
  let normalized_queries := normalize_queries text_quotes in
  match try_body threshold pdf_bytes normalized_queries (mk_state [] []) with
  | (inr _, st) => mk_outcome (annotations st) [] (ratio_calls st)
  | (inl e, st) => mk_outcome (annotations st) [e] (ratio_calls st)
  end.

(** Lines 755-765: one call per uploaded file, with the default threshold. *)
Definition annotate_files (all_pdf_bytes : list (list Byte.byte))
    (evidence_items : list raw_query) : list outcome :=
  map (fun pdf_bytes => find_text_fuzzy pdf_bytes evidence_items
                          default_threshold)
      all_pdf_bytes.

(** The (page, query) pairs in the order the two loops reach them. *)
Definition pairs (doc : document) (normalized_queries : list dict)
  : list (nat * list word * dict) :=
  flat_map (fun pw => map (fun q => (pw, q)) normalized_queries)
           (enumerate doc).

(** One pair run on its own, from the empty state. *)
Definition run_pair (threshold : Q) (p : nat * list word * dict)
  : (exn + unit) * state :=
  process_query threshold (fst (fst p)) (snd (fst p)) (snd p)
                (mk_state [] []).

Definition pair_annotations (threshold : Q) (p : nat * list word * dict)
  : list annotation :=
  annotations (snd (run_pair threshold p)).

End Engine.

(** ** Vocabulary of the statements *)

(** The windows [(i, window_size)] of a page of [num_words] words for a quote
    of [quote_word_count] tokens, in scan order: for each start, the sizes of
    [window_sizes] up to the last one that fits. *)
Definition scanned_windows (num_words quote_word_count : nat)
  : list (nat * nat) :=
  let lo := Nat.max 1 (quote_word_count - 2) in
  flat_map
    (fun i => map (pair i)
                (seq lo (Nat.min (quote_word_count + 5 - lo)
                                 (S num_words - i - lo))))
    (seq 0 num_words).

(** Lexicographic order on (start index, window size). *)
Definition lex_lt (a b : nat * nat) : Prop :=
  fst a < fst b \/ (fst a = fst b /\ snd a < snd b).

Definition lex_le (a b : nat * nat) : Prop :=
  fst a < fst b \/ (fst a = fst b /\ snd a <= snd b).

(** The state after a computation that started in [st] and added [d]. *)
Definition extend (st d : state) : state :=
  mk_state (annotations st ++ annotations d) (ratio_calls st ++ ratio_calls d).

(** A computation that only appends: its result does not depend on the
    state it starts from, and it leaves that state extended. *)
Definition appending {A} (m : M A) : Prop :=
  forall st, m st = (fst (m (mk_state [] [])),
                     extend st (snd (m (mk_state [] [])))).

(** What the bodies of a loop over [l] add when each is run on its own. *)
Definition accumulate {A} (body : A -> M unit) (l : list A) : state :=
  fold_right (fun x d => extend (snd (body x (mk_state [] []))) d)
             (mk_state [] []) l.

(** A word as [get_text("words")] delivers it: not empty and free of
    whitespace. *)
Definition word_like (w : str) : bool :=
  match w with
  | [] => false
  | _ => forallb (fun c => negb (is_space c)) w
  end.


(** ** Sample inputs *)

Module Sample.

Definition wd (text : string) (x0 : float) (word_no : nat) : word :=
  mk_word x0 700%float (PrimFloat.add x0 30.5%float) 712%float
          (lit text) 0 0 word_no.

(** "The liver converts glucose to glycogen ." *)
Definition page1 : page :=
  [wd "The" 72 0; wd "liver" 110 1; wd "converts" 148 2;
   wd "glucose" 186 3; wd "to" 224 4; wd "glycogen" 262 5; wd "." 300 6].

Definition page2 : page :=
  [wd "Glycogen" 72 0; wd "is" 110 1; wd "stored" 148 2].

(** A page on which three windows tie. *)
Definition tie_page : page :=
  [wd "glucose" 72 0; wd "glucose" 110 1; wd "glucose" 148 2].

(** A stand-in for [fitz]: the empty stream cannot be opened, a stream of
    one byte is a one-page document, any other stream has two pages. *)
#[export] Instance sample_fitz : Fitz := {|
  fitz_open := fun pdf_bytes =>
    match pdf_bytes with
    | [] => inl (FileDataError (lit "Failed to open stream"))
    | [_] => inr [page1]
    | _ => inr [page1; page2]
    end
|}.

Definition broken_pdf : list Byte.byte := [].
Definition one_page_pdf : list Byte.byte := [Byte.x25].
Definition two_page_pdf : list Byte.byte := [Byte.x25; Byte.x50].

Definition yellow : pyval := default_color.
Definition orange : pyval := PStr (lit "rgba(255, 165, 0, 0.5)").

Definition item (text : string) (color : pyval) : dict :=
  [(lit "text", PStr (lit text)); (lit "color", color)].

Definition evidence (text : string) (color : pyval) : raw_query :=
  QDict (item text color).

(** An evidence entry whose text is [None]. *)
Definition null_evidence : raw_query :=
  QDict [(lit "text", PNone); (lit "color", yellow)].

End Sample.

(** ** Further vocabulary *)


(** Line 65 as a function of the quote. *)
Definition clean (quote : str) : str := strip (re_sub_ws quote).

(** [subsequence l1 l2]: [l1] is [l2] with some of its elements left out,
    the others in the same order. *)
Inductive subsequence {A : Type} : list A -> list A -> Prop :=
| subsequence_nil : subsequence [] []
| subsequence_keep (x : A) (l1 l2 : list A) :
    subsequence l1 l2 -> subsequence (x :: l1) (x :: l2)
| subsequence_skip (x : A) (l1 l2 : list A) :
    subsequence l1 l2 -> subsequence l1 (x :: l2).

(** A stand-in for [fitz] whose documents start with a page without words
    ([get_text("words")] returns the empty list for a blank page), followed
    by [Sample.page1]. *)
Definition blank_first_fitz : Fitz := {|
  fitz_open := fun _ => inr [[]; Sample.page1]
|}.

(** ** JSON values and the operations the script applies to them *)

Module Json.

(** What [json.loads] returns: [None], a bool, an int, a float, a str, a list
    or a dict. A dict is an association list with distinct keys, in
    insertion order. *)
#[warnings="-register-all"]
Inductive json :=
| JNull
| JBool (b : bool)
| JInt (z : Z)
| JFloat (f : float)
| JStr (s : str)
| JList (l : list json)
| JDict (d : list (str * json)).

Inductive error :=
| AttributeError (attribute : str)
| TypeError (msg : str)
| KeyError (key : str)
| ValueError (msg : str).

Definition ebind {A B} (m : error + A) (k : A -> error + B) : error + B :=
  match m with
  | inl e => inl e
  | inr a => k a
  end.

(** [bool(v)] *)
Definition truthy (v : json) : bool :=
  match v with
  | JNull => false
  | JBool b => b
  | JInt z => negb (Z.eqb z 0)
  | JFloat f => negb (PrimFloat.eqb f 0%float)
  | JStr s => match s with [] => false | _ => true end
  | JList l => match l with [] => false | _ => true end
  | JDict d => match d with [] => false | _ => true end
  end.

Fixpoint lookup (d : list (str * json)) (key : str) : option json :=
  match d with
  | [] => None
  | (k, v) :: rest => if str_eqb k key then Some v else lookup rest key
  end.

Fixpoint is_prefix (p s : str) : bool :=
  match p, s with
  | [], _ => true
  | _ :: _, [] => false
  | a :: p', b :: s' => Ascii.eqb a b && is_prefix p' s'
  end.

(** [p in s] for two strings *)
Fixpoint is_substring (p s : str) : bool :=
  is_prefix p s
  || match s with
     | [] => false
     | _ :: rest => is_substring p rest
     end.

Definition is_str (key : str) (v : json) : bool :=
  match v with
  | JStr s => str_eqb s key
  | _ => false
  end.

(** [key in v] for a string [key]: a key of a dict, an element of a list, a
    substring of a string; a [TypeError] on anything else. *)
Definition contains (key : str) (v : json) : error + bool :=
  match v with
  | JDict d => inr (match lookup d key with Some _ => true | None => false end)
  | JList l => inr (existsb (is_str key) l)
  | JStr s => inr (is_substring key s)
  | _ => inl (TypeError (lit "argument is not iterable"))
  end.

(** [v.get(key, default)]: only a dict has the method. *)
Definition get (v : json) (key : str) (default : json) : error + json :=
  match v with
  | JDict d => inr (match lookup d key with Some x => x | None => default end)
  | _ => inl (AttributeError (lit "get"))
  end.

(** [v[key]] for a string [key] *)
Definition getitem (v : json) (key : str) : error + json :=
  match v with
  | JDict d => match lookup d key with
               | Some x => inr x
               | None => inl (KeyError key)
               end
  | JList _ | JStr _ => inl (TypeError (lit "indices must be integers"))
  | _ => inl (TypeError (lit "object is not subscriptable"))
  end.

(** [for x in v]: the elements of a list, the keys of a dict, the
    characters of a string. *)
Definition iterate (v : json) : error + list json :=
  match v with
  | JList l => inr l
  | JDict d => inr (map (fun kv => JStr (fst kv)) d)
  | JStr s => inr (map (fun c => JStr [c]) s)
  | _ => inl (TypeError (lit "object is not iterable"))
  end.

(** [v.lower()]: only a str has the method. *)
Definition lower_method (v : json) : error + str :=
  match v with
  | JStr s => inr (lower s)
  | _ => inl (AttributeError (lit "lower"))
  end.

End Json.

(** ** The evidence quotes handed to [find_text_fuzzy] (lines 729-749) *)

Module Evidence.
Import Json.

Definition yellow : str := lit "rgba(255, 255, 0, 0.4)".
Definition orange : str := lit "rgba(255, 165, 0, 0.5)".

(** Lines 739-741: orange for a certainty that lower-cases to
    "hypothetical", yellow otherwise. *)
Definition certainty_color (certainty : json) : error + str :=
  if truthy certainty then
    ebind (lower_method certainty) (fun l =>
    inr (if str_eqb l (lit "hypothetical") then orange else yellow))
  else inr yellow.

(** Lines 734-749 for one reaction: the [{'text': quote, 'color': color}]
    entries it adds. *)
Definition reaction_evidence (rxn : json) : error + list (json * str) :=
  ebind (contains (lit "evidence") rxn) (fun has_evidence =>
  if has_evidence then
    ebind (get rxn (lit "certainty") (JStr (lit "Confirmed")))
      (fun certainty =>
    ebind (certainty_color certainty) (fun color =>
    ebind (getitem rxn (lit "evidence")) (fun evidence =>
    if truthy evidence then
      match evidence with
      | JList quotes => inr (map (fun quote => (quote, color)) quotes)
      | _ => inr []
      end
    else inr [])))
  else inr []).

(** Lines 732-749: the loop over the reactions, appending to
    [evidence_items]. *)
Fixpoint collect (reactions : list json) (evidence_items : list (json * str))
  : error + list (json * str) :=
  match reactions with
  | [] => inr evidence_items
  | rxn :: rest =>
      ebind (reaction_evidence rxn) (fun added =>
      collect rest (evidence_items ++ added))
  end.

(** Lines 729-749: nothing is collected ([None]) unless [json_data] is
    truthy and has 'reactions'. *)
Definition collect_evidence (json_data : json)
  : error + option (list (json * str)) :=
  if truthy json_data then
    ebind (contains (lit "reactions") json_data) (fun has_reactions =>
    if has_reactions then
      ebind (getitem json_data (lit "reactions")) (fun reactions =>
      ebind (iterate reactions) (fun l =>
      ebind (collect l []) (fun evidence_items =>
      inr (Some evidence_items))))
    else inr None)
  else inr None.

(** A quote as [find_text_fuzzy] sees it. It only asks whether the text is
    a string; every other value makes [re.sub] raise alike. *)
Definition text_value (quote : json) : pyval :=
  match quote with
  | JStr s => PStr s
  | JInt z => PInt (Z.to_nat z)
  | _ => PNone
  end.

(** The entry [{'text': quote, 'color': color}] *)
Definition evidence_item (entry : json * str) : raw_query :=
  QDict [(lit "text", text_value (fst entry));
         (lit "color", PStr (snd entry))].

(** A model as the prompt asks for it: one hypothetical reaction, one
    confirmed, one without evidence. *)
Definition sample_reactions : list json :=
  [JDict [(lit "id", JStr (lit "R1"));
          (lit "certainty", JStr (lit "Hypothetical"));
          (lit "evidence", JList [JStr (lit "liver converts glucose")])];
   JDict [(lit "id", JStr (lit "R2"));
          (lit "certainty", JStr (lit "Confirmed"));
          (lit "evidence", JList [JStr (lit "glycogen is stored");
                                  JStr (lit "The liver")])];
   JDict [(lit "id", JStr (lit "R3"))]].

Definition sample_model : json :=
  JDict [(lit "metabolites", JList []);
         (lit "reactions", JList sample_reactions)].

(** What lines 732-749 collect from [sample_reactions]. *)
Definition sample_items : list (json * str) :=
  [(JStr (lit "liver converts glucose"), orange);
   (JStr (lit "glycogen is stored"), yellow);
   (JStr (lit "The liver"), yellow)].

(** A reaction whose certainty came back as a number. *)
Definition scored_reaction_fields : list (str * json) :=
  [(lit "certainty", JInt 1);
   (lit "evidence", JList [JStr (lit "liver converts glucose")])].

End Evidence.

(** ** Searching in strings *)

Module Text.
Import Json.

(** The first index at which [sub] occurs in [s], counted from [pos]. *)
Fixpoint find_at (sub s : str) (pos : nat) : option nat :=
  if is_prefix sub s then Some pos
  else match s with
       | [] => None
       | _ :: rest => find_at sub rest (S pos)
       end.

(** [s.find(sub, start)], with [None] for -1 *)
Definition find (sub s : str) (start : nat) : option nat :=
  find_at sub (skipn start s) start.

(** [s.rfind(sub)], with [None] for -1 *)
Fixpoint rfind_at (sub s : str) (pos : nat) : option nat :=
  match s with
  | [] => if is_prefix sub [] then Some pos else None
  | _ :: rest =>
      match rfind_at sub rest (S pos) with
      | Some i => Some i
      | None => if is_prefix sub s then Some pos else None
      end
  end.

Definition rfind (sub s : str) : option nat := rfind_at sub s 0.

(** The length of the run of whitespace at the start of [s]. *)
Fixpoint ws_run (s : str) : nat :=
  match s with
  | c :: rest => if is_space c then S (ws_run rest) else 0
  | [] => 0
  end.

Definition char_in (chars : str) (c : ascii) : bool :=
  existsb (Ascii.eqb c) chars.

(** [s.strip(chars)] *)
Fixpoint lstrip_chars (chars s : str) : str :=
  match s with
  | [] => []
  | c :: rest => if char_in chars c then lstrip_chars chars rest else s
  end.

Definition strip_chars (chars s : str) : str :=
  rev (lstrip_chars chars (rev (lstrip_chars chars s))).

End Text.

(** ** The API key read from the environment (lines 19-22) *)

Definition single_quote : ascii := ascii_of_nat 39.
Definition double_quote : ascii := ascii_of_nat 34.

(** Line 22, applied when the key is set and not empty: [strip()], then
    [strip] of the single quote, then [strip] of the double quote. *)
Definition clean_api_key (api_key : option str) : option str :=
  match api_key with
  | Some (c :: k) =>
      Some (Text.strip_chars [double_quote]
              (Text.strip_chars [single_quote] (strip (c :: k))))
  | other => other
  end.

(** ** The JSON block of the model's answer (lines 645-655) *)

Module Answer.
Import Json Text.

Definition backquote : ascii := ascii_of_nat 96.

Definition fence : str := [backquote; backquote; backquote].

(** Group 1 of [re.search(r'```(?:json)?\s*(.*?)```', full_text, re.DOTALL)].
    The search starts at the first fence; the optional tag and the
    whitespace after it hold no backquote, so giving them back cannot
    produce a closing fence, and the lazy group ends at the next fence. *)
Definition json_match (full_text : str) : option str :=
  match find fence full_text 0 with
  | None => None
  | Some p =>
      let tag := if is_prefix (lit "json") (skipn (p + 3) full_text)
                 then 4 else 0 in
      let q := p + 3 + tag + ws_run (skipn (p + 3 + tag) full_text) in
      match find fence full_text q with
      | None => None
      | Some r => Some (slice full_text q r)
      end
  end.

(** Lines 645-655: the fenced block, or else the text from the first
    opening brace to the last closing brace, or else the empty string. *)
Definition json_str (full_text : str) : str :=
  match json_match full_text with
  | Some group => group
  | None =>
      match find (lit "{") full_text 0, rfind (lit "}") full_text with
      | Some start_idx, Some end_idx =>
          slice full_text start_idx (end_idx + 1)
      | _, _ => []
      end
  end.

End Answer.

(** ** [smart_clean_name] (lines 36-40) *)

Module Names.
Import Json Text.

Definition is_digit (c : ascii) : bool :=
  let n := nat_of_ascii c in (48 <=? n) && (n <=? 57).

Fixpoint drop_digits (s : str) : str :=
  match s with
  | c :: rest => if is_digit c then drop_digits rest else s
  | [] => []
  end.

(** What is left after a match of [\d+] at the start of [s], if any. *)
Definition after_digits (s : str) : option str :=
  match s with
  | c :: rest => if is_digit c then Some (drop_digits rest) else None
  | [] => None
  end.

(** [re.sub(r'^\d+[\.,]\d+-', '', name)]: a run of digits takes all the
    digits there are, since what must follow it is not a digit. *)
Definition strip_locant (name : str) : str :=
  match after_digits name with
  | Some (sep :: rest) =>
      if char_in (lit ".,") sep then
        match after_digits rest with
        | Some (dash :: tail) =>
            if Ascii.eqb dash "-"%char then tail else name
        | _ => name
        end
      else name
  | _ => name
  end.

Definition newline : ascii := ascii_of_nat 10.

(** The text up to the first newline: what [.] can run over. *)
Fixpoint line_of (s : str) : str :=
  match s with
  | c :: rest => if Ascii.eqb c newline then [] else c :: line_of rest
  | [] => []
  end.

(** The first index at which [sub], given in lower case, occurs in [s]
    whatever the letter case. *)
Definition find_ci (sub s : str) : option nat := find_at sub (lower s) 0.

(** The length of the match of [.*?synthetic.*?\)] at the start of [s]
    (just after an opening parenthesis), if there is one: on the first
    line, the first "synthetic" in any letter case and the first closing
    parenthesis after it. *)
Definition synthetic_match (s : str) : option nat :=
  let line := line_of s in
  match find_ci (lit "synthetic") line with
  | None => None
  | Some i =>
      match find (lit ")") line (i + 9) with
      | None => None
      | Some j => Some (j + 1)
      end
  end.

(** [re.sub(r'\(.*?synthetic.*?\)', '', name, flags=re.IGNORECASE)]: left
    to right, each match removed; [skip] counts the characters of a match
    still to drop. *)
Fixpoint remove_synthetic_from (s : str) (skip : nat) : str :=
  match s with
  | [] => []
  | c :: rest =>
      match skip with
      | S k => remove_synthetic_from rest k
      | 0 =>
          if Ascii.eqb c "("%char then
            match synthetic_match rest with
            | Some n => remove_synthetic_from rest n
            | None => c :: remove_synthetic_from rest 0
            end
          else c :: remove_synthetic_from rest 0
      end
  end.

Definition remove_synthetic (name : str) : str :=
  remove_synthetic_from name 0.

Definition smart_clean_name (name : str) : str :=
  strip (remove_synthetic (strip_locant name)).

End Names.

(** ** [generate_graphviz_dot] (lines 386-456) and the DPI line (694) *)

(** What the function takes from Python itself and from [json]:
    [json.loads], the per-process [hash] of a string, and the [str] of a
    float or a dict. *)
Class Builtins := {
  json_loads : str -> Json.error + Json.json;
  hash : str -> Z;
  repr : Json.json -> str
}.

Module Graph.
Import Json Text Names.

(** [sep.join(l)] *)
Fixpoint join_with (sep : str) (l : list str) : str :=
  match l with
  | [] => []
  | [w] => w
  | w :: rest => w ++ sep ++ join_with sep rest
  end.

(** The decimal digits of a natural number, as [str] prints an int. *)
Definition decimal (n : N) : str :=
  list_ascii_of_string (NilZero.string_of_uint (N.to_uint n)).

Definition quoted (s : str) : str := double_quote :: s ++ [double_quote].

(** [s.replace(old, '')] for a non-empty [old]: left to right, each
    occurrence dropped; [skip] counts the characters still to drop. *)
Fixpoint remove_all_from (old s : str) (skip : nat) : str :=
  match s with
  | [] => []
  | c :: rest =>
      match skip with
      | S k => remove_all_from old rest k
      | 0 =>
          if is_prefix old s then remove_all_from old rest (length old - 1)
          else c :: remove_all_from old rest 0
      end
  end.

Definition remove_all (old s : str) : str := remove_all_from old s 0.

(** [s.replace(old, new, 1)] *)
Fixpoint replace_first (old new s : str) : str :=
  if is_prefix old s then new ++ skipn (length old) s
  else match s with
       | [] => []
       | c :: rest => c :: replace_first old new rest
       end.

(** Lines 391-400 *)
Definition header : list str :=
  [lit "digraph MetabolicPathway {";
   lit "  rankdir=LR;";
   lit "  nodesep=0.6;";
   lit "  ranksep=0.8;";
   lit "  splines=ortho;";
   lit "  overlap=false;";
   lit "  node [fontname=" ++ quoted (lit "Helvetica") ++ lit ", fontsize=10];";
   lit "  edge [fontname=" ++ quoted (lit "Helvetica") ++ lit ", fontsize=9];"].

(** Lines 403-407 *)
Definition exclude_metabolites : list str :=
  map lit
    ["h2o"; "water"; "h+"; "proton"; "o2"; "oxygen"; "co2";
     "atp"; "adp"; "amp"; "nad+"; "nadh"; "nadp+"; "nadph";
     "pi"; "phosphate"; "ppi"; "coa"; "coenzyme a"]%string.

Definition excluded (name : str) : bool :=
  existsb (str_eqb (lower name)) exclude_metabolites.

(** Line 428 *)
Definition reaction_node (rxn_id rxn_label : str) : str :=
  lit "  " ++ rxn_id
  ++ lit " [shape=ellipse, style=filled, fillcolor=" ++ quoted (lit "#fff9c4")
  ++ lit ", label=" ++ quoted rxn_label ++ lit ", fontsize=8];".

(** Lines 438 and 449 *)
Definition metabolite_node (met_id name : str) : str :=
  lit "  " ++ met_id
  ++ lit " [shape=box, style=filled, fillcolor=" ++ quoted (lit "#e1f5fe")
  ++ lit ", label=" ++ quoted name ++ lit "];".

(** Lines 439 and 450 *)
Definition edge (from to : str) : str :=
  lit "  " ++ from ++ lit " -> " ++ to ++ lit ";".

(** A loop that extends [dot] and can raise. *)
Fixpoint for_lines {A} (body : A -> error + list str) (l : list A)
  : error + list str :=
  match l with
  | [] => inr []
  | x :: rest =>
      ebind (body x) (fun lines =>
      ebind (for_lines body rest) (fun more => inr (lines ++ more)))
  end.

(** The elements of a list as strings, for [", ".join]. *)
Fixpoint all_str (l : list json) : error + list str :=
  match l with
  | [] => inr []
  | JStr s :: rest => ebind (all_str rest) (fun more => inr (s :: more))
  | _ :: _ => inl (TypeError (lit "sequence item: expected str instance"))
  end.

Section WithBuiltins.

Context {B : Builtins}.

(** [str(v)] *)
Definition py_str (v : json) : str :=
  match v with
  | JStr s => s
  | JNull => lit "None"
  | JBool true => lit "True"
  | JBool false => lit "False"
  | JInt z => (if Z.ltb z 0 then lit "-" else []) ++ decimal (Z.abs_N z)
  | other => repr other
  end.

(** Lines 420-422 *)
Definition enzyme_label (enzyme : json) : error + str :=
  ebind (match enzyme with
         | JList l =>
             ebind (all_str l) (fun names =>
             inr (JStr (join_with (lit ", ") names)))
         | other => inr other
         end) (fun joined =>
  inr (remove_all (lit " activity") (py_str joined))).

(** Lines 431-439 and 442-450: the lines of one substrate or product. *)
Definition metabolite_lines (rxn_id : str) (is_substrate : bool)
    (full : json) : error + list str :=
  match full with
  | JStr s_full =>
      let s_clean := smart_clean_name s_full in
      if excluded s_clean then inr []
      else
        let s_id := lit "met_" ++ decimal (Z.abs_N (hash s_clean)) in
        inr [metabolite_node s_id s_clean;
             if is_substrate then edge s_id rxn_id else edge rxn_id s_id]
  | _ => inl (TypeError (lit "expected string or bytes-like object"))
  end.

(** Lines 411-450: the lines of reaction number [i]. *)
Definition reaction_lines (numbered : nat * json) : error + list str :=
  let (i, rxn) := numbered in
  ebind (get rxn (lit "substrates") (JList [])) (fun substrates =>
  ebind (get rxn (lit "products") (JList [])) (fun products =>
  ebind (get rxn (lit "enzyme") (JStr (lit "unknown"))) (fun enzyme =>
  if negb (truthy substrates) || negb (truthy products) then inr []
  else
    ebind (enzyme_label enzyme) (fun enzyme_clean =>
    let rxn_id := lit "rxn_" ++ decimal (N.of_nat i) in
    ebind (iterate substrates) (fun ss =>
    ebind (for_lines (metabolite_lines rxn_id true) ss) (fun s_lines =>
    ebind (iterate products) (fun ps =>
    ebind (for_lines (metabolite_lines rxn_id false) ps) (fun p_lines =>
    inr (reaction_node rxn_id enzyme_clean :: s_lines ++ p_lines))))))))).

(** Lines 388-453: the lines of [dot]. *)
Definition graph_lines (json_data : json) : error + list str :=
  ebind (match json_data with
         | JDict _ => inr json_data
         | JStr s => json_loads s
         | _ => inl (TypeError (lit "the JSON object must be str"))
         end) (fun data =>
  ebind (contains (lit "reactions") data) (fun has_reactions =>
  ebind (if has_reactions then
           ebind (getitem data (lit "reactions")) (fun reactions =>
           ebind (iterate reactions) (fun l =>
           for_lines reaction_lines (enumerate l)))
         else inr []) (fun body =>
  inr (header ++ body ++ [lit "}"])))).

(** Lines 386-456: the DOT text, or [None] with the error shown by
    [st.error]. *)
Definition generate_graphviz_dot (json_data : json)
  : option str * list error :=
  match graph_lines json_data with
  | inr dot => (Some (join_with [newline] dot), [])
  | inl e => (None, [e])
  end.

End WithBuiltins.

(** Line 694: [dot_code.replace('{', '{\n  dpi=300;', 1)] *)
Definition dot_code_high_res (dot_code : str) : str :=
  replace_first (lit "{") (lit "{" ++ newline :: lit "  dpi=300;") dot_code.

(** A stand-in for the builtins: the hash is the length of the string. *)
Definition sample_builtins : Builtins := {|
  json_loads := fun _ => inl (ValueError (lit "Expecting value"));
  hash := fun s => (Z.of_nat (length s) - 5)%Z;
  repr := fun _ => lit "..."
|}.

Definition glycolysis_fields : list (str * json) :=
  [(lit "substrates", JList (map JStr [lit "glucose"; lit "ATP"]));
   (lit "products", JList (map JStr [lit "glucose 6-phosphate"; lit "ADP"]));
   (lit "enzyme", JStr (lit "hexokinase activity"))].

Definition glycolysis_step : json := JDict glycolysis_fields.

Definition sample_pathway : json :=
  JDict [(lit "reactions", JList [glycolysis_step])].

(** A pathway whose second reaction came back as a bare string. *)
Definition broken_pathway_fields : list (str * json) :=
  [(lit "reactions", JList [glycolysis_step; JStr (lit "see text")])].

End Graph.

(** * Properties *)

(** ** Rational comparisons *)

Lemma Qlt_bool_iff (x y : Q) : Qlt_bool x y = true <-> (x < y)%Q.
Proof.
  unfold Qlt_bool. rewrite negb_true_iff. split; intro H.
  - apply Qnot_le_lt. intro L. apply Qle_bool_iff in L. congruence.
  - destruct (Qle_bool y x) eqn:E; trivial.
    apply Qle_bool_iff in E. exfalso. exact (Qlt_not_le _ _ H E).
Qed.

Lemma Qlt_bool_false (x y : Q) : Qlt_bool x y = false <-> (y <= x)%Q.
Proof.
  unfold Qlt_bool. rewrite negb_false_iff. apply Qle_bool_iff.
Qed.

Lemma Qle_bool_false (x y : Q) : Qle_bool x y = false <-> (y < x)%Q.
Proof.
  split; intro H.
  - apply Qnot_le_lt. intro L. apply Qle_bool_iff in L. congruence.
  - destruct (Qle_bool x y) eqn:E; trivial.
    apply Qle_bool_iff in E. exfalso. exact (Qlt_not_le _ _ H E).
Qed.

(** ** The reference scorer obeys the laws *)

Module IndelFacts.
Import Indel.

Lemma lcs_nil_r (a : str) : lcs a [] = 0.
Proof. destruct a; reflexivity. Qed.

Lemma lcs_cons (x y : ascii) (a b : str) :
  lcs (x :: a) (y :: b) =
  if Ascii.eqb x y then S (lcs a b)
  else Nat.max (lcs a (y :: b)) (lcs (x :: a) b).
Proof. reflexivity. Qed.

Lemma lcs_le_l (a b : str) : lcs a b <= length a.
Proof.
  revert b. induction a as [|x a IHa]; intro b; [simpl; lia|].
  induction b as [|y b IHb]; [rewrite lcs_nil_r; lia|].
  rewrite lcs_cons. destruct (Ascii.eqb x y).
  - simpl. specialize (IHa b). lia.
  - specialize (IHa (y :: b)). simpl in *. lia.
Qed.

Lemma lcs_le_r (a b : str) : lcs a b <= length b.
Proof.
  revert b. induction a as [|x a IHa]; intro b; [simpl; lia|].
  induction b as [|y b IHb]; [rewrite lcs_nil_r; lia|].
  rewrite lcs_cons. destruct (Ascii.eqb x y).
  - simpl. specialize (IHa b). lia.
  - specialize (IHa (y :: b)). simpl in *. lia.
Qed.

Lemma lcs_refl (a : str) : lcs a a = length a.
Proof.
  induction a as [|x a IH]; [reflexivity|].
  rewrite lcs_cons, Ascii.eqb_refl, IH. reflexivity.
Qed.

(** Two strings of one length whose common subsequence has that length are
    equal. *)
Lemma lcs_full (a b : str) :
  length a = length b -> lcs a b = length a -> a = b.
Proof.
  revert b. induction a as [|x a IH]; intros [|y b] L H; try discriminate.
  - reflexivity.
  - rewrite lcs_cons in H. destruct (Ascii.eqb x y) eqn:E.
    + apply Ascii.eqb_eq in E. subst y. f_equal.
      apply IH; simpl in *; lia.
    + exfalso. pose proof (lcs_le_l a (y :: b)).
      pose proof (lcs_le_r (x :: a) b). simpl in *. lia.
Qed.

Lemma lcs_row_spec (x : ascii) (a b : str) :
  lcs_row x b (map (lcs a) (suffixes b)) = map (lcs (x :: a)) (suffixes b).
Proof.
  induction b as [|y b IH]; [reflexivity|].
  cbn [suffixes map lcs_row]. rewrite IH. f_equal.
  rewrite lcs_cons. destruct b; reflexivity.
Qed.

Lemma lcs_rows_spec (a b : str) : lcs_rows a b = map (lcs a) (suffixes b).
Proof.
  unfold lcs_rows. induction a as [|x a IH].
  - simpl. induction b as [|y b IHb]; [reflexivity|].
    cbn [suffixes map length repeat]. f_equal. exact IHb.
  - cbn [fold_right]. rewrite IH. apply lcs_row_spec.
Qed.

Lemma lcs_length_spec (a b : str) : lcs_length a b = lcs a b.
Proof.
  unfold lcs_length. rewrite lcs_rows_spec. destruct b; reflexivity.
Qed.

Lemma Zpos_of_nat (n : nat) :
  n <> 0 -> Z.pos (Pos.of_nat n) = Z.of_nat n.
Proof.
  intro H. rewrite <- positive_nat_Z, Nat2Pos.id by exact H. reflexivity.
Qed.

Lemma indel_ratio_le_100 (a b : str) : (indel_ratio a b <= 100)%Q.
Proof.
  unfold indel_ratio. destruct (length a + length b =? 0) eqn:E.
  - apply Qle_refl.
  - apply Nat.eqb_neq in E. unfold Qle. cbn [Qnum Qden].
    rewrite Zpos_of_nat by exact E. rewrite lcs_length_spec.
    pose proof (lcs_le_l a b). pose proof (lcs_le_r a b). lia.
Qed.

Lemma indel_ratio_100_iff (a b : str) : (indel_ratio a b == 100)%Q <-> a = b.
Proof.
  unfold indel_ratio. destruct (length a + length b =? 0) eqn:E.
  - apply Nat.eqb_eq in E. split; intro; [|reflexivity].
    destruct a, b; simpl in E; try lia. reflexivity.
  - apply Nat.eqb_neq in E. unfold Qeq. cbn [Qnum Qden].
    rewrite Zpos_of_nat by exact E. rewrite lcs_length_spec. split; intro H.
    + pose proof (lcs_le_l a b). pose proof (lcs_le_r a b).
      apply lcs_full; lia.
    + subst b. rewrite lcs_refl. lia.
Qed.

Lemma best_of_bounds (s1 : str) (candidates : list str) (start : Q) :
  (start <= 100)%Q ->
  (start <= best_of s1 candidates start)%Q
  /\ (best_of s1 candidates start <= 100)%Q
  /\ forall w, In w candidates ->
       (indel_ratio s1 w <= best_of s1 candidates start)%Q.
Proof.
  unfold best_of. revert start.
  induction candidates as [|c l IH]; intros start Hs; cbn [fold_left].
  - repeat split; [apply Qle_refl | exact Hs | intros w []].
  - destruct (Qlt_bool start (indel_ratio s1 c)) eqn:E.
    + apply Qlt_bool_iff in E.
      destruct (IH (indel_ratio s1 c) (indel_ratio_le_100 s1 c))
        as (A & B & C).
      repeat split; trivial.
      * eapply Qle_trans; [apply Qlt_le_weak, E | exact A].
      * intros w [<-|Hw]; auto.
    + apply Qlt_bool_false in E. destruct (IH start Hs) as (A & B & C).
      repeat split; trivial.
      intros w [<-|Hw]; auto. eapply Qle_trans; eassumption.
Qed.

Lemma partial_impl_bounds (s1 s2 : str) (start : Q) :
  (start <= 100)%Q ->
  (start <= partial_impl s1 s2 start <= 100)%Q.
Proof.
  intro Hs. unfold partial_impl. destruct s1 as [|c s1].
  - split; [apply Qle_refl | exact Hs].
  - destruct (best_of_bounds (c :: s1)
                (alignments (length (c :: s1)) s2) start Hs) as (A & B & _).
    split; assumption.
Qed.

Lemma slice_middle {A} (pre a post : list A) :
  slice (pre ++ a ++ post) (length pre) (length pre + length a) = a.
Proof.
  unfold slice. rewrite skipn_app, skipn_all, Nat.sub_diag. simpl.
  replace (length pre + length a - length pre) with (length a) by lia.
  rewrite firstn_app, firstn_all, Nat.sub_diag. simpl. apply app_nil_r.
Qed.

(** An occurrence of [a] in [s2] is one of the alignment windows. *)
Lemma occurrence_aligned (a pre post : str) :
  a <> [] -> In a (alignments (length a) (pre ++ a ++ post)).
Proof.
  intro Ha. unfold alignments. rewrite !length_app.
  apply in_or_app. right. apply in_or_app.
  destruct post as [|c post].
  - right. apply in_map_iff. exists (length pre). split.
    + rewrite skipn_app, skipn_all, Nat.sub_diag. simpl. apply app_nil_r.
    + apply in_seq. destruct a; [congruence|]. simpl. lia.
  - left. apply in_map_iff. exists (length pre). split.
    + apply slice_middle.
    + apply in_seq. simpl. lia.
Qed.

Lemma partial_impl_occurrence (a pre post : str) (start : Q) :
  a <> [] -> (start <= 100)%Q ->
  (partial_impl a (pre ++ a ++ post) start == 100)%Q.
Proof.
  intros Ha Hs. unfold partial_impl. destruct a as [|c a]; [congruence|].
  destruct (best_of_bounds (c :: a)
              (alignments (length (c :: a)) (pre ++ (c :: a) ++ post))
              start Hs)
    as (_ & B & C).
  apply Qle_antisym; [exact B|].
  specialize (C (c :: a) (occurrence_aligned (c :: a) pre post Ha)).
  assert (E : (indel_ratio (c :: a) (c :: a) == 100)%Q)
    by (apply indel_ratio_100_iff; reflexivity).
  rewrite <- E. exact C.
Qed.

Lemma indel_partial_ratio_substring (a pre post : str) :
  a <> [] -> (indel_partial_ratio a (pre ++ a ++ post) == 100)%Q.
Proof.
  intro Ha. unfold indel_partial_ratio.
  destruct a as [|c a]; [congruence|].
  set (s1 := c :: a) in *. set (s2 := pre ++ s1 ++ post).
  assert (L : length s1 <= length s2)
    by (unfold s2; rewrite !length_app; lia).
  assert (Z100 : (0 <= 100)%Q) by (unfold Qle; simpl; lia).
  pose proof (partial_impl_occurrence s1 pre post 0%Q Ha Z100) as P.
  fold s2 in P.
  destruct (length s1 <? length s2) eqn:E1; [unfold s1 at 1; exact P|].
  apply Nat.ltb_ge in E1.
  destruct (length s2 <? length s1) eqn:E2;
    [apply Nat.ltb_lt in E2; lia|].
  unfold s1 at 1.
  destruct (partial_impl_bounds s2 s1 (partial_impl s1 s2 0%Q))
    as (A & B).
  - rewrite P. apply Qle_refl.
  - apply Qle_antisym; [exact B|]. rewrite <- P at 1. exact A.
Qed.

End IndelFacts.

#[export] Instance indel_laws : FuzzLaws indel_fuzz := {|
  ratio_le_100 := IndelFacts.indel_ratio_le_100;
  ratio_100_iff := IndelFacts.indel_ratio_100_iff;
  partial_ratio_substring := IndelFacts.indel_partial_ratio_substring
|}.

(** ** The window scan *)

Section Scan.

Context {F : Fuzz}.
Variable words : list word.
Variable quote_clean : str.

Let score := window_score words quote_clean.
Let step := visit words quote_clean.

Lemma visit_seen (acc : scan_state) (w : nat * nat) :
  windows_seen (step acc w) = windows_seen acc ++ [w].
Proof.
  unfold step, visit.
  destruct (Qlt_bool _ _); reflexivity.
Qed.

Lemma fold_visit_seen (l : list (nat * nat)) (acc : scan_state) :
  windows_seen (fold_left step l acc) = windows_seen acc ++ l.
Proof.
  revert acc. induction l as [|w l IH]; intro acc; cbn [fold_left].
  - symmetry. apply app_nil_r.
  - rewrite IH, visit_seen, <- app_assoc. reflexivity.
Qed.

(** The inner loop with its [break] visits the sizes that fit, in order. *)
Lemma scan_sizes_fold (i lo len : nat) (acc : scan_state) :
  scan_sizes words quote_clean i (seq lo len) acc =
  fold_left step
    (map (pair i) (seq lo (Nat.min len (S (length words) - i - lo)))) acc.
Proof.
  revert lo acc. induction len as [|len IH]; intros lo acc.
  - reflexivity.
  - cbn [seq scan_sizes]. destruct (length words <? i + lo) eqn:E.
    + apply Nat.ltb_lt in E.
      replace (S (length words) - i - lo) with 0 by lia. reflexivity.
    + apply Nat.ltb_ge in E.
      replace (S (length words) - i - lo)
        with (S (S (length words) - i - S lo)) by lia.
      cbn [Nat.min seq map fold_left]. apply IH.
Qed.

Lemma fold_left_flat_map {A B C} (f : A -> B -> A) (g : C -> list B)
    (l : list C) (a : A) :
  fold_left f (flat_map g l) a =
  fold_left (fun acc c => fold_left f (g c) acc) l a.
Proof.
  revert a. induction l as [|c l IH]; intro a; cbn [flat_map fold_left].
  - reflexivity.
  - rewrite fold_left_app. apply IH.
Qed.

Lemma fold_left_ext_in {A B} (f g : A -> B -> A) (l : list B) (a : A) :
  (forall acc b, f acc b = g acc b) -> fold_left f l a = fold_left g l a.
Proof.
  intro H. revert a. induction l as [|b l IH]; intro a; cbn [fold_left].
  - reflexivity.
  - rewrite H. apply IH.
Qed.

(** The two nested loops are one pass over [scanned_windows]. *)
Lemma scan_windows_fold :
  scan_windows words quote_clean =
  fold_left step
    (scanned_windows (length words) (length (split quote_clean))) scan_init.
Proof.
  unfold scan_windows, scanned_windows, py_range, window_sizes, py_range.
  rewrite fold_left_flat_map, Nat.sub_0_r.
  apply fold_left_ext_in. intros acc i. apply scan_sizes_fold.
Qed.

Lemma scan_windows_seen :
  windows_seen (scan_windows words quote_clean) =
  scanned_windows (length words) (length (split quote_clean)).
Proof. rewrite scan_windows_fold, fold_visit_seen. reflexivity. Qed.

(** What one pass with the strict update leaves: nothing recorded and score
    0 when no window scored above 0; otherwise the first window whose score
    no window beats. *)
Lemma fold_visit_first_max (l : list (nat * nat)) :
  let r := fold_left step l scan_init in
  match best_window_indices r with
  | None =>
      best_window_score r = 0%Q /\ forall w, In w l -> (score w <= 0)%Q
  | Some (s, e) =>
      exists l1 k l2,
        l = l1 ++ (s, k) :: l2 /\ e = s + k
        /\ best_window_score r = score (s, k)
        /\ (0 < score (s, k))%Q
        /\ (forall w, In w l1 -> (score w < score (s, k))%Q)
        /\ (forall w, In w l2 -> (score w <= score (s, k))%Q)
  end.
Proof.
  induction l as [|x l IH] using rev_ind.
  - simpl. split; [reflexivity | intros w []].
  - cbv zeta in *. rewrite fold_left_app. cbn [fold_left].
    set (r := fold_left step l scan_init) in *.
    assert (Hv : step r x =
                 if Qlt_bool (best_window_score r) (score x)
                 then mk_scan (score x) (Some (fst x, fst x + snd x))
                        (windows_seen r ++ [x])
                 else mk_scan (best_window_score r) (best_window_indices r)
                        (windows_seen r ++ [x])) by reflexivity.
    rewrite Hv. clear Hv.
    destruct (Qlt_bool (best_window_score r) (score x)) eqn:E;
      cbn [best_window_indices best_window_score].
    + apply Qlt_bool_iff in E. destruct x as [i k]. cbn [fst snd].
      exists l, k, []. repeat split; trivial.
      * destruct (best_window_indices r) as [[s e]|].
        -- destruct IH as (l1 & k' & l2 & _ & _ & Hb & Hp & _).
           rewrite Hb in E. lra.
        -- destruct IH as (Hb & _). rewrite Hb in E. exact E.
      * intros w Hw. destruct (best_window_indices r) as [[s e]|].
        -- destruct IH as (l1 & k' & l2 & Hl & _ & Hb & _ & H1 & H2).
           rewrite Hb in E. subst l.
           apply in_app_or in Hw. destruct Hw as [Hw|[<-|Hw]].
           ++ specialize (H1 w Hw). lra.
           ++ exact E.
           ++ specialize (H2 w Hw). lra.
        -- destruct IH as (Hb & H0). rewrite Hb in E.
           specialize (H0 w Hw). lra.
      * intros w [].
    + apply Qlt_bool_false in E.
      destruct (best_window_indices r) as [[s e]|].
      * destruct IH as (l1 & k' & l2 & Hl & He & Hb & Hp & H1 & H2).
        exists l1, k', (l2 ++ [x]). repeat split; trivial.
        -- subst l. rewrite <- app_assoc. reflexivity.
        -- intros w Hw. apply in_app_or in Hw.
           destruct Hw as [Hw|[<-|[]]]; [auto|]. rewrite <- Hb. exact E.
      * destruct IH as (Hb & H0). split; [exact Hb|].
        intros w Hw. apply in_app_or in Hw.
        destruct Hw as [Hw|[<-|[]]]; [auto|]. rewrite <- Hb. exact E.
Qed.

End Scan.

(** ** The order of the scan *)

Lemma in_scanned_windows (n q i k : nat) :
  In (i, k) (scanned_windows n q) <->
  i < n /\ Nat.max 1 (q - 2) <= k /\ k <= q + 4 /\ i + k <= n.
Proof.
  unfold scanned_windows. rewrite in_flat_map. split.
  - intros (i' & Hi & Hin). apply in_map_iff in Hin.
    destruct Hin as (k' & Heq & Hk). inversion Heq; subst i' k'.
    apply in_seq in Hi. apply in_seq in Hk. lia.
  - intros (Hi & Hlo & Hhi & Hfit). exists i. split.
    + apply in_seq. lia.
    + apply in_map_iff. exists k. split; [reflexivity|].
      apply in_seq. lia.
Qed.

Lemma StronglySorted_app {A} (R : A -> A -> Prop) (l1 l2 : list A) :
  StronglySorted R l1 -> StronglySorted R l2 ->
  (forall x y, In x l1 -> In y l2 -> R x y) ->
  StronglySorted R (l1 ++ l2).
Proof.
  intros H1 H2 H. induction H1 as [|a l1 Hs IH Hf]; [exact H2|].
  cbn [app]. constructor.
  - apply IH. intros x y Hx Hy. apply H; [right|]; assumption.
  - apply Forall_app. split; [exact Hf|].
    apply Forall_forall. intros y Hy. apply H; [left; reflexivity | exact Hy].
Qed.

Lemma StronglySorted_split {A} (R : A -> A -> Prop) (l1 l2 : list A) (w : A) :
  StronglySorted R (l1 ++ w :: l2) ->
  (forall x, In x l1 -> R x w) /\ (forall y, In y l2 -> R w y).
Proof.
  induction l1 as [|a l1 IH]; cbn [app]; intro H;
    apply StronglySorted_inv in H; destruct H as (Hs & Hf).
  - split; [intros x []|]. apply Forall_forall. exact Hf.
  - destruct (IH Hs) as (H1 & H2). split; [|exact H2].
    intros x [<-|Hx]; [|auto].
    rewrite Forall_forall in Hf. apply Hf, in_elt.
Qed.

Lemma row_sorted (i lo m : nat) :
  StronglySorted lex_lt (map (pair i) (seq lo m)).
Proof.
  revert lo. induction m as [|m IH]; intro lo; cbn [seq map]; constructor.
  - apply IH.
  - apply Forall_forall. intros [i' k] H. apply in_map_iff in H.
    destruct H as (k' & Heq & Hk). inversion Heq; subst i' k'.
    apply in_seq in Hk. right. cbn [fst snd]. lia.
Qed.

Lemma rows_sorted (lo : nat) (m : nat -> nat) (a n : nat) :
  StronglySorted lex_lt
    (flat_map (fun i => map (pair i) (seq lo (m i))) (seq a n)).
Proof.
  revert a. induction n as [|n IH]; intro a; cbn [seq flat_map].
  - constructor.
  - apply StronglySorted_app; [apply row_sorted | apply IH |].
    intros [i k] [i' k'] Hx Hy. apply in_map_iff in Hx.
    destruct Hx as (k0 & Heq & _). inversion Heq; subst i k0.
    apply in_flat_map in Hy. destruct Hy as (j & Hj & Hy).
    apply in_map_iff in Hy. destruct Hy as (k1 & Heq' & _).
    inversion Heq'; subst i' k1. apply in_seq in Hj.
    left. cbn [fst]. lia.
Qed.

Lemma scanned_windows_sorted (n q : nat) :
  StronglySorted lex_lt (scanned_windows n q).
Proof.
  unfold scanned_windows.
  exact (rows_sorted (Nat.max 1 (q - 2))
           (fun i => Nat.min (q + 5 - Nat.max 1 (q - 2))
                             (S n - i - Nat.max 1 (q - 2))) 0 n).
Qed.

Lemma lex_lt_irrefl (w : nat * nat) : ~ lex_lt w w.
Proof. unfold lex_lt. lia. Qed.

Lemma lex_lt_le (a b : nat * nat) : lex_lt a b -> lex_le a b.
Proof. unfold lex_lt, lex_le. lia. Qed.

Lemma sorted_NoDup (l : list (nat * nat)) :
  StronglySorted lex_lt l -> NoDup l.
Proof.
  induction 1 as [|a l Hs IH Hf]; constructor; [|exact IH].
  intro Hin. rewrite Forall_forall in Hf.
  exact (lex_lt_irrefl _ (Hf a Hin)).
Qed.

Section ScanFacts.

Context {F : Fuzz}.

(** A recorded window is the first to reach the best score: it was scored,
    the windows before it in scan order score strictly less, and no window
    scores more. *)
Lemma scan_windows_first_max (words : list word) (quote_clean : str)
    (s e : nat) :
  let scan := scan_windows words quote_clean in
  best_window_indices scan = Some (s, e) ->
  exists k,
    e = s + k
    /\ In (s, k) (windows_seen scan)
    /\ best_window_score scan = window_score words quote_clean (s, k)
    /\ (0 < best_window_score scan)%Q
    /\ (forall w, In w (windows_seen scan) ->
          (window_score words quote_clean w <= best_window_score scan)%Q)
    /\ (forall w, In w (windows_seen scan) -> lex_lt w (s, k) ->
          (window_score words quote_clean w < best_window_score scan)%Q).
Proof.
  cbv zeta. rewrite scan_windows_seen. rewrite scan_windows_fold.
  set (l := scanned_windows (length words) (length (split quote_clean))).
  pose proof (fold_visit_first_max words quote_clean l) as H.
  cbv zeta in H. intro Hi. rewrite Hi in H.
  destruct H as (l1 & k & l2 & Hl & He & Hb & Hp & H1 & H2).
  exists k. rewrite Hb.
  pose proof (scanned_windows_sorted (length words)
                (length (split quote_clean))) as Hs.
  fold l in Hs. rewrite Hl in Hs.
  destruct (StronglySorted_split _ _ _ _ Hs) as (Hbefore & Hafter).
  repeat split; trivial.
  - rewrite Hl. apply in_elt.
  - intros w Hw. rewrite Hl in Hw. apply in_app_or in Hw.
    destruct Hw as [Hw|[<-|Hw]].
    + apply Qlt_le_weak. auto.
    + apply Qle_refl.
    + auto.
  - intros w Hw Hlt. rewrite Hl in Hw. apply in_app_or in Hw.
    destruct Hw as [Hw|[<-|Hw]].
    + auto.
    + destruct (lex_lt_irrefl _ Hlt).
    + specialize (Hafter w Hw). exfalso.
      unfold lex_lt in *. cbn [fst snd] in *. lia.
Qed.

(** Nothing recorded means the score is still the initial 0 and no scored
    window is above 0. *)
Lemma scan_windows_none (words : list word) (quote_clean : str) :
  let scan := scan_windows words quote_clean in
  best_window_indices scan = None ->
  best_window_score scan = 0%Q
  /\ forall w, In w (windows_seen scan) ->
       (window_score words quote_clean w <= 0)%Q.
Proof.
  cbv zeta. rewrite scan_windows_seen, scan_windows_fold.
  set (l := scanned_windows (length words) (length (split quote_clean))).
  pose proof (fold_visit_first_max words quote_clean l) as H.
  cbv zeta in H. intro Hi. rewrite Hi in H. exact H.
Qed.

End ScanFacts.

(** ** The monad and the loops *)

Lemma extend_empty (st : state) : extend st (mk_state [] []) = st.
Proof. destruct st. unfold extend. cbn. rewrite !app_nil_r. reflexivity. Qed.

Lemma extend_assoc (a b c : state) :
  extend (extend a b) c = extend a (extend b c).
Proof. unfold extend. cbn. rewrite !app_assoc. reflexivity. Qed.

Lemma for_each_append (f : word -> annotation) (l : list word) (st : state) :
  for_each l (fun w => append_annotation (f w)) st =
  (inr tt, mk_state (annotations st ++ map f l) (ratio_calls st)).
Proof.
  revert st. induction l as [|w l IH]; intro st; cbn [for_each map].
  - unfold ret. rewrite app_nil_r. destruct st; reflexivity.
  - unfold bind, append_annotation at 1. rewrite IH. cbn.
    rewrite <- app_assoc. reflexivity.
Qed.

Lemma for_each_app {A} (body : A -> M unit) (l1 l2 : list A) (st : state) :
  for_each (l1 ++ l2) body st = (for_each l1 body ;; for_each l2 body) st.
Proof.
  revert st. induction l1 as [|x l1 IH]; intro st; cbn [app for_each].
  - reflexivity.
  - unfold bind in *. destruct (body x st) as [[e|[]] st1]; [reflexivity|].
    apply IH.
Qed.

Lemma for_each_map {A B} (f : A -> B) (body : B -> M unit) (l : list A)
    (st : state) :
  for_each (map f l) body st = for_each l (fun x => body (f x)) st.
Proof.
  revert st. induction l as [|x l IH]; intro st; cbn [map for_each].
  - reflexivity.
  - unfold bind. destruct (body (f x) st) as [[e|[]] st1]; [reflexivity|].
    apply IH.
Qed.

Lemma for_each_flat_map {A B} (g : A -> list B) (body : B -> M unit)
    (l : list A) (st : state) :
  for_each (flat_map g l) body st =
  for_each l (fun x => for_each (g x) body) st.
Proof.
  revert st. induction l as [|x l IH]; intro st; cbn [flat_map for_each].
  - reflexivity.
  - rewrite for_each_app. unfold bind.
    destruct (for_each (g x) body st) as [[e|[]] st1]; [reflexivity|].
    apply IH.
Qed.

Lemma for_each_ext {A} (f g : A -> M unit) (l : list A) (st : state) :
  (forall x st', f x st' = g x st') -> for_each l f st = for_each l g st.
Proof.
  intro H. revert st. induction l as [|x l IH]; intro st; cbn [for_each].
  - reflexivity.
  - unfold bind. rewrite H. destruct (g x st) as [[e|[]] st1]; auto.
Qed.

Lemma extend_empty_l (d : state) : extend (mk_state [] []) d = d.
Proof. destruct d; reflexivity. Qed.

Lemma accumulate_cons {A} (body : A -> M unit) (x : A) (l : list A) :
  accumulate body (x :: l) =
  extend (snd (body x (mk_state [] []))) (accumulate body l).
Proof. reflexivity. Qed.

Lemma accumulate_app {A} (body : A -> M unit) (l1 l2 : list A) :
  accumulate body (l1 ++ l2) = extend (accumulate body l1) (accumulate body l2).
Proof.
  induction l1 as [|x l1 IH]; cbn [app].
  - symmetry. apply extend_empty_l.
  - rewrite !accumulate_cons, IH, extend_assoc. reflexivity.
Qed.

Lemma accumulate_annotations {A} (body : A -> M unit) (l : list A) :
  annotations (accumulate body l) =
  flat_map (fun x => annotations (snd (body x (mk_state [] [])))) l.
Proof.
  induction l as [|x l IH]; [reflexivity|].
  rewrite accumulate_cons. cbn [flat_map extend annotations].
  rewrite IH. reflexivity.
Qed.

(** A loop of appending bodies: either every body succeeds and the state is
    extended by what they add, or the loop stops at the first body that
    raises, with what was added up to there. *)
Lemma for_each_appending {A} (body : A -> M unit) (l : list A) (st : state) :
  (forall x, appending (body x)) ->
  match for_each l body st with
  | (inr _, st') =>
      Forall (fun x => fst (body x (mk_state [] [])) = inr tt) l
      /\ st' = extend st (accumulate body l)
  | (inl e, st') =>
      exists pre x post,
        l = pre ++ x :: post
        /\ Forall (fun y => fst (body y (mk_state [] [])) = inr tt) pre
        /\ fst (body x (mk_state [] [])) = inl e
        /\ st' = extend st (accumulate body (pre ++ [x]))
  end.
Proof.
  intro Happ. revert st. induction l as [|x l IH]; intro st.
  - cbn. split; [constructor | symmetry; apply extend_empty].
  - cbn [for_each]. unfold bind. rewrite (Happ x st).
    destruct (body x (mk_state [] [])) as [[e|[]] d] eqn:E; cbn [fst snd].
    + exists [], x, l. cbn [app]. rewrite accumulate_cons, E.
      cbn [fst snd]. change (accumulate body []) with (mk_state [] []).
      rewrite extend_empty. repeat split. constructor.
    + specialize (IH (extend st d)).
      destruct (for_each l body (extend st d)) as [[e|u] st'].
      * destruct IH as (pre & y & post & Hl & Hok & Hy & Hst).
        exists (x :: pre), y, post. subst l. repeat split; trivial.
        -- constructor; [rewrite E; reflexivity | exact Hok].
        -- rewrite Hst, extend_assoc. cbn [app].
           rewrite (accumulate_cons body x (pre ++ [y])), E. reflexivity.
      * destruct IH as (Hok & Hst). split.
        -- constructor; [rewrite E; reflexivity | exact Hok].
        -- rewrite Hst, extend_assoc, accumulate_cons, E. reflexivity.
Qed.

(** ** One (query, page) pair *)

Section Pair.

Context {F : Fuzz}.

(** [process_query] read off as a function of the starting state. *)
Lemma process_query_eq (threshold : Q) (page_num : nat) (words : list word)
    (query_item : dict) (st : state) :
  process_query threshold page_num words query_item st =
  match item_text query_item with
  | inl e => (inl e, st)
  | inr quote_v =>
      match clean_quote quote_v with
      | inl e => (inl e, st)
      | inr (quote, quote_clean) =>
          if length quote_clean <? 5 then (inr tt, st)
          else if Qle_bool threshold
                    (partial_ratio (lower quote_clean)
                                   (lower (page_text words)))
          then
            let scan := scan_windows words quote_clean in
            let logged := ratio_calls st ++ windows_seen scan in
            if Qle_bool threshold (best_window_score scan) then
              match best_window_indices scan with
              | None =>
                  (inl unpack_error, mk_state (annotations st) logged)
              | Some (start_idx, end_idx) =>
                  (inr tt,
                   mk_state
                     (annotations st ++
                      map (annotation_of page_num (item_color query_item)
                                         quote)
                          (slice words start_idx end_idx))
                     logged)
              end
            else (inr tt, mk_state (annotations st) logged)
          else (inr tt, st)
      end
  end.
Proof.
  unfold process_query, bind, lift.
  destruct (item_text query_item) as [e|quote_v]; [reflexivity|].
  destruct (clean_quote quote_v) as [e|[quote quote_clean]]; [reflexivity|].
  destruct (length quote_clean <? 5); [reflexivity|].
  destruct (Qle_bool threshold _); [|reflexivity].
  cbv zeta. unfold log_ratio_calls at 1.
  destruct (Qle_bool threshold _); [|reflexivity].
  destruct (best_window_indices _) as [[s e]|]; [|reflexivity].
  cbn [unpack]. rewrite for_each_append. reflexivity.
Qed.

Lemma process_query_appending (threshold : Q) (page_num : nat)
    (words : list word) (query_item : dict) :
  appending (process_query threshold page_num words query_item).
Proof.
  intro st. rewrite !process_query_eq.
  destruct (item_text query_item) as [e|quote_v];
    [cbn; rewrite extend_empty; reflexivity|].
  destruct (clean_quote quote_v) as [e|[quote quote_clean]];
    [cbn; rewrite extend_empty; reflexivity|].
  destruct (length quote_clean <? 5);
    [cbn; rewrite extend_empty; reflexivity|].
  destruct (Qle_bool threshold _);
    [|cbn; rewrite extend_empty; reflexivity].
  cbv zeta.
  destruct (Qle_bool threshold _);
    [|unfold extend; cbn; rewrite app_nil_r; reflexivity].
  destruct (best_window_indices _) as [[s e]|];
    unfold extend; cbn; rewrite ?app_nil_r; reflexivity.
Qed.

(** What a pair adds to [annotations]: nothing, or the annotations of the
    words of its accepted match. *)
Lemma pair_annotations_cases (threshold : Q) (page_num : nat)
    (words : list word) (query_item : dict) :
  pair_annotations threshold (page_num, words, query_item) = []
  \/ exists quote start_idx end_idx,
       item_text query_item = inr (PStr quote)
       /\ 5 <= length (strip (re_sub_ws quote))
       /\ accepted_match threshold words (strip (re_sub_ws quote))
          = Some (start_idx, end_idx)
       /\ pair_annotations threshold (page_num, words, query_item)
          = map (annotation_of page_num (item_color query_item) quote)
                (slice words start_idx end_idx).
Proof.
  unfold pair_annotations, run_pair, accepted_match. cbn [fst snd].
  rewrite process_query_eq.
  destruct (item_text query_item) as [e|quote_v]; [left; reflexivity|].
  destruct quote_v as [quote| |]; cbn [clean_quote];
    try (left; reflexivity).
  destruct (length (strip (re_sub_ws quote)) <? 5) eqn:L;
    [left; reflexivity|].
  apply Nat.ltb_ge in L.
  set (quote_clean := strip (re_sub_ws quote)) in *.
  destruct (Qle_bool threshold
              (partial_ratio (lower quote_clean) (lower (page_text words))))
    eqn:E1; [|left; reflexivity].
  cbv zeta.
  destruct (Qle_bool threshold
              (best_window_score (scan_windows words quote_clean)))
    eqn:E2; [|left; reflexivity].
  destruct (best_window_indices (scan_windows words quote_clean))
    as [[s e]|] eqn:E3; [|left; reflexivity].
  right. exists quote, s, e. repeat split; trivial.
  fold quote_clean. rewrite E1, E2. exact E3.
Qed.

(** A pair that raises has appended nothing. *)
Lemma failing_pair_appends_nothing (threshold : Q)
    (p : nat * list word * dict) (e : exn) :
  fst (run_pair threshold p) = inl e -> pair_annotations threshold p = [].
Proof.
  unfold pair_annotations, run_pair. rewrite process_query_eq.
  destruct (item_text (snd p)) as [e'|quote_v]; [reflexivity|].
  destruct (clean_quote quote_v) as [e'|[quote quote_clean]]; [reflexivity|].
  destruct (length quote_clean <? 5); [reflexivity|].
  destruct (Qle_bool threshold _); [|reflexivity].
  cbv zeta. destruct (Qle_bool threshold _); [|reflexivity].
  destruct (best_window_indices _) as [[s e']|]; [|reflexivity].
  cbn. discriminate.
Qed.

Context {P : Fitz}.

(** The two nested loops are one loop over [pairs]. *)
Lemma try_body_pairs (threshold : Q) (pdf_bytes : list Byte.byte)
    (doc : document) (normalized_queries : list dict) (st : state) :
  fitz_open pdf_bytes = inr doc ->
  try_body threshold pdf_bytes normalized_queries st =
  for_each (pairs doc normalized_queries)
    (fun p => process_query threshold (fst (fst p)) (snd (fst p)) (snd p)) st.
Proof.
  intro Hopen. unfold try_body, bind, lift. rewrite Hopen.
  unfold pairs. rewrite for_each_flat_map.
  apply for_each_ext. intros [page_num words] st'.
  rewrite for_each_map. reflexivity.
Qed.

(** What a call returns when the document opens: the annotations of the
    pairs up to the first one that raises, or of all of them. *)
Lemma find_text_fuzzy_opened (threshold : Q) (pdf_bytes : list Byte.byte)
    (doc : document) (text_quotes : list raw_query) :
  fitz_open pdf_bytes = inr doc ->
  let all := pairs doc (normalize_queries text_quotes) in
  let out := find_text_fuzzy pdf_bytes text_quotes threshold in
  (warnings out = []
   /\ Forall (fun p => fst (run_pair threshold p) = inr tt) all
   /\ returned out = flat_map (pair_annotations threshold) all)
  \/ (exists e pre p post,
        warnings out = [e]
        /\ all = pre ++ p :: post
        /\ Forall (fun p' => fst (run_pair threshold p') = inr tt) pre
        /\ fst (run_pair threshold p) = inl e
        /\ returned out = flat_map (pair_annotations threshold) pre).
Proof.
  intro Hopen. cbv zeta. unfold find_text_fuzzy.
  rewrite try_body_pairs with (doc := doc) by exact Hopen.
  set (body := fun p : nat * list word * dict =>
                 process_query threshold (fst (fst p)) (snd (fst p)) (snd p)).
  pose proof (for_each_appending body
                (pairs doc (normalize_queries text_quotes)) (mk_state [] [])
                (fun p => process_query_appending _ _ _ _)) as H.
  destruct (for_each (pairs doc (normalize_queries text_quotes)) body
              (mk_state [] [])) as [[e|u] st'].
  - right. destruct H as (pre & p & post & Hl & Hok & Hp & Hst).
    exists e, pre, p, post. cbn [warnings returned]. repeat split; trivial.
    rewrite Hst, extend_empty_l, accumulate_annotations, flat_map_app.
    cbn [flat_map].
    change (annotations (snd (body p (mk_state [] []))))
      with (pair_annotations threshold p).
    rewrite (failing_pair_appends_nothing _ _ _ Hp), !app_nil_r.
    reflexivity.
  - left. destruct H as (Hok & Hst). cbn [warnings returned].
    repeat split; trivial.
    rewrite Hst, extend_empty_l, accumulate_annotations. reflexivity.
Qed.

End Pair.

(** * Main theorems *)

Section WindowAligner.

Context {F : Fuzz}.

Lemma accepted_match_inv (threshold : Q) (words : list word)
    (quote_clean : str) (m : nat * nat) :
  accepted_match threshold words quote_clean = Some m ->
  Qle_bool threshold
    (partial_ratio (lower quote_clean) (lower (page_text words))) = true
  /\ Qle_bool threshold
       (best_window_score (scan_windows words quote_clean)) = true
  /\ best_window_indices (scan_windows words quote_clean) = Some m.
Proof.
  unfold accepted_match.
  destruct (Qle_bool threshold (partial_ratio _ _)); [|discriminate].
  cbv zeta.
  destruct (Qle_bool threshold (best_window_score _)); [|discriminate].
  auto.
Qed.

(** C2. When several scored windows reach the maximum score, the emitted
    match is the one with the lexicographically smallest (start index,
    window size): it was scored, no scored window has a higher score, and
    every scored window with the same score comes at or after it in the
    ascending-start, ascending-size scan order. *)
Theorem tie_break_first_maximum (threshold : Q) (words : list word)
    (quote_clean : str) (start_idx end_idx : nat) :
  accepted_match threshold words quote_clean = Some (start_idx, end_idx) ->
  let scan := scan_windows words quote_clean in
  exists window_size,
    end_idx = start_idx + window_size
    /\ In (start_idx, window_size) (windows_seen scan)
    /\ window_score words quote_clean (start_idx, window_size)
       = best_window_score scan
    /\ (forall w, In w (windows_seen scan) ->
          (window_score words quote_clean w <= best_window_score scan)%Q)
    /\ (forall w, In w (windows_seen scan) ->
          (window_score words quote_clean w == best_window_score scan)%Q ->
          lex_le (start_idx, window_size) w).
Proof.
  intros Hm scan. apply accepted_match_inv in Hm.
  destruct Hm as (_ & _ & Hi).
  destruct (scan_windows_first_max words quote_clean _ _ Hi)
    as (k & He & Hin & Hb & _ & Hmax & Hfirst).
  exists k. fold scan in Hin, Hb, Hmax, Hfirst.
  repeat split; auto.
  intros [i k'] Hw Heq.
  assert (Hn : ~ lex_lt (i, k') (start_idx, k)).
  { intro Hlt. specialize (Hfirst _ Hw Hlt). rewrite Heq in Hfirst.
    exact (Qlt_irrefl _ Hfirst). }
  unfold lex_lt, lex_le in *. cbn [fst snd] in *. lia.
Qed.

(** C10. With a threshold above 0, a best window score that passes the
    acceptance test was set together with the indices of a window, so the
    unpacking at line 101 succeeds. *)
Theorem accepted_score_has_indices (threshold : Q) (words : list word)
    (quote_clean : str) :
  (0 < threshold)%Q ->
  Qle_bool threshold (best_window_score (scan_windows words quote_clean))
    = true ->
  exists start_idx end_idx,
    best_window_indices (scan_windows words quote_clean)
      = Some (start_idx, end_idx)
    /\ unpack (best_window_indices (scan_windows words quote_clean))
       = inr (start_idx, end_idx).
Proof.
  intros Hpos Hacc. apply Qle_bool_iff in Hacc.
  destruct (best_window_indices (scan_windows words quote_clean))
    as [[s e]|] eqn:Hi.
  - exists s, e. split; reflexivity.
  - exfalso.
    rewrite (proj1 (scan_windows_none words quote_clean Hi)) in Hacc. lra.
Qed.

(** A match accepted at [t] is accepted, unchanged, at every [t' <= t]. *)
Lemma accepted_match_lower (t t' : Q) (words : list word) (quote_clean : str)
    (m : nat * nat) :
  (t' <= t)%Q ->
  accepted_match t words quote_clean = Some m ->
  accepted_match t' words quote_clean = Some m.
Proof.
  intros Hle Hm. apply accepted_match_inv in Hm.
  destruct Hm as (H1 & H2 & H3). unfold accepted_match.
  apply Qle_bool_iff in H1, H2.
  replace (Qle_bool t' (partial_ratio (lower quote_clean)
                          (lower (page_text words)))) with true
    by (symmetry; apply Qle_bool_iff; lra).
  cbv zeta.
  replace (Qle_bool t' (best_window_score (scan_windows words quote_clean)))
    with true by (symmetry; apply Qle_bool_iff; lra).
  exact H3.
Qed.

(** C3. When the [partial_ratio] of the lower-cased cleaned quote against
    the lower-cased page text (the word texts joined by single spaces, in
    order) is below the threshold, the pair leaves the state as it found it:
    no window is scored, no annotation is appended, nothing is raised, and no
    match is accepted. *)
Theorem prefilter_skips_pair (threshold : Q) (page_num : nat)
    (words : list word) (query_item : dict) (quote : str) (st : state) :
  item_text query_item = inr (PStr quote) ->
  (partial_ratio (lower (strip (re_sub_ws quote)))
                 (lower (join (map w_text words))) < threshold)%Q ->
  process_query threshold page_num words query_item st = (inr tt, st)
  /\ accepted_match threshold words (strip (re_sub_ws quote)) = None.
Proof.
  intros Ht Hlow. apply Qle_bool_false in Hlow.
  rewrite process_query_eq, Ht. cbn [clean_quote].
  unfold accepted_match, page_text. rewrite Hlow.
  destruct (length (strip (re_sub_ws quote)) <? 5); split; reflexivity.
Qed.

(** C4. For a pair that passes the prefilter, with [Q] the number of
    whitespace-delimited tokens of the cleaned quote, the windows whose
    score is computed are, each once, exactly the [(i, k)] with
    [0 <= i < numWords], [max(1, Q-2) <= k <= Q+4] and [i + k <= numWords]. *)
Theorem scans_exactly_the_fitting_windows (threshold : Q) (page_num : nat)
    (words : list word) (query_item : dict) (quote : str) (st : state) :
  item_text query_item = inr (PStr quote) ->
  5 <= length (strip (re_sub_ws quote)) ->
  Qle_bool threshold
    (partial_ratio (lower (strip (re_sub_ws quote)))
                   (lower (page_text words))) = true ->
  let Qn := Z.of_nat (length (split (strip (re_sub_ws quote)))) in
  exists evaluated,
    ratio_calls (snd (process_query threshold page_num words query_item st))
      = ratio_calls st ++ evaluated
    /\ NoDup evaluated
    /\ forall i k,
         In (i, k) evaluated <->
         (i < length words
          /\ (Z.max 1 (Qn - 2) <= Z.of_nat k <= Qn + 4)%Z
          /\ i + k <= length words).
Proof.
  intros Ht Hlen Hpass Qn.
  exists (scanned_windows (length words)
            (length (split (strip (re_sub_ws quote))))).
  split; [|split].
  - rewrite process_query_eq, Ht. cbn [clean_quote].
    apply Nat.ltb_ge in Hlen. rewrite Hlen, Hpass. cbv zeta.
    rewrite scan_windows_seen.
    destruct (Qle_bool threshold (best_window_score _)); [|reflexivity].
    destruct (best_window_indices _) as [[s e]|]; reflexivity.
  - apply sorted_NoDup, scanned_windows_sorted.
  - intros i k. rewrite in_scanned_windows. subst Qn. lia.
Qed.

End WindowAligner.

Section Emitter.

Context {F : Fuzz} {P : Fitz}.

Lemma in_pairs (doc : document) (normalized_queries : list dict)
    (p : nat * list word * dict) :
  In p (pairs doc normalized_queries) -> In (snd p) normalized_queries.
Proof.
  unfold pairs. intro H. apply in_flat_map in H.
  destruct H as (pw & _ & H). apply in_map_iff in H.
  destruct H as (q & <- & Hq). exact Hq.
Qed.

Lemma find_text_fuzzy_unopened (threshold : Q) (pdf_bytes : list Byte.byte)
    (text_quotes : list raw_query) (e : exn) :
  fitz_open pdf_bytes = inl e ->
  find_text_fuzzy pdf_bytes text_quotes threshold = mk_outcome [] [e] [].
Proof.
  intro H. unfold find_text_fuzzy, try_body, bind, lift. rewrite H.
  reflexivity.
Qed.

(** Every returned annotation was appended by some (page, query) pair. *)
Lemma returned_from_pairs (threshold : Q) (pdf_bytes : list Byte.byte)
    (text_quotes : list raw_query) (a : annotation) :
  In a (returned (find_text_fuzzy pdf_bytes text_quotes threshold)) ->
  exists p,
    In (snd p) (normalize_queries text_quotes)
    /\ In a (pair_annotations threshold p).
Proof.
  destruct (fitz_open pdf_bytes) as [e|doc] eqn:Hopen.
  - rewrite (find_text_fuzzy_unopened threshold _ text_quotes _ Hopen).
    intros [].
  - destruct (find_text_fuzzy_opened threshold _ _ text_quotes Hopen)
      as [(_ & _ & Hr)|(e & pre & p & post & _ & Hl & _ & _ & Hr)];
      rewrite Hr; intro Ha; apply in_flat_map in Ha;
      destruct Ha as (p' & Hp' & Ha); exists p'; split; trivial;
      apply (in_pairs doc).
    + exact Hp'.
    + rewrite Hl. apply in_or_app. left. exact Hp'.
Qed.



Lemma length_slice {A} (l : list A) (i j : nat) :
  j <= length l -> length (slice l i j) = j - i.
Proof.
  intro H. unfold slice. rewrite length_firstn, length_skipn. lia.
Qed.


(** C7. A query whose cleaned text has fewer than 5 characters is skipped
    on every page without raising, leaving the state as it was, and no
    returned annotation of any document carries its text. *)
Theorem short_query_emits_nothing (quote : str) :
  length (strip (re_sub_ws quote)) < 5 ->
  (forall threshold page_num words query_item st,
      item_text query_item = inr (PStr quote) ->
      process_query threshold page_num words query_item st = (inr tt, st))
  /\ (forall pdf_bytes text_quotes threshold a,
         In a (returned (find_text_fuzzy pdf_bytes text_quotes threshold)) ->
         a_quote a <> quote).
Proof.
  intro Hshort. split.
  - intros threshold page_num words query_item st Ht.
    rewrite process_query_eq, Ht. cbn [clean_quote].
    apply Nat.ltb_lt in Hshort. rewrite Hshort. reflexivity.
  - intros pdf_bytes text_quotes threshold a Ha Heq.
    apply returned_from_pairs in Ha. destruct Ha as ([[pn ws] d] & _ & Ha).
    destruct (pair_annotations_cases threshold pn ws d)
      as [Hnil|(quote' & s & e & _ & Hlen & _ & Hann)].
    + rewrite Hnil in Ha. destruct Ha.
    + rewrite Hann in Ha. apply in_map_iff in Ha.
      destruct Ha as (w & <- & _). cbn [annotation_of a_quote] in Heq.
      subst quote'. lia.
Qed.

(** C6. When the document cannot be opened the call returns the empty list
    and shows one warning, the exception itself; in the loop over the
    uploaded files the other files get the outcomes they would get without
    it. *)
Theorem unreadable_document_is_recovered (pdf_bytes : list Byte.byte)
    (e : exn) :
  fitz_open pdf_bytes = inl e ->
  (forall text_quotes threshold,
      returned (find_text_fuzzy pdf_bytes text_quotes threshold) = []
      /\ warnings (find_text_fuzzy pdf_bytes text_quotes threshold) = [e])
  /\ (forall before after evidence_items,
         annotate_files (before ++ pdf_bytes :: after) evidence_items =
         annotate_files before evidence_items
         ++ mk_outcome [] [e] [] :: annotate_files after evidence_items).
Proof.
  intro Hopen. split.
  - intros text_quotes threshold.
    rewrite (find_text_fuzzy_unopened threshold _ text_quotes _ Hopen).
    split; reflexivity.
  - intros before after evidence_items. unfold annotate_files.
    rewrite map_app. cbn [map].
    rewrite (find_text_fuzzy_unopened default_threshold _ evidence_items _
               Hopen).
    reflexivity.
Qed.

(** C9. When a pair raises after the document was opened, the call shows
    the exception as its one warning and returns the annotations appended by
    the pairs before it, in order: a prefix of what all the pairs append when
    each is run on its own. *)
Theorem error_keeps_accumulated_annotations (threshold : Q)
    (pdf_bytes : list Byte.byte) (doc : document)
    (text_quotes : list raw_query) (e : exn) :
  fitz_open pdf_bytes = inr doc ->
  In e (warnings (find_text_fuzzy pdf_bytes text_quotes threshold)) ->
  let all := pairs doc (normalize_queries text_quotes) in
  let out := find_text_fuzzy pdf_bytes text_quotes threshold in
  exists pre p post,
    all = pre ++ p :: post
    /\ Forall (fun p' => fst (run_pair threshold p') = inr tt) pre
    /\ fst (run_pair threshold p) = inl e
    /\ warnings out = [e]
    /\ returned out = flat_map (pair_annotations threshold) pre
    /\ exists rest,
         flat_map (pair_annotations threshold) all = returned out ++ rest.
Proof.
  intros Hopen He. cbv zeta.
  destruct (find_text_fuzzy_opened threshold _ _ text_quotes Hopen)
    as [(Hw & _)|(e' & pre & p & post & Hw & Hl & Hok & Hp & Hr)].
  - rewrite Hw in He. destruct He.
  - rewrite Hw in He. destruct He as [<-|[]].
    exists pre, p, post. repeat split; trivial.
    exists (flat_map (pair_annotations threshold) (p :: post)).
    rewrite Hl, Hr. apply flat_map_app.
Qed.

Lemma subsequence_refl {A} (l : list A) : subsequence l l.
Proof. induction l; constructor; assumption. Qed.

Lemma subsequence_nil_l {A} (l : list A) : subsequence [] l.
Proof. induction l; constructor; assumption. Qed.

Lemma subsequence_app {A} (l1 l2 l3 l4 : list A) :
  subsequence l1 l2 -> subsequence l3 l4 ->
  subsequence (l1 ++ l3) (l2 ++ l4).
Proof.
  intros H12 H34. induction H12; cbn [app].
  - exact H34.
  - constructor. exact IHsubsequence.
  - constructor. exact IHsubsequence.
Qed.

Lemma subsequence_app_r {A} (l1 l2 l : list A) :
  subsequence l1 l2 -> subsequence l1 (l2 ++ l).
Proof.
  intro H. rewrite <- (app_nil_r l1).
  apply subsequence_app; [exact H | apply subsequence_nil_l].
Qed.

Lemma subsequence_In {A} (l1 l2 : list A) (x : A) :
  subsequence l1 l2 -> In x l1 -> In x l2.
Proof.
  intro H. induction H; cbn [In]; intuition.
Qed.

(** One pair at two thresholds, the lower one above 0: both runs end the
    same way (an exception can only come from lines 61 and 65, which do not
    read the threshold, since above 0 the unpacking of line 101 succeeds),
    and what the higher threshold has appended stays a subsequence of what
    the lower one has. *)
Lemma process_query_lower (t t' : Q) (page_num : nat) (words : list word)
    (query_item : dict) (st st' : state) :
  (0 < t')%Q -> (t' <= t)%Q ->
  subsequence (annotations st) (annotations st') ->
  fst (process_query t page_num words query_item st)
  = fst (process_query t' page_num words query_item st')
  /\ subsequence
       (annotations (snd (process_query t page_num words query_item st)))
       (annotations (snd (process_query t' page_num words query_item st'))).
Proof.
  intros Hpos Hle Hsub. rewrite !process_query_eq.
  destruct (item_text query_item) as [e|quote_v];
    [split; [reflexivity | exact Hsub]|].
  destruct (clean_quote quote_v) as [e|[quote quote_clean]];
    [split; [reflexivity | exact Hsub]|].
  destruct (length quote_clean <? 5); [split; [reflexivity | exact Hsub]|].
  set (score := partial_ratio (lower quote_clean) (lower (page_text words))).
  set (scan := scan_windows words quote_clean).
  cbv zeta.
  assert (Hidx : forall u, (0 < u)%Q ->
            Qle_bool u (best_window_score scan) = true ->
            exists m, best_window_indices scan = Some m).
  { intros u Hu Hb. apply Qle_bool_iff in Hb.
    destruct (best_window_indices scan) as [m|] eqn:Hi;
      [exists m; reflexivity|].
    exfalso. subst scan.
    rewrite (proj1 (scan_windows_none words quote_clean Hi)) in Hb. lra. }
  assert (Hlow : forall x, Qle_bool t x = true -> Qle_bool t' x = true).
  { intros x Hx. apply Qle_bool_iff in Hx. apply Qle_bool_iff. lra. }
  assert (Hpos_t : (0 < t)%Q) by lra.
  destruct (Qle_bool t score) eqn:E1.
  - rewrite (Hlow _ E1).
    destruct (Qle_bool t (best_window_score scan)) eqn:E2.
    + rewrite (Hlow _ E2).
      destruct (Hidx t Hpos_t E2) as ([s e] & ->). cbn [fst snd annotations].
      split; [reflexivity|].
      apply subsequence_app; [exact Hsub | apply subsequence_refl].
    + destruct (Qle_bool t' (best_window_score scan)) eqn:E2'.
      * destruct (Hidx t' Hpos E2') as ([s e] & ->).
        cbn [fst snd annotations].
        split; [reflexivity|]. apply subsequence_app_r. exact Hsub.
      * cbn [fst snd annotations]. split; [reflexivity | exact Hsub].
  - destruct (Qle_bool t' score) eqn:E1'.
    + destruct (Qle_bool t' (best_window_score scan)) eqn:E2'.
      * destruct (Hidx t' Hpos E2') as ([s e] & ->).
        cbn [fst snd annotations].
        split; [reflexivity|]. apply subsequence_app_r. exact Hsub.
      * cbn [fst snd annotations]. split; [reflexivity | exact Hsub].
    + split; [reflexivity | exact Hsub].
Qed.

(** The same for the loop over the pairs. *)
Lemma for_each_lower (t t' : Q) (l : list (nat * list word * dict))
    (st st' : state) :
  (0 < t')%Q -> (t' <= t)%Q ->
  subsequence (annotations st) (annotations st') ->
  let body := fun u (p : nat * list word * dict) =>
                process_query u (fst (fst p)) (snd (fst p)) (snd p) in
  fst (for_each l (body t) st) = fst (for_each l (body t') st')
  /\ subsequence (annotations (snd (for_each l (body t) st)))
                 (annotations (snd (for_each l (body t') st'))).
Proof.
  intros Hpos Hle. cbv zeta. revert st st'.
  induction l as [|p l IH]; intros st st' Hsub.
  - cbn. split; [reflexivity | exact Hsub].
  - cbn [for_each]. unfold bind.
    destruct (process_query_lower t t' (fst (fst p)) (snd (fst p)) (snd p)
                st st' Hpos Hle Hsub) as (Hr & Hs).
    destruct (process_query t (fst (fst p)) (snd (fst p)) (snd p) st)
      as [[e|u] s1];
      destruct (process_query t' (fst (fst p)) (snd (fst p)) (snd p) st')
        as [[e'|u'] s1']; cbn [fst snd] in Hr, Hs; try discriminate.
    + cbn [fst snd]. split; [exact Hr | exact Hs].
    + apply IH. exact Hs.
Qed.

(** C8. The matches are antitone in the threshold. For one (query, page)
    pair, a match accepted at [t] is accepted, unchanged, at every
    [t' <= t]. For a run of the engine on a document and a list of queries,
    when the lower threshold [t'] is above 0: the run at [t'] shows the same
    warnings as the run at [t], and the annotations returned at [t] are a
    subsequence of those returned at [t'], so each of them is returned at
    [t']; read the other way, raising the threshold adds none. *)
Theorem threshold_antitone (t t' : Q) :
  (t' <= t)%Q ->
  (forall words quote_clean m,
      accepted_match t words quote_clean = Some m ->
      accepted_match t' words quote_clean = Some m)
  /\ ((0 < t')%Q ->
      forall pdf_bytes text_quotes,
        let high := find_text_fuzzy pdf_bytes text_quotes t in
        let low := find_text_fuzzy pdf_bytes text_quotes t' in
        warnings high = warnings low
        /\ subsequence (returned high) (returned low)
        /\ (forall a, In a (returned high) -> In a (returned low))).
Proof.
  intro Hle. split.
  - intros words quote_clean m. apply accepted_match_lower. exact Hle.
  - intros Hpos pdf_bytes text_quotes. cbv zeta.
    assert (H : warnings (find_text_fuzzy pdf_bytes text_quotes t)
                = warnings (find_text_fuzzy pdf_bytes text_quotes t')
                /\ subsequence
                     (returned (find_text_fuzzy pdf_bytes text_quotes t))
                     (returned (find_text_fuzzy pdf_bytes text_quotes t'))).
    { destruct (fitz_open pdf_bytes) as [e|doc] eqn:Hopen.
      - rewrite !(find_text_fuzzy_unopened _ _ text_quotes _ Hopen).
        split; [reflexivity | constructor].
      - unfold find_text_fuzzy.
        rewrite !(try_body_pairs _ _ doc _ _ Hopen).
        destruct (for_each_lower t t'
                    (pairs doc (normalize_queries text_quotes))
                    (mk_state [] []) (mk_state [] []) Hpos Hle
                    (subsequence_refl _)) as (Hr & Hs).
        cbv zeta in Hr, Hs.
        destruct (for_each _ _ _) as [[e|u] s1];
          destruct (for_each _ _ _) as [[e'|u'] s1'];
          cbn [fst snd] in Hr, Hs; try discriminate;
          cbn [warnings returned]; split; trivial.
        inversion Hr. reflexivity. }
    destruct H as (Hw & Hs). repeat split; trivial.
    intros a. apply subsequence_In. exact Hs.
Qed.

End Emitter.

(** ** Word-aligned occurrences *)

Lemma join_app (l1 l2 : list str) :
  l1 <> [] -> l2 <> [] -> join (l1 ++ l2) = join l1 ++ space :: join l2.
Proof.
  intros H1 H2. induction l1 as [|w l1 IH]; [congruence|].
  destruct l1 as [|w' l1].
  - cbn [app join]. destruct l2; [congruence | reflexivity].
  - change (join ((w :: w' :: l1) ++ l2))
      with (w ++ space :: join ((w' :: l1) ++ l2)).
    rewrite IH by discriminate.
    change (join (w :: w' :: l1)) with (w ++ space :: join (w' :: l1)).
    rewrite <- app_assoc. reflexivity.
Qed.

(** The text of a run of words occurs in the text of the whole list. *)
Lemma join_middle (l1 l2 l3 : list str) :
  exists pre post, join (l1 ++ l2 ++ l3) = pre ++ join l2 ++ post.
Proof.
  destruct l2 as [|w2 l2].
  - exists (join (l1 ++ l3)), []. cbn [app join]. rewrite app_nil_r.
    reflexivity.
  - set (m := w2 :: l2). assert (Hm : m <> []) by discriminate.
    destruct l1 as [|w1 l1], l3 as [|w3 l3].
    + exists [], []. cbn [app]. rewrite !app_nil_r. reflexivity.
    + exists [], (space :: join (w3 :: l3)). cbn [app].
      apply join_app; [exact Hm | discriminate].
    + exists (join (w1 :: l1) ++ [space]), []. rewrite !app_nil_r.
      rewrite join_app by (exact Hm || discriminate).
      rewrite <- app_assoc. reflexivity.
    + exists (join (w1 :: l1) ++ [space]), (space :: join (w3 :: l3)).
      rewrite join_app
        by (discriminate || (unfold m; cbn [app]; discriminate)).
      rewrite (join_app m (w3 :: l3)) by (exact Hm || discriminate).
      rewrite <- app_assoc. reflexivity.
Qed.

Lemma slice_decompose {A} (l : list A) (i k : nat) :
  l = firstn i l ++ slice l i (i + k) ++ skipn k (skipn i l).
Proof.
  unfold slice. replace (i + k - i) with k by lia.
  rewrite (firstn_skipn k), (firstn_skipn i). reflexivity.
Qed.

Lemma window_text_occurs (words : list word) (i k : nat) :
  exists pre post,
    page_text words = pre ++ window_text words i k ++ post.
Proof.
  unfold page_text, window_text.
  destruct (join_middle (map w_text (firstn i words))
              (map w_text (slice words i (i + k)))
              (map w_text (skipn k (skipn i words)))) as (pre & post & H).
  exists pre, post. rewrite <- H, <- !map_app, <- slice_decompose.
  reflexivity.
Qed.

Lemma is_space_lower_char (c : ascii) :
  is_space (lower_char c) = is_space c.
Proof.
  destruct c as [[|] [|] [|] [|] [|] [|] [|] [|]]; reflexivity.
Qed.

Lemma rev_lower (s : str) : rev (lower s) = lower (rev s).
Proof. unfold lower. symmetry. apply map_rev. Qed.

Lemma split_from_lower (cur s : str) :
  split_from (lower cur) (lower s) = map lower (split_from cur s).
Proof.
  revert cur. induction s as [|c s IH]; intro cur; cbn [lower map split_from].
  - rewrite rev_lower. destruct cur; reflexivity.
  - rewrite is_space_lower_char. destruct (is_space c).
    + rewrite rev_lower. destruct cur as [|d cur].
      * apply (IH []).
      * change (lower (d :: cur)) with (lower_char d :: lower cur).
        cbv iota. cbn [map]. f_equal. apply (IH []).
    + apply (IH (c :: cur)).
Qed.

Lemma split_lower (s : str) : length (split (lower s)) = length (split s).
Proof.
  unfold split. change (@nil ascii) with (lower []) at 1.
  rewrite split_from_lower. apply length_map.
Qed.

Lemma split_from_word (cur w rest : str) :
  forallb (fun c => negb (is_space c)) w = true ->
  split_from cur (w ++ rest) = split_from (rev w ++ cur) rest.
Proof.
  revert cur. induction w as [|c w IH]; intros cur H; [reflexivity|].
  cbn [forallb] in H. apply andb_true_iff in H. destruct H as (Hc & Hw).
  apply negb_true_iff in Hc. cbn [app split_from]. rewrite Hc.
  rewrite (IH (c :: cur) Hw). cbn [rev]. rewrite <- app_assoc. reflexivity.
Qed.

(** Splitting the join of whitespace-free, non-empty words gives them back. *)
Lemma split_join (ws : list str) :
  forallb word_like ws = true -> split (join ws) = ws.
Proof.
  unfold split. induction ws as [|w ws IH]; intro H; [reflexivity|].
  cbn [forallb] in H. apply andb_true_iff in H. destruct H as (Hw & Hws).
  assert (Hne : w <> [] /\ forallb (fun c => negb (is_space c)) w = true).
  { destruct w; [discriminate|]. split; [discriminate | exact Hw]. }
  destruct Hne as (Hne & Hfree).
  assert (Hrev : rev w <> []).
  { intro E. apply Hne. rewrite <- (rev_involutive w), E. reflexivity. }
  destruct ws as [|w' ws].
  - cbn [join]. rewrite <- (app_nil_r w) at 1.
    rewrite split_from_word by exact Hfree. rewrite app_nil_r.
    cbn [split_from]. destruct (rev w) eqn:E; [congruence|].
    rewrite <- E, rev_involutive. reflexivity.
  - change (join (w :: w' :: ws)) with (w ++ space :: join (w' :: ws)).
    rewrite split_from_word by exact Hfree. rewrite app_nil_r.
    cbn [split_from]. change (is_space space) with true. cbv iota.
    destruct (rev w) eqn:E; [congruence|].
    rewrite <- E, rev_involutive, (IH Hws). reflexivity.
Qed.

Lemma forallb_slice {A} (f : A -> bool) (l : list A) (i j : nat) :
  forallb f l = true -> forallb f (slice l i j) = true.
Proof.
  intro H. unfold slice.
  rewrite <- (firstn_skipn i l), forallb_app in H.
  apply andb_true_iff in H. destruct H as (_ & H).
  rewrite <- (firstn_skipn (j - i) (skipn i l)), forallb_app in H.
  apply andb_true_iff in H. exact (proj1 H).
Qed.

(** On a page of whitespace-free, non-empty words, a run of [k] words whose
    text equals the cleaned quote up to case has as many words as the quote
    has tokens, so its size is among the sizes the scan tries. *)
Lemma aligned_run_is_scanned (words : list word) (quote_clean : str)
    (i k : nat) :
  forallb word_like (map w_text words) = true ->
  i + k <= length words ->
  5 <= length quote_clean ->
  lower quote_clean = lower (window_text words i k) ->
  length (split quote_clean) = k
  /\ In (i, k) (scanned_windows (length words) (length (split quote_clean))).
Proof.
  intros Hw Hfit Hlen Heq.
  assert (Hpos : k <> 0).
  { intro E. rewrite E in Heq. unfold window_text, slice in Heq.
    replace (i + 0 - i) with 0 in Heq by lia. cbn in Heq.
    apply (f_equal (@length ascii)) in Heq. unfold lower in Heq.
    rewrite length_map in Heq. cbn in Heq. lia. }
  assert (Hk : length (split quote_clean) = k).
  { rewrite <- split_lower, Heq, split_lower. unfold window_text.
    rewrite split_join.
    - rewrite length_map, length_slice by lia. lia.
    - unfold slice. rewrite <- firstn_map, <- skipn_map.
      apply (forallb_slice word_like (map w_text words) i (i + k)), Hw. }
  split; [exact Hk|].
  apply in_scanned_windows. rewrite Hk. lia.
Qed.

Section ExactOccurrence.

Context {F : Fuzz} {L : FuzzLaws F}.

(** C1, amended. When the cleaned quote (at least 5 characters) equals,
    up to case, the text of a run of words [i, i+k) of the page whose size
    is one the scan tries ([max(1, Q-2) <= k <= Q+4]), and the threshold is
    at most 100, the pair is accepted with best window score 100, at the
    first span in scan order whose text equals the quote up to case, and the
    words of that span are annotated. *)
Theorem aligned_occurrence_is_matched (threshold : Q) (page_num : nat)
    (words : list word) (query_item : dict) (quote : str) (i k : nat)
    (st : state) :
  item_text query_item = inr (PStr quote) ->
  let quote_clean := strip (re_sub_ws quote) in
  let quote_word_count := length (split quote_clean) in
  5 <= length quote_clean ->
  (threshold <= 100)%Q ->
  i + k <= length words ->
  Nat.max 1 (quote_word_count - 2) <= k <= quote_word_count + 4 ->
  lower quote_clean = lower (window_text words i k) ->
  exists start_idx end_idx,
    accepted_match threshold words quote_clean = Some (start_idx, end_idx)
    /\ (best_window_score (scan_windows words quote_clean) == 100)%Q
    /\ lower (window_text words start_idx (end_idx - start_idx))
       = lower quote_clean
    /\ lex_le (start_idx, end_idx - start_idx) (i, k)
    /\ process_query threshold page_num words query_item st =
       (inr tt,
        mk_state
          (annotations st ++
           map (annotation_of page_num (item_color query_item) quote)
               (slice words start_idx end_idx))
          (ratio_calls st ++
           scanned_windows (length words) quote_word_count)).
Proof.
  intros Ht quote_clean quote_word_count Hlen Hthr Hfit Hk Heq.
  assert (Hin : In (i, k) (windows_seen (scan_windows words quote_clean))).
  { rewrite scan_windows_seen. apply in_scanned_windows.
    fold quote_word_count. lia. }
  assert (Hsc : (window_score words quote_clean (i, k) == 100)%Q).
  { unfold window_score. cbn [fst snd]. apply ratio_100_iff. exact Heq. }
  assert (Hpre : (partial_ratio (lower quote_clean)
                    (lower (page_text words)) == 100)%Q).
  { destruct (window_text_occurs words i k) as (pre & post & Hp).
    rewrite Hp. unfold lower at 2. rewrite !map_app. fold (lower pre).
    fold (lower (window_text words i k)). fold (lower post).
    rewrite <- Heq. apply partial_ratio_substring.
    intro Hnil. apply (f_equal (@length ascii)) in Hnil.
    unfold lower in Hnil. rewrite length_map in Hnil. cbn in Hnil. lia. }
  destruct (best_window_indices (scan_windows words quote_clean))
    as [[s e]|] eqn:Hi.
  - destruct (scan_windows_first_max words quote_clean _ _ Hi)
      as (k' & He & Hin' & Hb & _ & Hmax & Hfirst).
    pose proof (Hmax _ Hin) as Hge.
    pose proof (ratio_le_100 (lower quote_clean)
                  (lower (window_text words s k'))) as Hle.
    assert (Hbest : (best_window_score (scan_windows words quote_clean)
                     == 100)%Q).
    { apply Qle_antisym; [|lra]. rewrite Hb. exact Hle. }
    assert (Hk' : e - s = k') by lia.
    exists s, e. rewrite Hk'. split; [|split; [|split; [|split]]].
    + unfold accepted_match.
      replace (Qle_bool threshold
                 (partial_ratio (lower quote_clean)
                    (lower (page_text words)))) with true
        by (symmetry; apply Qle_bool_iff; lra).
      cbv zeta.
      replace (Qle_bool threshold
                 (best_window_score (scan_windows words quote_clean)))
        with true by (symmetry; apply Qle_bool_iff; lra).
      exact Hi.
    + exact Hbest.
    + symmetry. apply ratio_100_iff.
      change (ratio (lower quote_clean) (lower (window_text words s k')))
        with (window_score words quote_clean (s, k')).
      rewrite <- Hb. exact Hbest.
    + assert (Hn : ~ lex_lt (i, k) (s, k')).
      { intro Hlt. specialize (Hfirst _ Hin Hlt). lra. }
      unfold lex_lt, lex_le in *. cbn [fst snd] in *. lia.
    + rewrite process_query_eq, Ht. cbn [clean_quote].
      fold quote_clean. apply Nat.ltb_ge in Hlen. rewrite Hlen.
      replace (Qle_bool threshold
                 (partial_ratio (lower quote_clean)
                    (lower (page_text words)))) with true
        by (symmetry; apply Qle_bool_iff; lra).
      cbv zeta.
      replace (Qle_bool threshold
                 (best_window_score (scan_windows words quote_clean)))
        with true by (symmetry; apply Qle_bool_iff; lra).
      rewrite Hi, scan_windows_seen. reflexivity.
  - exfalso. destruct (scan_windows_none words quote_clean Hi) as (_ & H0).
    specialize (H0 _ Hin). lra.
Qed.

End ExactOccurrence.

(** * Worked instances *)

Module Instances.
Import Sample.

(** Three windows of [tie_page] score 100 for "glucose"; the first one in
    scan order, [(0, 1)], is the match. *)
Lemma tie_break_first_maximum_witness :
  accepted_match 85 tie_page (lit "glucose") = Some (0, 1)
  /\ exists window_size,
       1 = 0 + window_size
       /\ In (0, window_size)
            (windows_seen (scan_windows tie_page (lit "glucose")))
       /\ window_score tie_page (lit "glucose") (0, window_size)
          = best_window_score (scan_windows tie_page (lit "glucose"))
       /\ (forall w,
             In w (windows_seen (scan_windows tie_page (lit "glucose"))) ->
             (window_score tie_page (lit "glucose") w
              <= best_window_score (scan_windows tie_page (lit "glucose")))%Q)
       /\ (forall w,
             In w (windows_seen (scan_windows tie_page (lit "glucose"))) ->
             (window_score tie_page (lit "glucose") w
              == best_window_score (scan_windows tie_page (lit "glucose")))%Q ->
             lex_le (0, window_size) w).
Proof.
  split; [vm_compute; reflexivity|].
  apply (tie_break_first_maximum 85 tie_page (lit "glucose") 0 1).
  vm_compute. reflexivity.
Defined.

Lemma accepted_score_has_indices_witness :
  (0 < 85)%Q
  /\ Qle_bool 85 (best_window_score
                    (scan_windows page1 (lit "liver converts glucose")))
     = true
  /\ exists start_idx end_idx,
       best_window_indices (scan_windows page1 (lit "liver converts glucose"))
         = Some (start_idx, end_idx)
       /\ unpack (best_window_indices
                    (scan_windows page1 (lit "liver converts glucose")))
          = inr (start_idx, end_idx).
Proof.
  split; [vm_compute; reflexivity|].
  split; [vm_compute; reflexivity|].
  apply (accepted_score_has_indices 85 page1 (lit "liver converts glucose"));
    vm_compute; reflexivity.
Defined.

(** At 85 the two-page document gives six annotations for three quotes, at
    50 it gives twelve, the six among them. *)
Lemma threshold_antitone_witness :
  let text_quotes :=
    [evidence "liver converts glucose" orange;
     evidence "glycogen is stored" yellow;
     evidence "the liver makes glycogen" yellow] in
  let high := find_text_fuzzy two_page_pdf text_quotes 85 in
  let low := find_text_fuzzy two_page_pdf text_quotes 50 in
  (50 <= 85)%Q
  /\ (0 < 50)%Q
  /\ accepted_match 85 page1 (lit "liver converts glucose") = Some (1, 4)
  /\ accepted_match 50 page1 (lit "liver converts glucose") = Some (1, 4)
  /\ length (returned high) = 6
  /\ length (returned low) = 12
  /\ warnings high = warnings low
  /\ subsequence (returned high) (returned low)
  /\ (forall a, In a (returned high) -> In a (returned low)).
Proof.
  cbv zeta.
  assert (Hle : (50 <= 85)%Q) by (vm_compute; discriminate).
  assert (Hpos : (0 < 50)%Q) by (vm_compute; reflexivity).
  split; [exact Hle|]. split; [exact Hpos|].
  split; [vm_compute; reflexivity|].
  split; [apply (proj1 (threshold_antitone 85 50 Hle) page1
                   (lit "liver converts glucose") (1, 4));
          vm_compute; reflexivity|].
  split; [vm_compute; reflexivity|].
  split; [vm_compute; reflexivity|].
  apply (proj2 (threshold_antitone 85 50 Hle) Hpos two_page_pdf
           [evidence "liver converts glucose" orange;
            evidence "glycogen is stored" yellow;
            evidence "the liver makes glycogen" yellow]).
Defined.

(** Scenario B: a quote that is nowhere on the page. *)
Lemma prefilter_skips_pair_witness :
  item_text (item "xenon teleportation enzyme" yellow)
    = inr (PStr (lit "xenon teleportation enzyme"))
  /\ (partial_ratio
        (lower (strip (re_sub_ws (lit "xenon teleportation enzyme"))))
        (lower (join (map w_text page1))) < 85)%Q
  /\ process_query 85 0 page1 (item "xenon teleportation enzyme" yellow)
       (mk_state [] [])
     = (inr tt, mk_state [] [])
  /\ accepted_match 85 page1
       (strip (re_sub_ws (lit "xenon teleportation enzyme"))) = None.
Proof.
  split; [vm_compute; reflexivity|].
  split; [vm_compute; reflexivity|].
  apply (prefilter_skips_pair 85 0 page1
           (item "xenon teleportation enzyme" yellow)
           (lit "xenon teleportation enzyme") (mk_state [] []));
    vm_compute; reflexivity.
Defined.

Lemma scans_exactly_the_fitting_windows_witness :
  item_text (item "liver converts glucose" orange)
    = inr (PStr (lit "liver converts glucose"))
  /\ 5 <= length (strip (re_sub_ws (lit "liver converts glucose")))
  /\ Qle_bool 85
       (partial_ratio
          (lower (strip (re_sub_ws (lit "liver converts glucose"))))
          (lower (page_text page1))) = true
  /\ exists evaluated,
       ratio_calls
         (snd (process_query 85 0 page1
                 (item "liver converts glucose" orange) (mk_state [] [])))
       = [] ++ evaluated
       /\ NoDup evaluated
       /\ forall i k,
            In (i, k) evaluated <->
            (i < 7 /\ (Z.max 1 (3 - 2) <= Z.of_nat k <= 3 + 4)%Z
             /\ i + k <= 7).
Proof.
  split; [vm_compute; reflexivity|].
  split; [vm_compute; lia|].
  split; [vm_compute; reflexivity|].
  apply (scans_exactly_the_fitting_windows 85 0 page1
           (item "liver converts glucose" orange)
           (lit "liver converts glucose") (mk_state [] []));
    [vm_compute; reflexivity | vm_compute; lia | vm_compute; reflexivity].
Defined.


Lemma short_query_emits_nothing_witness :
  length (strip (re_sub_ws (lit "  ATP  "))) < 5
  /\ (forall threshold page_num words query_item st,
         item_text query_item = inr (PStr (lit "  ATP  ")) ->
         process_query threshold page_num words query_item st = (inr tt, st))
  /\ (forall pdf_bytes text_quotes threshold a,
         In a (returned (find_text_fuzzy pdf_bytes text_quotes threshold)) ->
         a_quote a <> lit "  ATP  ").
Proof.
  split; [vm_compute; lia|].
  apply (short_query_emits_nothing (lit "  ATP  ")). vm_compute. lia.
Defined.

(** Scenario D: an unreadable file between two readable ones. *)
Lemma unreadable_document_is_recovered_witness :
  fitz_open broken_pdf = inl (FileDataError (lit "Failed to open stream"))
  /\ (forall text_quotes threshold,
         returned (find_text_fuzzy broken_pdf text_quotes threshold) = []
         /\ warnings (find_text_fuzzy broken_pdf text_quotes threshold)
            = [FileDataError (lit "Failed to open stream")])
  /\ (forall before after evidence_items,
         annotate_files (before ++ broken_pdf :: after) evidence_items =
         annotate_files before evidence_items
         ++ mk_outcome [] [FileDataError (lit "Failed to open stream")] []
            :: annotate_files after evidence_items).
Proof.
  split; [reflexivity|].
  apply (unreadable_document_is_recovered broken_pdf
           (FileDataError (lit "Failed to open stream"))).
  reflexivity.
Defined.

(** An evidence entry whose text is [None] stops the run on the first page
    after the three annotations of the entry before it. *)
Lemma error_keeps_accumulated_annotations_witness :
  let text_quotes :=
    [evidence "liver converts glucose" orange; null_evidence;
     evidence "glycogen is stored" yellow] in
  let out := find_text_fuzzy two_page_pdf text_quotes 85 in
  let all := pairs [page1; page2] (normalize_queries text_quotes) in
  fitz_open two_page_pdf = inr [page1; page2]
  /\ In not_a_string (warnings out)
  /\ length (returned out) = 3
  /\ exists pre p post,
       all = pre ++ p :: post
       /\ Forall (fun p' => fst (run_pair 85 p') = inr tt) pre
       /\ fst (run_pair 85 p) = inl not_a_string
       /\ warnings out = [not_a_string]
       /\ returned out = flat_map (pair_annotations 85) pre
       /\ exists rest,
            flat_map (pair_annotations 85) all = returned out ++ rest.
Proof.
  cbv zeta.
  split; [reflexivity|].
  split; [vm_compute; left; reflexivity|].
  split; [vm_compute; reflexivity|].
  apply (error_keeps_accumulated_annotations 85 two_page_pdf [page1; page2]
           [evidence "liver converts glucose" orange; null_evidence;
            evidence "glycogen is stored" yellow] not_a_string);
    [reflexivity | vm_compute; left; reflexivity].
Defined.

(** "Liver Converts GLUCOSE" equals, up to case, the text of
    [words[1:4]]. *)
Lemma aligned_occurrence_is_matched_witness :
  let quote := lit "  Liver   Converts GLUCOSE " in
  let quote_clean := strip (re_sub_ws quote) in
  item_text (item "  Liver   Converts GLUCOSE " orange) = inr (PStr quote)
  /\ 5 <= length quote_clean
  /\ (85 <= 100)%Q
  /\ 1 + 3 <= length page1
  /\ Nat.max 1 (length (split quote_clean) - 2) <= 3
     <= length (split quote_clean) + 4
  /\ lower quote_clean = lower (window_text page1 1 3)
  /\ exists start_idx end_idx,
       accepted_match 85 page1 quote_clean = Some (start_idx, end_idx)
       /\ (best_window_score (scan_windows page1 quote_clean) == 100)%Q
       /\ lower (window_text page1 start_idx (end_idx - start_idx))
          = lower quote_clean
       /\ lex_le (start_idx, end_idx - start_idx) (1, 3)
       /\ process_query 85 0 page1
            (item "  Liver   Converts GLUCOSE " orange) (mk_state [] [])
          = (inr tt,
             mk_state
               ([] ++
                map (annotation_of 0
                       (item_color (item "  Liver   Converts GLUCOSE " orange))
                       quote)
                    (slice page1 start_idx end_idx))
               ([] ++ scanned_windows (length page1)
                        (length (split quote_clean)))).
Proof.
  cbv zeta.
  split; [vm_compute; reflexivity|].
  split; [vm_compute; lia|].
  split; [vm_compute; discriminate|].
  split; [vm_compute; lia|].
  split; [vm_compute; lia|].
  split; [vm_compute; reflexivity|].
  apply (aligned_occurrence_is_matched 85 0 page1
           (item "  Liver   Converts GLUCOSE " orange)
           (lit "  Liver   Converts GLUCOSE ") 1 3 (mk_state [] []));
    [vm_compute; reflexivity | vm_compute; lia | vm_compute; discriminate
    | vm_compute; lia | vm_compute; lia | vm_compute; reflexivity].
Defined.

(** C1 as stated fails: "liver conv" (10 characters) is a substring of the
    text of [page1], the prefilter scores it 100, yet no window of whole
    words scores 100 (the best, "liver converts", scores 2000/24), no match
    is accepted and nothing is returned. *)
Lemma substring_inside_a_word_is_not_matched :
  let quote_clean := strip (re_sub_ws (lit "liver conv")) in
  5 <= length quote_clean
  /\ lower (page_text page1)
     = lower (lit "The ") ++ lower quote_clean
       ++ lower (lit "erts glucose to glycogen .")
  /\ (partial_ratio (lower quote_clean) (lower (page_text page1)) == 100)%Q
  /\ (forall w, In w (windows_seen (scan_windows page1 quote_clean)) ->
        ~ (window_score page1 quote_clean w == 100)%Q)
  /\ best_window_score (scan_windows page1 quote_clean) = (2000 # 24)%Q
  /\ accepted_match 85 page1 quote_clean = None
  /\ returned (find_text_fuzzy one_page_pdf [QStr (lit "liver conv")] 85)
     = [].
Proof.
  cbv zeta.
  split; [vm_compute; lia|].
  split; [vm_compute; reflexivity|].
  split; [vm_compute; reflexivity|].
  split.
  - intros w Hw.
    assert (Hle : (window_score page1 (strip (re_sub_ws (lit "liver conv"))) w
                   <= 2000 # 24)%Q).
    { vm_compute in Hw.
      repeat (destruct Hw as [<-|Hw]; [vm_compute; discriminate|]).
      destruct Hw. }
    intro H. rewrite H in Hle. vm_compute in Hle. apply Hle. reflexivity.
  - repeat split; vm_compute; reflexivity.
Qed.

(** C8 as stated fails for a run of the engine when the lower threshold is
    not above 0. The document has a blank page before [page1]. At 85 the
    blank page fails the prefilter (score 0) and [page1] gives the three
    annotations of "liver converts glucose". At 0 the blank page passes both
    tests with score 0, no window was recorded, line 101 raises, and the
    call returns nothing. *)
Lemma nonpositive_threshold_loses_matches :
  let run :=
    @find_text_fuzzy indel_fuzz blank_first_fitz one_page_pdf
      [QStr (lit "liver converts glucose")] in
  (0 <= 85)%Q
  /\ fitz_open (Fitz := blank_first_fitz) one_page_pdf = inr [[]; page1]
  /\ (partial_ratio (lower (lit "liver converts glucose"))
                    (lower (page_text [])) == 0)%Q
  /\ best_window_indices (scan_windows [] (lit "liver converts glucose"))
     = None
  /\ length (returned (run 85%Q)) = 3
  /\ warnings (run 85%Q) = []
  /\ returned (run 0%Q) = []
  /\ warnings (run 0%Q) = [unpack_error]
  /\ ~ (forall a, In a (returned (run 85%Q)) -> In a (returned (run 0%Q))).
Proof.
  cbv zeta.
  split; [vm_compute; discriminate|].
  split; [reflexivity|].
  split; [vm_compute; reflexivity|].
  split; [vm_compute; reflexivity|].
  split; [vm_compute; reflexivity|].
  split; [vm_compute; reflexivity|].
  split; [vm_compute; reflexivity|].
  split; [vm_compute; reflexivity|].
  intro H.
  assert (Hlen : length (returned
                   (@find_text_fuzzy indel_fuzz blank_first_fitz one_page_pdf
                      [QStr (lit "liver converts glucose")] 85%Q)) = 3)
    by (vm_compute; reflexivity).
  destruct (returned
              (@find_text_fuzzy indel_fuzz blank_first_fitz one_page_pdf
                 [QStr (lit "liver converts glucose")] 85%Q))
    as [|a rest] eqn:Hret; [discriminate Hlen|].
  specialize (H a (or_introl eq_refl)).
  assert (Hnil : returned
                   (@find_text_fuzzy indel_fuzz blank_first_fitz one_page_pdf
                      [QStr (lit "liver converts glucose")] 0%Q) = [])
    by (vm_compute; reflexivity).
  rewrite Hnil in H. exact H.
Qed.

End Instances.

(** * Further properties of [find_text_fuzzy] *)


Lemma in_combine_seq {A} (l : list A) (a n : nat) (x : A) :
  In (n, x) (combine (seq a (length l)) l) ->
  a <= n /\ nth_error l (n - a) = Some x.
Proof.
  revert a. induction l as [|y l IH]; intros a H; [destruct H|].
  cbn [length seq combine] in H. destruct H as [H|H].
  - inversion H; subst. rewrite Nat.sub_diag. split; [lia | reflexivity].
  - destruct (IH (S a) H) as (Hle & Hn). split; [lia|].
    replace (n - a) with (S (n - S a)) by lia. exact Hn.
Qed.

Lemma in_enumerate {A} (l : list A) (n : nat) (x : A) :
  In (n, x) (enumerate l) -> nth_error l n = Some x.
Proof.
  unfold enumerate. intro H. apply in_combine_seq in H.
  rewrite Nat.sub_0_r in H. apply H.
Qed.

Section Provenance.

Context {F : Fuzz} {P : Fitz}.

Lemma in_pairs_page (doc : document) (normalized_queries : list dict)
    (p : nat * list word * dict) :
  In p (pairs doc normalized_queries) ->
  nth_error doc (fst (fst p)) = Some (snd (fst p)).
Proof.
  unfold pairs. intro H. apply in_flat_map in H.
  destruct H as ([pn ws] & Hpw & H). apply in_map_iff in H.
  destruct H as (q & <- & _). cbn [fst snd]. apply in_enumerate, Hpw.
Qed.

(** What a returned annotation is made of. *)
Lemma returned_origin (threshold : Q) (pdf_bytes : list Byte.byte)
    (doc : document) (text_quotes : list raw_query) (a : annotation) :
  fitz_open pdf_bytes = inr doc ->
  In a (returned (find_text_fuzzy pdf_bytes text_quotes threshold)) ->
  exists page_num words d quote start_idx end_idx w,
    nth_error doc page_num = Some words
    /\ In d (normalize_queries text_quotes)
    /\ item_text d = inr (PStr quote)
    /\ 5 <= length (clean quote)
    /\ accepted_match threshold words (clean quote)
       = Some (start_idx, end_idx)
    /\ In w (slice words start_idx end_idx)
    /\ a = annotation_of page_num (item_color d) quote w.
Proof.
  intros Hopen Ha.
  assert (Hp : exists p, In p (pairs doc (normalize_queries text_quotes))
                         /\ In a (pair_annotations threshold p)).
  { destruct (find_text_fuzzy_opened threshold _ _ text_quotes Hopen)
      as [(_ & _ & Hr)|(e & pre & p & post & _ & Hl & _ & _ & Hr)];
      rewrite Hr in Ha; apply in_flat_map in Ha;
      destruct Ha as (p' & Hp' & Ha); exists p'; split; trivial.
    rewrite Hl. apply in_or_app. left. exact Hp'. }
  destruct Hp as ([[pn ws] d] & Hp & Hin).
  destruct (pair_annotations_cases threshold pn ws d)
    as [Hnil|(quote & s & e & Ht & Hlen & Hm & Hann)].
  - rewrite Hnil in Hin. destruct Hin.
  - rewrite Hann in Hin. apply in_map_iff in Hin.
    destruct Hin as (w & <- & Hw).
    exists pn, ws, d, quote, s, e, w. repeat split; trivial.
    + exact (in_pairs_page _ _ _ Hp).
    + exact (in_pairs _ _ _ Hp).
Qed.



(** X2. An accepted match covers at least [max(1, Q-2)] and at most [Q+4]
    words, [Q] the number of tokens of the cleaned quote, and lies within
    the page. *)
Theorem match_size_bounds (threshold : Q) (words : list word)
    (quote_clean : str) (start_idx end_idx : nat) :
  accepted_match threshold words quote_clean = Some (start_idx, end_idx) ->
  Nat.max 1 (length (split quote_clean) - 2) <= end_idx - start_idx
  /\ end_idx - start_idx <= length (split quote_clean) + 4
  /\ end_idx <= length words.
Proof.
  intro Hm. apply accepted_match_inv in Hm. destruct Hm as (_ & _ & Hi).
  destruct (scan_windows_first_max words quote_clean _ _ Hi)
    as (k & He & Hin & _).
  rewrite scan_windows_seen in Hin. apply in_scanned_windows in Hin. lia.
Qed.

Lemma length_scanned_windows (n q : nat) :
  length (scanned_windows n q) <= 7 * n.
Proof.
  unfold scanned_windows.
  set (row := fun i => map (pair i) (seq _ _)).
  assert (H : forall l, length (flat_map row l) <= 7 * length l).
  { induction l as [|i l IH]; [simpl; lia|].
    cbn [flat_map]. rewrite length_app. cbn [length].
    assert (length (row i) <= 7).
    { unfold row. rewrite length_map, length_seq. lia. }
    lia. }
  specialize (H (seq 0 n)). rewrite length_seq in H. exact H.
Qed.

(** X3. One (query, page) pair computes at most seven window scores per
    word of the page. *)
Theorem pair_cost_bound (threshold : Q) (page_num : nat) (words : list word)
    (query_item : dict) (st : state) :
  length (ratio_calls
            (snd (process_query threshold page_num words query_item st)))
  <= length (ratio_calls st) + 7 * length words.
Proof.
  rewrite process_query_eq.
  destruct (item_text query_item) as [e|quote_v]; [cbn; lia|].
  destruct (clean_quote quote_v) as [e|[quote quote_clean]]; [cbn; lia|].
  destruct (length quote_clean <? 5); [cbn; lia|].
  destruct (Qle_bool threshold (partial_ratio _ _)); [|cbn; lia].
  cbv zeta. rewrite scan_windows_seen.
  pose proof (length_scanned_windows (length words)
                (length (split quote_clean))).
  destruct (Qle_bool threshold (best_window_score _));
    [destruct (best_window_indices _) as [[s e]|]|];
    cbn [snd ratio_calls]; rewrite length_app; lia.
Qed.

End Provenance.

(** ** Page order, thresholds out of range, letter case *)

Lemma StronglySorted_prefix {A} (R : A -> A -> Prop) (l1 l2 : list A) :
  StronglySorted R (l1 ++ l2) -> StronglySorted R l1.
Proof.
  induction l1 as [|a l1 IH]; cbn [app]; intro H; [constructor|].
  apply StronglySorted_inv in H. destruct H as (Hs & Hf).
  constructor; [exact (IH Hs)|].
  apply Forall_app in Hf. apply Hf.
Qed.

Lemma app_prefix_or_in {A} (pre rest l : list A) (b : A) (tl : list A) :
  pre ++ rest = l ++ b :: tl ->
  (exists t, l = pre ++ t) \/ In b pre.
Proof.
  revert l. induction pre as [|x pre IH]; intros l H.
  - left. exists l. reflexivity.
  - destruct l as [|y l]; cbn [app] in H; inversion H; subst.
    + right. left. reflexivity.
    + destruct (IH l H2) as [(t & ->)|Hin].
      * left. exists t. reflexivity.
      * right. right. exact Hin.
Qed.

Lemma constant_sorted (l : list nat) (c : nat) :
  (forall n, In n l -> n = c) -> StronglySorted le l.
Proof.
  induction l as [|n r IH]; intro H; constructor.
  - apply IH. intros m Hm. apply H. right. exact Hm.
  - apply Forall_forall. intros m Hm.
    rewrite (H n (or_introl eq_refl)), (H m (or_intror Hm)). constructor.
Qed.

Section PageOrder.

Context {F : Fuzz} {P : Fitz}.

Lemma pair_annotations_page (threshold : Q) (p : nat * list word * dict)
    (a : annotation) :
  In a (pair_annotations threshold p) -> a_page a = fst (fst p) + 1.
Proof.
  destruct p as [[pn ws] d]. intro Ha.
  destruct (pair_annotations_cases threshold pn ws d)
    as [Hnil|(quote & s & e & _ & _ & _ & Hann)].
  - rewrite Hnil in Ha. destruct Ha.
  - rewrite Hann in Ha. apply in_map_iff in Ha.
    destruct Ha as (w & <- & _). reflexivity.
Qed.

Lemma rows_pages_sorted (normalized_queries : list dict) (l : document)
    (a : nat) :
  StronglySorted le
    (map (fun p : nat * list word * dict => fst (fst p))
       (flat_map (fun pw => map (fun q => (pw, q)) normalized_queries)
          (combine (seq a (length l)) l)))
  /\ Forall (fun n => a <= n)
       (map (fun p : nat * list word * dict => fst (fst p))
          (flat_map (fun pw => map (fun q => (pw, q)) normalized_queries)
             (combine (seq a (length l)) l))).
Proof.
  revert a. induction l as [|ws l IH]; intro a.
  - split; constructor.
  - cbn [length seq combine flat_map]. rewrite map_app.
    destruct (IH (S a)) as (Hs & Hf).
    assert (Hrow : forall n,
               In n (map (fun p : nat * list word * dict => fst (fst p))
                       (map (fun q => (a, ws, q)) normalized_queries)) ->
               n = a).
    { intros n Hn. apply in_map_iff in Hn. destruct Hn as (p & <- & Hp).
      apply in_map_iff in Hp. destruct Hp as (q & <- & _). reflexivity. }
    split.
    + apply StronglySorted_app; [|exact Hs|].
      * exact (constant_sorted _ a Hrow).
      * intros x y Hx Hy. rewrite (Hrow x Hx).
        rewrite Forall_forall in Hf. specialize (Hf y Hy). lia.
    + apply Forall_app. split.
      * apply Forall_forall. intros n Hn. rewrite (Hrow n Hn). constructor.
      * eapply Forall_impl; [|exact Hf]. cbv beta. intros n Hn. lia.
Qed.

Lemma flat_map_pages_sorted (threshold : Q)
    (l : list (nat * list word * dict)) :
  StronglySorted le (map (fun p => fst (fst p)) l) ->
  StronglySorted le (map a_page (flat_map (pair_annotations threshold) l)).
Proof.
  induction l as [|p l IH]; cbn [map flat_map]; intro H; [constructor|].
  apply StronglySorted_inv in H. destruct H as (Hs & Hf).
  rewrite map_app. apply StronglySorted_app.
  - assert (Hall : forall n, In n (map a_page (pair_annotations threshold p))
                             -> n = fst (fst p) + 1).
    { intros n Hn. apply in_map_iff in Hn. destruct Hn as (a & <- & Ha).
      exact (pair_annotations_page _ _ _ Ha). }
    exact (constant_sorted _ _ Hall).
  - exact (IH Hs).
  - intros x y Hx Hy. apply in_map_iff in Hx. destruct Hx as (a & <- & Ha).
    rewrite (pair_annotations_page _ _ _ Ha).
    apply in_map_iff in Hy. destruct Hy as (b & <- & Hb).
    apply in_flat_map in Hb. destruct Hb as (p' & Hp' & Hb).
    rewrite (pair_annotations_page _ _ _ Hb).
    rewrite Forall_forall in Hf.
    specialize (Hf (fst (fst p')) (in_map _ _ _ Hp')). lia.
Qed.

(** X4. The returned annotations are in page order: their page numbers
    never decrease along the list. *)
Theorem returned_in_page_order (threshold : Q) (pdf_bytes : list Byte.byte)
    (text_quotes : list raw_query) :
  StronglySorted le
    (map a_page (returned (find_text_fuzzy pdf_bytes text_quotes threshold))).
Proof.
  destruct (fitz_open pdf_bytes) as [e|doc] eqn:Hopen.
  - rewrite (find_text_fuzzy_unopened threshold _ text_quotes _ Hopen).
    constructor.
  - pose proof (proj1 (rows_pages_sorted (normalize_queries text_quotes)
                         doc 0)) as Hs.
    fold (enumerate doc) in Hs.
    fold (pairs doc (normalize_queries text_quotes)) in Hs.
    destruct (find_text_fuzzy_opened threshold _ _ text_quotes Hopen)
      as [(_ & _ & Hr)|(e & pre & p & post & _ & Hl & _ & _ & Hr)];
      rewrite Hr; apply flat_map_pages_sorted.
    + exact Hs.
    + rewrite Hl, map_app in Hs. exact (StronglySorted_prefix _ _ _ Hs).
Qed.

(** X5. When some entry of the query list has no text or a text that is not
    a string, every returned annotation is on page 1: the run stops on the
    first page, at that entry or before it. *)
Theorem malformed_entry_keeps_first_page_only (threshold : Q)
    (pdf_bytes : list Byte.byte) (text_quotes : list raw_query) (d : dict)
    (a : annotation) :
  In d (normalize_queries text_quotes) ->
  (forall quote, item_text d <> inr (PStr quote)) ->
  In a (returned (find_text_fuzzy pdf_bytes text_quotes threshold)) ->
  a_page a = 1.
Proof.
  intros Hd Hbad Ha.
  destruct (fitz_open pdf_bytes) as [e|doc] eqn:Hopen.
  { rewrite (find_text_fuzzy_unopened threshold _ text_quotes _ Hopen) in Ha.
    destruct Ha. }
  assert (Hfail : forall pn ws,
             fst (run_pair threshold (pn, ws, d)) <> inr tt).
  { intros pn ws. unfold run_pair. cbn [fst snd].
    rewrite process_query_eq.
    destruct (item_text d) as [e|[quote| |]]; cbn; try discriminate.
    destruct (Hbad quote eq_refl). }
  set (nq := normalize_queries text_quotes) in *.
  destruct doc as [|ws0 doc].
  { destruct (find_text_fuzzy_opened threshold _ _ text_quotes Hopen)
      as [(_ & _ & Hr)|(e & pre & p & post & _ & Hl & _)].
    - rewrite Hr in Ha. destruct Ha.
    - destruct pre; discriminate Hl. }
  apply in_split in Hd. destruct Hd as (n1 & n2 & Hnq).
  assert (Hall : exists tl,
             pairs (ws0 :: doc) nq =
             map (fun q => (0, ws0, q)) n1 ++ (0, ws0, d) :: tl).
  { unfold pairs, enumerate. cbn [length seq combine flat_map].
    rewrite Hnq, map_app. cbn [map]. rewrite <- app_assoc. cbn [app].
    eexists. reflexivity. }
  destruct Hall as (tl & Hall).
  destruct (find_text_fuzzy_opened threshold _ _ text_quotes Hopen)
    as [(_ & Hok & _)|(e & pre & p & post & _ & Hl & Hok & _ & Hr)].
  - exfalso. fold nq in Hok. rewrite Hall in Hok.
    rewrite Forall_forall in Hok.
    exact (Hfail 0 ws0 (Hok _ (in_elt _ _ _))).
  - fold nq in Hl. rewrite Hall in Hl.
    rewrite Hr in Ha. apply in_flat_map in Ha.
    destruct Ha as (p' & Hp' & Ha).
    rewrite (pair_annotations_page _ _ _ Ha).
    symmetry in Hl. destruct (app_prefix_or_in _ _ _ _ _ Hl)
      as [(t & Ht)|Hin].
    + assert (Hp0 : In p' (map (fun q => (0, ws0, q)) n1))
        by (rewrite Ht; apply in_or_app; left; exact Hp').
      apply in_map_iff in Hp0. destruct Hp0 as (q & <- & _). reflexivity.
    + exfalso. rewrite Forall_forall in Hok.
      exact (Hfail 0 ws0 (Hok _ Hin)).
Qed.

End PageOrder.

Lemma lower_join (l : list str) : lower (join l) = join (map lower l).
Proof.
  induction l as [|w l IH]; [reflexivity|].
  destruct l as [|w' l]; [reflexivity|].
  change (join (w :: w' :: l)) with (w ++ space :: join (w' :: l)).
  unfold lower at 1. rewrite map_app. cbn [map].
  fold (lower w). fold (lower (join (w' :: l))). rewrite IH. reflexivity.
Qed.

Lemma slice_map {A B} (f : A -> B) (l : list A) (i j : nat) :
  slice (map f l) i j = map f (slice l i j).
Proof. unfold slice. rewrite skipn_map, firstn_map. reflexivity. Qed.

Section Thresholds.

Context {F : Fuzz}.

Lemma best_window_score_is_a_score (words : list word) (quote_clean : str) :
  best_window_score (scan_windows words quote_clean) = 0%Q
  \/ exists w, In w (windows_seen (scan_windows words quote_clean))
               /\ best_window_score (scan_windows words quote_clean)
                  = window_score words quote_clean w.
Proof.
  destruct (best_window_indices (scan_windows words quote_clean))
    as [[s e]|] eqn:Hi.
  - destruct (scan_windows_first_max words quote_clean _ _ Hi)
      as (k & _ & Hin & Hb & _).
    right. exists (s, k). split; assumption.
  - left. exact (proj1 (scan_windows_none words quote_clean Hi)).
Qed.

(** X6. With a threshold above 100 nothing is ever returned: the best
    window score is a [ratio], which is at most 100. *)
Theorem threshold_above_100_returns_nothing {L : FuzzLaws F} {P : Fitz}
    (threshold : Q) (pdf_bytes : list Byte.byte)
    (text_quotes : list raw_query) :
  (100 < threshold)%Q ->
  returned (find_text_fuzzy pdf_bytes text_quotes threshold) = [].
Proof.
  intro Hthr.
  destruct (returned (find_text_fuzzy pdf_bytes text_quotes threshold))
    as [|a r] eqn:Hr; [reflexivity|]. exfalso.
  assert (Ha : In a (returned
                       (find_text_fuzzy pdf_bytes text_quotes threshold)))
    by (rewrite Hr; left; reflexivity).
  destruct (fitz_open pdf_bytes) as [e|doc] eqn:Hopen.
  - rewrite (find_text_fuzzy_unopened threshold _ text_quotes _ Hopen) in Ha.
    destruct Ha.
  - destruct (returned_origin threshold _ _ _ _ Hopen Ha)
      as (pn & ws & d & quote & s & e & w & _ & _ & _ & _ & Hm & _).
    apply accepted_match_inv in Hm. destruct Hm as (_ & Hacc & _).
    apply Qle_bool_iff in Hacc.
    destruct (best_window_score_is_a_score ws (clean quote))
      as [H0|(w' & _ & Hb)].
    + rewrite H0 in Hacc. lra.
    + rewrite Hb in Hacc.
      pose proof (ratio_le_100 (lower (clean quote))
                    (lower (window_text ws (fst w') (snd w')))) as Hle.
      unfold window_score in Hacc. lra.
Qed.

(** X7. With a threshold of 0 or less, a pair that passes the prefilter on
    a page where no window scores above 0 (a page without words, for one)
    raises at the unpacking of line 101: the best score 0 passes the test
    with no window recorded. *)
Theorem nonpositive_threshold_raises (threshold : Q) (page_num : nat)
    (words : list word) (query_item : dict) (quote : str) (st : state) :
  item_text query_item = inr (PStr quote) ->
  5 <= length (clean quote) ->
  (threshold <= 0)%Q ->
  Qle_bool threshold
    (partial_ratio (lower (clean quote)) (lower (page_text words))) = true ->
  (forall w,
      In w (scanned_windows (length words) (length (split (clean quote)))) ->
      (window_score words (clean quote) w <= 0)%Q) ->
  process_query threshold page_num words query_item st =
  (inl unpack_error,
   mk_state (annotations st)
     (ratio_calls st ++
      scanned_windows (length words) (length (split (clean quote))))).
Proof.
  unfold clean. intros Ht Hlen Hthr Hpass Hlow.
  rewrite process_query_eq, Ht. cbn [clean_quote].
  apply Nat.ltb_ge in Hlen. rewrite Hlen, Hpass. cbv zeta.
  rewrite scan_windows_seen.
  destruct (best_window_indices
              (scan_windows words (strip (re_sub_ws quote))))
    as [[s e]|] eqn:Hi.
  - exfalso.
    destruct (scan_windows_first_max words _ _ _ Hi)
      as (k & _ & Hin & Hb & Hpos & _).
    rewrite scan_windows_seen in Hin. specialize (Hlow _ Hin).
    rewrite Hb in Hpos. lra.
  - rewrite (proj1 (scan_windows_none words _ Hi)).
    replace (Qle_bool threshold 0) with true
      by (symmetry; apply Qle_bool_iff; exact Hthr).
    reflexivity.
Qed.

(** X8. Matching ignores letter case on both sides: two cleaned quotes
    that agree after lower-casing, on two pages whose word texts agree after
    lower-casing, are accepted at the same span. *)
Theorem match_ignores_case (threshold : Q) (words1 words2 : list word)
    (quote_clean1 quote_clean2 : str) :
  lower quote_clean1 = lower quote_clean2 ->
  map (fun w => lower (w_text w)) words1
  = map (fun w => lower (w_text w)) words2 ->
  accepted_match threshold words1 quote_clean1
  = accepted_match threshold words2 quote_clean2.
Proof.
  intros Hq Hw.
  assert (Hlen : length words1 = length words2).
  { apply (f_equal (@length str)) in Hw. rewrite !length_map in Hw.
    exact Hw. }
  assert (Hsplit : length (split quote_clean1) = length (split quote_clean2))
    by (rewrite <- split_lower, Hq, split_lower; reflexivity).
  assert (Hwin : forall i k,
             lower (window_text words1 i k) = lower (window_text words2 i k)).
  { intros i k. unfold window_text. rewrite !lower_join, !map_map.
    rewrite <- !slice_map, Hw. reflexivity. }
  assert (Hpage : lower (page_text words1) = lower (page_text words2)).
  { unfold page_text. rewrite !lower_join, !map_map, Hw. reflexivity. }
  assert (Hscan : scan_windows words1 quote_clean1
                  = scan_windows words2 quote_clean2).
  { rewrite !scan_windows_fold, Hlen, Hsplit.
    apply fold_left_ext_in. intros acc w.
    unfold visit, window_score. rewrite Hq, Hwin. reflexivity. }
  unfold accepted_match. rewrite Hq, Hpage, Hscan. reflexivity.
Qed.

End Thresholds.

(** * The cleaned quote and its tokens (lines 65 and 80) *)

Lemma is_space_space : is_space space = true.
Proof. reflexivity. Qed.

Lemma split_from_nonempty (cur s : str) :
  cur <> [] -> split_from cur s <> [].
Proof.
  revert cur. induction s as [|c s IH]; intros cur H; cbn [split_from].
  - destruct cur; [congruence | discriminate].
  - destruct (is_space c).
    + destruct cur; [congruence | discriminate].
    + apply IH. discriminate.
Qed.

Lemma word_like_rev (cur : str) :
  cur <> [] -> forallb (fun c => negb (is_space c)) cur = true ->
  word_like (rev cur) = true.
Proof.
  intros Hne Hfree. unfold word_like.
  destruct (rev cur) as [|c r] eqn:E.
  - exfalso. apply Hne. rewrite <- (rev_involutive cur), E. reflexivity.
  - rewrite <- E. apply forallb_forall. intros x Hx.
    rewrite forallb_forall in Hfree. apply Hfree, in_rev, Hx.
Qed.

(** The tokens of [split] are non-empty and free of whitespace. *)
Lemma split_from_word_like (cur s : str) :
  forallb (fun c => negb (is_space c)) cur = true ->
  forallb word_like (split_from cur s) = true.
Proof.
  revert cur. induction s as [|c s IH]; intros cur H; cbn [split_from].
  - destruct cur as [|d cur]; [reflexivity|].
    cbn [forallb]. rewrite word_like_rev by (discriminate || exact H).
    reflexivity.
  - destruct (is_space c) eqn:Ec.
    + destruct cur as [|d cur]; [apply IH; reflexivity|].
      cbn [forallb]. rewrite word_like_rev by (discriminate || exact H).
      apply IH. reflexivity.
    + apply IH. cbn [forallb]. rewrite Ec. exact H.
Qed.

Lemma join_cons_cons (w : str) (l : list str) :
  l <> [] -> join (w :: l) = w ++ space :: join l.
Proof. destruct l; [congruence | reflexivity]. Qed.

(** How [re.sub] leaves a string: the tokens joined by single spaces, with
    at most one space before and one after. *)
Lemma collapse_shape (s : str) :
  (exists trail, (trail = [] \/ trail = [space])
     /\ collapse_from true s =
        match split s with [] => [] | _ => join (split s) ++ trail end)
  /\ (forall cur, cur <> [] ->
        exists trail, (trail = [] \/ trail = [space])
          /\ rev cur ++ collapse_from false s
             = join (split_from cur s) ++ trail).
Proof.
  unfold split. induction s as [|c s (IHt & IHf)].
  - split.
    + exists []. split; [left; reflexivity | reflexivity].
    + intros cur Hne. exists []. split; [left; reflexivity|].
      cbn [collapse_from split_from]. destruct cur; [congruence|].
      cbn [join]. reflexivity.
  - split.
    + cbn [collapse_from split_from]. destruct (is_space c) eqn:Ec.
      * exact IHt.
      * destruct (IHf [c]) as (trail & Ht & E); [discriminate|].
        exists trail. split; [exact Ht|].
        cbn [rev app] in E. rewrite E.
        destruct (split_from [c] s) eqn:Es; [|reflexivity].
        exfalso. revert Es. apply split_from_nonempty. discriminate.
    + intros cur Hne. cbn [collapse_from split_from].
      destruct (is_space c) eqn:Ec.
      * destruct IHt as (trail & Ht & E). rewrite E.
        destruct cur as [|d cur]; [congruence|].
        destruct (split_from [] s) as [|t ts] eqn:Es.
        -- exists [space]. split; [right; reflexivity | reflexivity].
        -- exists trail. split; [exact Ht|].
           change (join (rev (d :: cur) :: t :: ts))
             with (rev (d :: cur) ++ space :: join (t :: ts)).
           rewrite <- app_assoc. reflexivity.
      * destruct (IHf (c :: cur)) as (trail & Ht & E); [discriminate|].
        exists trail. split; [exact Ht|].
        rewrite <- E. cbn [rev]. rewrite <- app_assoc. reflexivity.
Qed.

Lemma join_first (l : list str) :
  l <> [] -> forallb word_like l = true ->
  exists c r, join l = c :: r /\ is_space c = false.
Proof.
  intros Hne H. destruct l as [|w l]; [congruence|].
  cbn [forallb] in H. apply andb_true_iff in H. destruct H as (Hw & _).
  destruct w as [|c w]; [discriminate|].
  cbn [word_like forallb] in Hw. apply andb_true_iff in Hw.
  destruct Hw as (Hc & _). apply negb_true_iff in Hc.
  destruct l as [|w' l].
  - exists c, w. split; [reflexivity | exact Hc].
  - exists c, (w ++ space :: join (w' :: l)). split; [reflexivity | exact Hc].
Qed.

Lemma join_last (l : list str) :
  l <> [] -> forallb word_like l = true ->
  exists r c, join l = r ++ [c] /\ is_space c = false.
Proof.
  induction l as [|w l IH]; intros Hne H; [congruence|].
  cbn [forallb] in H. apply andb_true_iff in H. destruct H as (Hw & Hl).
  destruct l as [|w' l].
  - cbn [join]. destruct w as [|c w]; [discriminate|].
    destruct (exists_last (l := c :: w)) as (r & x & E); [discriminate|].
    exists r, x. split; [exact E|].
    unfold word_like in Hw. rewrite E, forallb_app in Hw.
    apply andb_true_iff in Hw. destruct Hw as (_ & Hx).
    cbn [forallb] in Hx. rewrite andb_true_r in Hx.
    apply negb_true_iff in Hx. exact Hx.
  - destruct (IH ltac:(discriminate) Hl) as (r & x & E & Hx).
    exists (w ++ space :: r), x. split; [|exact Hx].
    rewrite (join_cons_cons w (w' :: l)) by discriminate. rewrite E.
    rewrite <- app_assoc. reflexivity.
Qed.

Lemma strip_shape (lead trail body : str) :
  (lead = [] \/ lead = [space]) -> (trail = [] \/ trail = [space]) ->
  (exists c r, body = c :: r /\ is_space c = false) ->
  (exists r c, body = r ++ [c] /\ is_space c = false) ->
  strip (lead ++ body ++ trail) = body.
Proof.
  intros Hlead Htrail (c & r & Hb & Hc) (r' & c' & Hb' & Hc').
  unfold strip, rstrip.
  assert (Hl : lstrip (lead ++ body ++ trail) = body ++ trail).
  { destruct Hlead as [-> | ->]; rewrite Hb; cbn [app lstrip];
      rewrite ?is_space_space, Hc; reflexivity. }
  rewrite Hl, Hb', rev_app_distr, rev_app_distr.
  assert (Hr : lstrip (rev trail ++ rev [c'] ++ rev r') = c' :: rev r').
  { destruct Htrail as [-> | ->]; cbn [rev app lstrip];
      rewrite ?is_space_space, Hc'; reflexivity. }
  rewrite Hr. cbn [rev]. rewrite rev_involutive. reflexivity.
Qed.

Lemma clean_join_split (quote : str) : clean quote = join (split quote).
Proof.
  unfold clean, re_sub_ws.
  assert (Hwl : forallb word_like (split quote) = true)
    by (apply split_from_word_like; reflexivity).
  assert (K : exists lead trail,
             (lead = [] \/ lead = [space]) /\ (trail = [] \/ trail = [space])
             /\ collapse_from false quote
                = lead ++ match split quote with
                          | [] => []
                          | _ => join (split quote) ++ trail
                          end).
  { destruct quote as [|c s].
    - exists [], []. repeat split; auto.
    - destruct (collapse_shape s) as ((trail & Ht & E) & G).
      cbn [collapse_from]. unfold split. cbn [split_from].
      destruct (is_space c) eqn:Ec.
      + exists [space], trail. repeat split; auto.
        rewrite E. reflexivity.
      + destruct (G [c]) as (trail' & Ht' & E'); [discriminate|].
        exists [], trail'. repeat split; auto.
        cbn [rev app] in E'. rewrite E'.
        destruct (split_from [c] s) eqn:Es; [|reflexivity].
        exfalso. revert Es. apply split_from_nonempty. discriminate. }
  destruct K as (lead & trail & Hlead & Htrail & E). rewrite E.
  destruct (split quote) as [|t ts] eqn:Es.
  - rewrite app_nil_r. destruct Hlead as [-> | ->]; reflexivity.
  - apply strip_shape; trivial.
    + apply join_first; [discriminate | exact Hwl].
    + apply join_last; [discriminate | exact Hwl].
Qed.

(** X9. The cleaned quote is the quote's whitespace-delimited tokens joined
    by single spaces: [re.sub(r'\s+', ' ', q).strip()] is
    [" ".join(q.split())]. Cleaning keeps the tokens, so the word count of
    line 80 is that of the quote as given, and cleaning twice changes
    nothing. *)
Theorem clean_is_join_of_split (quote : str) :
  clean quote = join (split quote)
  /\ split (clean quote) = split quote
  /\ clean (clean quote) = clean quote.
Proof.
  assert (Hwl : forallb word_like (split quote) = true)
    by (apply split_from_word_like; reflexivity).
  assert (Hs : split (clean quote) = split quote)
    by (rewrite clean_join_split; apply split_join, Hwl).
  repeat split.
  - apply clean_join_split.
  - exact Hs.
  - rewrite (clean_join_split (clean quote)), Hs. symmetry.
    apply clean_join_split.
Qed.

(** * The evidence quotes (lines 729-749) *)

Module EvidenceFacts.
Import Json Evidence.

Lemma collect_acc (reactions : list json) (acc : list (json * str)) :
  collect reactions acc =
  ebind (collect reactions []) (fun l => inr (acc ++ l)).
Proof.
  revert acc. induction reactions as [|rxn rest IH]; intro acc.
  - cbn. rewrite app_nil_r. reflexivity.
  - cbn [collect]. destruct (reaction_evidence rxn) as [e|added];
      [reflexivity|]. cbn [ebind app].
    rewrite (IH (acc ++ added)), (IH added).
    destruct (collect rest []) as [e|l]; [reflexivity|].
    cbn [ebind]. rewrite app_assoc. reflexivity.
Qed.

(** A successful loop appends what each reaction adds, in order. *)
Lemma collect_parts (reactions : list json) (items : list (json * str)) :
  collect reactions [] = inr items ->
  exists parts,
    Forall2 (fun rxn part => reaction_evidence rxn = inr part)
            reactions parts
    /\ items = concat parts.
Proof.
  revert items. induction reactions as [|rxn rest IH]; intros items H.
  - inversion H. exists []. split; [constructor | reflexivity].
  - cbn [collect] in H. destruct (reaction_evidence rxn) as [e|added] eqn:E;
      [discriminate|]. cbn [ebind app] in H. rewrite collect_acc in H.
    destruct (collect rest []) as [e|l] eqn:El; [discriminate|].
    cbn [ebind] in H. inversion H; subst items.
    destruct (IH l eq_refl) as (parts & Hf & ->).
    exists (added :: parts). split; [constructor; assumption | reflexivity].
Qed.

Lemma certainty_color_values (certainty : json) (color : str) :
  certainty_color certainty = inr color -> color = yellow \/ color = orange.
Proof.
  unfold certainty_color. destruct (truthy certainty).
  - destruct (lower_method certainty) as [e|l]; [discriminate|].
    cbn [ebind]. destruct (str_eqb l (lit "hypothetical"));
      intro H; inversion H; auto.
  - intro H. inversion H. auto.
Qed.

(** What one reaction adds, read from its fields. *)
Lemma reaction_evidence_inv (rxn : json) (part : list (json * str))
    (quote : json) (color : str) :
  reaction_evidence rxn = inr part -> In (quote, color) part ->
  exists d quotes,
    rxn = JDict d
    /\ lookup d (lit "evidence") = Some (JList quotes)
    /\ In quote quotes
    /\ certainty_color
         (match lookup d (lit "certainty") with
          | Some c => c
          | None => JStr (lit "Confirmed")
          end) = inr color.
Proof.
  unfold reaction_evidence. intros H Hin.
  destruct rxn as [| b | z | f | s | l | d]; try discriminate H.
  - cbn [contains ebind get] in H.
    destruct (is_substring (lit "evidence") s); [discriminate H|].
    inversion H; subst part. destruct Hin.
  - cbn [contains ebind get] in H.
    destruct (existsb (is_str (lit "evidence")) l); [discriminate H|].
    inversion H; subst part. destruct Hin.
  - cbn [contains ebind get getitem] in H.
    destruct (lookup d (lit "evidence")) as [ev|] eqn:Ev;
      [|inversion H; subst part; destruct Hin].
    destruct (certainty_color _) as [e|c] eqn:Ec; [discriminate H|].
    cbn [ebind] in H.
    destruct (truthy ev); [|inversion H; subst part; destruct Hin].
    destruct ev as [| b | z | f | s | quotes | d'];
      try (inversion H; subst part; destruct Hin).
    inversion H; subst part.
    apply in_map_iff in Hin. destruct Hin as (q & Heq & Hq).
    inversion Heq; subst q c.
    exists d, quotes. repeat split; trivial.
Qed.

Lemma reaction_evidence_dict (d : list (str * json)) (quotes : list json)
    (color : str) :
  lookup d (lit "evidence") = Some (JList quotes) ->
  certainty_color
    (match lookup d (lit "certainty") with
     | Some c => c
     | None => JStr (lit "Confirmed")
     end) = inr color ->
  reaction_evidence (JDict d) = inr (map (fun quote => (quote, color)) quotes).
Proof.
  intros Hev Hc. unfold reaction_evidence.
  cbn [contains ebind get getitem]. rewrite Hev, Hc. cbn [ebind].
  destruct quotes; reflexivity.
Qed.

Lemma collect_origin (reactions : list json) (items : list (json * str))
    (quote : json) (color : str) :
  collect reactions [] = inr items ->
  In (quote, color) items ->
  exists d quotes,
    In (JDict d) reactions
    /\ lookup d (lit "evidence") = Some (JList quotes)
    /\ In quote quotes
    /\ certainty_color
         (match lookup d (lit "certainty") with
          | Some c => c
          | None => JStr (lit "Confirmed")
          end) = inr color.
Proof.
  intros H Hin. destruct (collect_parts _ _ H) as (parts & Hf & ->).
  apply in_concat in Hin. destruct Hin as (part & Hp & Hin).
  clear H. induction Hf as [|rxn part' rs ps Hr Hf IH]; [destruct Hp|].
  destruct Hp as [->|Hp].
  - destruct (reaction_evidence_inv _ _ _ _ Hr Hin)
      as (d & quotes & -> & Hev & Hq & Hc).
    exists d, quotes. repeat split; trivial. left. reflexivity.
  - destruct (IH Hp) as (d & quotes & Hd & Hrest).
    exists d, quotes. split; [right; exact Hd | exact Hrest].
Qed.

(** X10. When the loop over the reactions succeeds, the collected entries
    are exactly the elements of the 'evidence' lists of the dict
    reactions, each with the colour of its reaction's certainty: orange when
    the certainty lower-cases to "hypothetical", yellow otherwise. A
    reaction whose evidence is missing, empty or not a list adds nothing. *)
Theorem collected_entries (reactions : list json)
    (items : list (json * str)) (quote : json) (color : str) :
  collect reactions [] = inr items ->
  (In (quote, color) items <->
   exists d quotes,
     In (JDict d) reactions
     /\ lookup d (lit "evidence") = Some (JList quotes)
     /\ In quote quotes
     /\ certainty_color
          (match lookup d (lit "certainty") with
           | Some c => c
           | None => JStr (lit "Confirmed")
           end) = inr color)
  /\ (In (quote, color) items -> color = yellow \/ color = orange).
Proof.
  intro H. split; [split; [exact (collect_origin _ _ _ _ H)|]|].
  - destruct (collect_parts _ _ H) as (parts & Hf & ->).
    intros (d & quotes & Hd & Hev & Hq & Hc). apply in_concat.
    clear H. induction Hf as [|rxn part rs ps Hr Hf IH]; [destruct Hd|].
    destruct Hd as [->|Hd].
    + rewrite (reaction_evidence_dict _ _ _ Hev Hc) in Hr.
      inversion Hr; subst part.
      eexists. split; [left; reflexivity|].
      apply in_map_iff. exists quote. split; [reflexivity | exact Hq].
    + destruct (IH Hd) as (part' & Hp & Hin).
      exists part'. split; [right; exact Hp | exact Hin].
  - intro Hin. destruct (collect_origin _ _ _ _ H Hin)
      as (d & quotes & _ & _ & _ & Hc).
    exact (certainty_color_values _ _ Hc).
Qed.

(** X11. The loop succeeds when every reaction is a dict whose certainty
    is missing, falsy or a string; it raises when some dict reaction with
    an 'evidence' key has a truthy certainty that is not a string (a
    number, [True], a list). *)
Theorem collection_raises_only_on_odd_certainty (reactions : list json) :
  ((forall rxn, In rxn reactions ->
      exists d, rxn = JDict d
        /\ forall c, lookup d (lit "certainty") = Some c ->
             truthy c = false \/ exists s, c = JStr s) ->
   exists items, collect reactions [] = inr items)
  /\ (forall d ev c,
        In (JDict d) reactions ->
        lookup d (lit "evidence") = Some ev ->
        lookup d (lit "certainty") = Some c ->
        truthy c = true ->
        (forall s, c <> JStr s) ->
        exists e, collect reactions [] = inl e).
Proof.
  split.
  - induction reactions as [|rxn rest IH]; intro H.
    + exists []. reflexivity.
    + destruct (H rxn (or_introl eq_refl)) as (d & -> & Hc).
      destruct IH as (items & Hitems).
      { intros r Hr. apply H. right. exact Hr. }
      assert (Hok : exists part, reaction_evidence (JDict d) = inr part).
      { unfold reaction_evidence. cbn [contains ebind get getitem].
        destruct (lookup d (lit "evidence")) as [ev|];
          [|eexists; reflexivity].
        assert (Hcol : exists color,
                   certainty_color
                     (match lookup d (lit "certainty") with
                      | Some c => c
                      | None => JStr (lit "Confirmed")
                      end) = inr color).
        { destruct (lookup d (lit "certainty")) as [c|];
            [|eexists; reflexivity].
          unfold certainty_color.
          destruct (Hc c eq_refl) as [Hf|(s & ->)].
          - rewrite Hf. eexists. reflexivity.
          - destruct (truthy (JStr s)); eexists; reflexivity. }
        destruct Hcol as (color & ->). cbn [ebind].
        destruct (truthy ev); [|eexists; reflexivity].
        destruct ev; eexists; reflexivity. }
      destruct Hok as (part & Hpart).
      exists (part ++ items). cbn [collect]. rewrite Hpart. cbn [ebind app].
      rewrite collect_acc, Hitems. reflexivity.
  - intros d ev c Hin Hev Hc Ht Hns.
    induction reactions as [|rxn rest IH]; [destruct Hin|].
    cbn [collect].
    destruct (reaction_evidence rxn) as [e|added] eqn:E;
      [exists e; reflexivity|].
    destruct Hin as [->|Hin].
    + exfalso. unfold reaction_evidence in E.
      cbn [contains ebind get getitem] in E. rewrite Hev, Hc in E.
      unfold certainty_color in E. rewrite Ht in E.
      destruct c; try discriminate E. exact (Hns s eq_refl).
    + destruct (IH Hin) as (e & He). exists e.
      cbn [ebind app]. rewrite collect_acc, He. reflexivity.
Qed.

Section Pipeline.

Context {F : Fuzz} {P : Fitz}.

Lemma normalize_evidence_items (items : list (json * str)) (d : dict) :
  In d (normalize_queries (map evidence_item items)) ->
  exists quote color,
    In (quote, color) items
    /\ item_text d = inr (text_value quote)
    /\ item_color d = PStr color.
Proof.
  unfold normalize_queries. intro H. apply in_flat_map in H.
  destruct H as (q & Hq & Hd). apply in_map_iff in Hq.
  destruct Hq as ([quote color] & <- & Hin).
  cbn [evidence_item normalize_query fst snd] in Hd.
  destruct Hd as [<-|[]]. exists quote, color.
  split; [exact Hin | split; reflexivity].
Qed.

(** X12. Every highlight returned for the collected entries carries the
    text of a string element of the 'evidence' list of some dict reaction
    and the colour of that reaction's certainty, yellow or orange. *)
Theorem highlights_come_from_evidence (threshold : Q)
    (pdf_bytes : list Byte.byte) (reactions : list json)
    (items : list (json * str)) (a : annotation) :
  collect reactions [] = inr items ->
  In a (returned
          (find_text_fuzzy pdf_bytes (map evidence_item items) threshold)) ->
  exists color d quotes,
    a_color a = PStr color
    /\ (color = yellow \/ color = orange)
    /\ In (JDict d) reactions
    /\ lookup d (lit "evidence") = Some (JList quotes)
    /\ In (JStr (a_quote a)) quotes
    /\ certainty_color
         (match lookup d (lit "certainty") with
          | Some c => c
          | None => JStr (lit "Confirmed")
          end) = inr color.
Proof.
  intros Hc Ha.
  destruct (fitz_open pdf_bytes) as [e|doc] eqn:Hopen.
  { rewrite (find_text_fuzzy_unopened threshold _ _ _ Hopen) in Ha.
    destruct Ha. }
  destruct (returned_origin threshold _ _ _ _ Hopen Ha)
    as (pn & ws & d0 & quote & s & e & w & _ & Hd0 & Ht & _ & _ & _ & ->).
  destruct (normalize_evidence_items _ _ Hd0)
    as (q & color & Hin & Htext & Hcolor).
  rewrite Htext in Ht.
  assert (Hq : q = JStr quote).
  { destruct q; cbn [text_value] in Ht; inversion Ht. reflexivity. }
  subst q.
  destruct (collect_origin _ _ _ _ Hc Hin) as (d & quotes & Hd & Hev & Hqs & Hcc).
  exists color, d, quotes. cbn [annotation_of a_color a_quote].
  repeat split; trivial.
  exact (certainty_color_values _ _ Hcc).
Qed.

End Pipeline.

End EvidenceFacts.

(** * Searching and stripping *)

Module TextFacts.
Import Json Text.

Lemma is_prefix_app (sub rest : str) : is_prefix sub (sub ++ rest) = true.
Proof.
  induction sub as [|a sub IH]; [reflexivity|].
  cbn [app is_prefix]. rewrite Ascii.eqb_refl. exact IH.
Qed.

(** No occurrence starts in a stretch without the first character. *)
Lemma find_at_skip (a : ascii) (sub pre rest : str) (pos : nat) :
  forallb (fun c => negb (Ascii.eqb a c)) pre = true ->
  find_at (a :: sub) (pre ++ rest) pos
  = find_at (a :: sub) rest (pos + length pre).
Proof.
  revert pos. induction pre as [|c pre IH]; intros pos H.
  - cbn [app length]. rewrite Nat.add_0_r. reflexivity.
  - cbn [forallb] in H. apply andb_true_iff in H. destruct H as (Hc & Hp).
    apply negb_true_iff in Hc. cbn [app find_at is_prefix]. rewrite Hc.
    cbn [andb]. rewrite (IH (S pos) Hp). cbn [length]. f_equal. lia.
Qed.

Lemma find_at_here (sub rest : str) (pos : nat) :
  find_at sub (sub ++ rest) pos = Some pos.
Proof.
  destruct sub as [|a sub]; [destruct rest; reflexivity|].
  cbn [app find_at]. change (a :: sub ++ rest) with ((a :: sub) ++ rest).
  rewrite is_prefix_app. reflexivity.
Qed.

Lemma find_at_none (a : ascii) (sub s : str) (pos : nat) :
  forallb (fun c => negb (Ascii.eqb a c)) s = true ->
  find_at (a :: sub) s pos = None.
Proof.
  intro H. rewrite <- (app_nil_r s), find_at_skip by exact H. reflexivity.
Qed.

(** An occurrence is found at or before any given one. *)
Lemma find_at_before (sub pre post : str) (pos : nat) :
  exists i, find_at sub (pre ++ sub ++ post) pos = Some i
            /\ pos <= i <= pos + length pre.
Proof.
  revert pos. induction pre as [|c pre IH]; intro pos.
  - exists pos. cbn [app length]. rewrite find_at_here. split; [reflexivity | lia].
  - cbn [app find_at].
    destruct (is_prefix sub (c :: pre ++ sub ++ post)).
    + exists pos. split; [reflexivity | cbn [length]; lia].
    + destruct (IH (S pos)) as (i & Hi & Hb). exists i.
      split; [exact Hi | cbn [length]; lia].
Qed.

Lemma rfind_at_none (a : ascii) (s : str) (pos : nat) :
  forallb (fun c => negb (Ascii.eqb a c)) s = true ->
  rfind_at [a] s pos = None.
Proof.
  revert pos. induction s as [|c s IH]; intros pos H; [reflexivity|].
  cbn [forallb] in H. apply andb_true_iff in H. destruct H as (Hc & Hs).
  apply negb_true_iff in Hc. cbn [rfind_at is_prefix].
  rewrite (IH (S pos) Hs), Hc. reflexivity.
Qed.

Lemma rfind_at_last (a : ascii) (pre post : str) (pos : nat) :
  forallb (fun c => negb (Ascii.eqb a c)) post = true ->
  rfind_at [a] (pre ++ a :: post) pos = Some (pos + length pre).
Proof.
  intro H. revert pos. induction pre as [|c pre IH]; intro pos.
  - cbn [app rfind_at is_prefix length].
    rewrite (rfind_at_none a post (S pos) H), Ascii.eqb_refl.
    rewrite Nat.add_0_r. reflexivity.
  - cbn [app rfind_at]. rewrite (IH (S pos)). cbn [length]. f_equal. lia.
Qed.

Lemma ws_run_app (ws rest : str) :
  forallb is_space ws = true ->
  ws_run (ws ++ rest) = length ws + ws_run rest.
Proof.
  induction ws as [|c ws IH]; intro H; [reflexivity|].
  cbn [forallb] in H. apply andb_true_iff in H. destruct H as (Hc & Hw).
  cbn [app ws_run length]. rewrite Hc, (IH Hw). reflexivity.
Qed.

Lemma skipn_app_length {A} (l1 l2 : list A) :
  skipn (length l1) (l1 ++ l2) = l2.
Proof.
  rewrite skipn_app, skipn_all, Nat.sub_diag. reflexivity.
Qed.

Lemma lstrip_app (ws rest : str) :
  forallb is_space ws = true -> lstrip (ws ++ rest) = lstrip rest.
Proof.
  induction ws as [|c ws IH]; intro H; [reflexivity|].
  cbn [forallb] in H. apply andb_true_iff in H. destruct H as (Hc & Hw).
  cbn [app lstrip]. rewrite Hc. exact (IH Hw).
Qed.

Lemma lstrip_chars_app (chars q rest : str) :
  forallb (char_in chars) q = true ->
  lstrip_chars chars (q ++ rest) = lstrip_chars chars rest.
Proof.
  induction q as [|c q IH]; intro H; [reflexivity|].
  cbn [forallb] in H. apply andb_true_iff in H. destruct H as (Hc & Hq).
  cbn [app lstrip_chars]. rewrite Hc. exact (IH Hq).
Qed.

Lemma forallb_rev {A} (f : A -> bool) (l : list A) :
  forallb f (rev l) = forallb f l.
Proof.
  induction l as [|a l IH]; [reflexivity|].
  cbn [rev forallb]. rewrite forallb_app, IH. cbn [forallb].
  rewrite andb_true_r. apply andb_comm.
Qed.

(** Stripping a text wrapped in strippable characters gives the text,
    when it neither starts nor ends with one. *)
Lemma strip_chars_wrapped (chars q1 q2 body r r' : str) (c c' : ascii) :
  forallb (char_in chars) q1 = true ->
  forallb (char_in chars) q2 = true ->
  body = c :: r -> body = r' ++ [c'] ->
  char_in chars c = false -> char_in chars c' = false ->
  strip_chars chars (q1 ++ body ++ q2) = body.
Proof.
  intros H1 H2 Hb Hb' Hc Hc'. unfold strip_chars.
  rewrite lstrip_chars_app by exact H1.
  assert (E : lstrip_chars chars (body ++ q2) = body ++ q2).
  { rewrite Hb. cbn [app lstrip_chars]. rewrite Hc. reflexivity. }
  rewrite E, rev_app_distr.
  rewrite lstrip_chars_app by (rewrite forallb_rev; exact H2).
  rewrite Hb' at 1. rewrite rev_app_distr. cbn [rev app lstrip_chars].
  rewrite Hc'. cbn [rev]. rewrite rev_involutive. symmetry. exact Hb'.
Qed.

Lemma strip_wrapped (ws1 ws2 body r r' : str) (c c' : ascii) :
  forallb is_space ws1 = true ->
  forallb is_space ws2 = true ->
  body = c :: r -> body = r' ++ [c'] ->
  is_space c = false -> is_space c' = false ->
  strip (ws1 ++ body ++ ws2) = body.
Proof.
  intros H1 H2 Hb Hb' Hc Hc'. unfold strip, rstrip.
  rewrite lstrip_app by exact H1.
  assert (E : lstrip (body ++ ws2) = body ++ ws2).
  { rewrite Hb. cbn [app lstrip]. rewrite Hc. reflexivity. }
  rewrite E, rev_app_distr.
  rewrite lstrip_app by (rewrite forallb_rev; exact H2).
  rewrite Hb' at 1. rewrite rev_app_distr. cbn [rev app lstrip].
  rewrite Hc'. cbn [rev]. rewrite rev_involutive. symmetry. exact Hb'.
Qed.

End TextFacts.

(** * The API key *)

(** X13. A key wrapped in single quotes outside double quotes, any number
    of each, with whitespace around, is unwrapped to the key itself when the
    key neither starts nor ends with a quote or whitespace. *)
Theorem api_key_unwrapped (ws1 sq1 dq1 key dq2 sq2 ws2 r r' : str)
    (c c' : ascii) :
  forallb is_space ws1 = true -> forallb is_space ws2 = true ->
  forallb (Ascii.eqb single_quote) sq1 = true ->
  forallb (Ascii.eqb single_quote) sq2 = true ->
  forallb (Ascii.eqb double_quote) dq1 = true ->
  forallb (Ascii.eqb double_quote) dq2 = true ->
  key = c :: r -> key = r' ++ [c'] ->
  is_space c || Text.char_in [single_quote; double_quote] c = false ->
  is_space c' || Text.char_in [single_quote; double_quote] c' = false ->
  clean_api_key (Some (ws1 ++ sq1 ++ dq1 ++ key ++ dq2 ++ sq2 ++ ws2))
  = Some key.
Proof.
  intros Hw1 Hw2 Hs1 Hs2 Hd1 Hd2 Hk Hk' Hc Hc'.
  apply orb_false_iff in Hc. destruct Hc as (Hcs & Hcq).
  apply orb_false_iff in Hc'. destruct Hc' as (Hcs' & Hcq').
  unfold Text.char_in in Hcq, Hcq'. cbn [existsb] in Hcq, Hcq'.
  rewrite orb_false_r in Hcq, Hcq'.
  apply orb_false_iff in Hcq. destruct Hcq as (Hc1 & Hc2).
  apply orb_false_iff in Hcq'. destruct Hcq' as (Hc1' & Hc2').
  assert (Hsp : forall q, forallb (Ascii.eqb single_quote) q = true
                          \/ forallb (Ascii.eqb double_quote) q = true ->
                          forallb (fun x => negb (is_space x)) q = true).
  { intros q Hq. apply forallb_forall. intros x Hx.
    destruct Hq as [Hq|Hq]; rewrite forallb_forall in Hq;
      specialize (Hq x Hx); apply Ascii.eqb_eq in Hq; subst x; reflexivity. }
  assert (Hin : forall a q, forallb (Ascii.eqb a) q = true ->
                            forallb (Text.char_in [a]) q = true).
  { intros a q Hq. apply forallb_forall. intros x Hx.
    rewrite forallb_forall in Hq. specialize (Hq x Hx).
    apply Ascii.eqb_eq in Hq. subst x. unfold Text.char_in. cbn [existsb].
    rewrite Ascii.eqb_refl. reflexivity. }
  set (inner := dq1 ++ key ++ dq2).
  set (mid := sq1 ++ inner ++ sq2).
  assert (Hmid_nonempty : exists m ms, mid = m :: ms /\ is_space m = false).
  { unfold mid, inner. rewrite Hk.
    destruct sq1 as [|s sq1]; [destruct dq1 as [|d dq1]|].
    - exists c. eexists. split; [reflexivity | exact Hcs].
    - exists d. eexists. split; [reflexivity|].
      cbn [forallb] in Hd1. apply andb_true_iff in Hd1.
      destruct Hd1 as (Hd & _). apply Ascii.eqb_eq in Hd. subst d.
      reflexivity.
    - exists s. eexists. split; [reflexivity|].
      cbn [forallb] in Hs1. apply andb_true_iff in Hs1.
      destruct Hs1 as (Hs & _). apply Ascii.eqb_eq in Hs. subst s.
      reflexivity. }
  assert (Hmid_last : exists ms m, mid = ms ++ [m] /\ is_space m = false).
  { unfold mid, inner. rewrite Hk'.
    destruct (rev sq2) as [|s rsq2] eqn:E2;
      [destruct (rev dq2) as [|d rdq2] eqn:Ed|].
    - apply (f_equal (@rev ascii)) in E2, Ed.
      rewrite rev_involutive in E2, Ed. cbn in E2, Ed. subst sq2 dq2.
      exists (sq1 ++ dq1 ++ r'), c'. rewrite !app_nil_r, <- !app_assoc.
      split; [reflexivity | exact Hcs'].
    - apply (f_equal (@rev ascii)) in E2, Ed.
      rewrite rev_involutive in E2, Ed. cbn [rev] in E2, Ed. subst sq2 dq2.
      exists (sq1 ++ dq1 ++ (r' ++ [c']) ++ rev rdq2), d.
      rewrite !app_nil_r, <- !app_assoc. split; [reflexivity|].
      rewrite forallb_app in Hd2. apply andb_true_iff in Hd2.
      destruct Hd2 as (_ & Hd). cbn [forallb] in Hd.
      rewrite andb_true_r in Hd. apply Ascii.eqb_eq in Hd. subst d.
      reflexivity.
    - apply (f_equal (@rev ascii)) in E2.
      rewrite rev_involutive in E2. cbn [rev] in E2. subst sq2.
      exists (sq1 ++ (dq1 ++ (r' ++ [c']) ++ dq2) ++ rev rsq2), s.
      rewrite <- !app_assoc. split; [reflexivity|].
      rewrite forallb_app in Hs2. apply andb_true_iff in Hs2.
      destruct Hs2 as (_ & Hs). cbn [forallb] in Hs.
      rewrite andb_true_r in Hs. apply Ascii.eqb_eq in Hs. subst s.
      reflexivity. }
  destruct Hmid_nonempty as (m & ms & Hm & Hms).
  destruct Hmid_last as (ms' & m' & Hm' & Hms').
  assert (Hstrip : strip (ws1 ++ mid ++ ws2) = mid)
    by exact (TextFacts.strip_wrapped ws1 ws2 mid ms ms' m m'
                Hw1 Hw2 Hm Hm' Hms Hms').
  assert (Hinput : ws1 ++ sq1 ++ dq1 ++ key ++ dq2 ++ sq2 ++ ws2
                   = ws1 ++ mid ++ ws2).
  { unfold mid, inner. rewrite <- !app_assoc. reflexivity. }
  rewrite Hinput.
  assert (Hne : exists x xs, ws1 ++ mid ++ ws2 = x :: xs).
  { rewrite Hm. destruct ws1; eexists; eexists; reflexivity. }
  destruct Hne as (x & xs & Hx). unfold clean_api_key. rewrite Hx, <- Hx.
  rewrite Hstrip. f_equal.
  assert (Hinner_first : exists i is_, inner = i :: is_
                                       /\ Text.char_in [single_quote] i = false).
  { unfold inner. rewrite Hk. destruct dq1 as [|d dq1].
    - exists c. eexists. split; [reflexivity|].
      unfold Text.char_in. cbn [existsb]. rewrite Hc1. reflexivity.
    - exists d. eexists. split; [reflexivity|].
      cbn [forallb] in Hd1. apply andb_true_iff in Hd1.
      destruct Hd1 as (Hd & _). apply Ascii.eqb_eq in Hd. subst d.
      reflexivity. }
  assert (Hinner_last : exists is_ i, inner = is_ ++ [i]
                                      /\ Text.char_in [single_quote] i = false).
  { unfold inner. rewrite Hk'. destruct (rev dq2) as [|d rdq2] eqn:Ed.
    - apply (f_equal (@rev ascii)) in Ed. rewrite rev_involutive in Ed.
      cbn in Ed. subst dq2. exists (dq1 ++ r'), c'.
      rewrite app_nil_r, <- app_assoc. split; [reflexivity|].
      unfold Text.char_in. cbn [existsb]. rewrite Hc1'. reflexivity.
    - apply (f_equal (@rev ascii)) in Ed. rewrite rev_involutive in Ed.
      cbn [rev] in Ed. subst dq2.
      exists (dq1 ++ (r' ++ [c']) ++ rev rdq2), d.
      rewrite <- !app_assoc. split; [reflexivity|].
      rewrite forallb_app in Hd2. apply andb_true_iff in Hd2.
      destruct Hd2 as (_ & Hd). cbn [forallb] in Hd.
      rewrite andb_true_r in Hd. apply Ascii.eqb_eq in Hd. subst d.
      reflexivity. }
  destruct Hinner_first as (i & is_ & Hi & Hiq).
  destruct Hinner_last as (is' & i' & Hi' & Hiq').
  unfold mid.
  rewrite (TextFacts.strip_chars_wrapped [single_quote] sq1 sq2 inner
             is_ is' i i' (Hin _ _ Hs1) (Hin _ _ Hs2) Hi Hi' Hiq Hiq').
  unfold inner.
  apply (TextFacts.strip_chars_wrapped [double_quote] dq1 dq2 key r r' c c'
           (Hin _ _ Hd1) (Hin _ _ Hd2) Hk Hk').
  - unfold Text.char_in. cbn [existsb]. rewrite Hc2. reflexivity.
  - unfold Text.char_in. cbn [existsb]. rewrite Hc2'. reflexivity.
Qed.

(** * The JSON block of the answer *)

Module AnswerFacts.
Import Json Text TextFacts Answer.

Lemma fence_eq : fence = backquote :: [backquote; backquote].
Proof. reflexivity. Qed.

Lemma slice_at {A} (pre a post : list A) :
  slice (pre ++ a ++ post) (length pre) (length pre + length a) = a.
Proof.
  unfold slice. rewrite skipn_app_length.
  replace (length pre + length a - length pre) with (length a) by lia.
  rewrite firstn_app, firstn_all, Nat.sub_diag. cbn. apply app_nil_r.
Qed.

(** X14. A fenced block is extracted as it stands: for an answer made of a
    stretch without backquote, a fence, the optional tag "json", whitespace,
    a body without backquote that does not start with whitespace, and a
    closing fence, [json_str] is the body, whatever follows. An empty
    body gives the empty string even when braces follow. *)
Theorem fenced_block_is_extracted (pre ws body post : str) (tagged : bool) :
  let tag := if tagged then lit "json" else [] in
  forallb (fun c => negb (Ascii.eqb backquote c)) pre = true ->
  forallb (fun c => negb (Ascii.eqb backquote c)) body = true ->
  forallb is_space ws = true ->
  ws_run body = 0 ->
  (tagged = false ->
   is_prefix (lit "json") (ws ++ body ++ fence ++ post) = false) ->
  json_str (pre ++ fence ++ tag ++ ws ++ body ++ fence ++ post) = body.
Proof.
  intros tag Hpre Hbody Hws Hrun Htag.
  set (t := pre ++ fence ++ tag ++ ws ++ body ++ fence ++ post).
  assert (Hp : find fence t 0 = Some (length pre)).
  { unfold find, t. cbn [skipn]. rewrite fence_eq at 1.
    rewrite find_at_skip by exact Hpre. rewrite <- fence_eq.
    apply find_at_here. }
  assert (Hskip : skipn (length pre + 3) t
                  = tag ++ ws ++ body ++ fence ++ post).
  { unfold t. rewrite app_assoc.
    replace (length pre + 3) with (length (pre ++ fence))
      by (rewrite length_app; reflexivity).
    apply skipn_app_length. }
  assert (Htl : (if is_prefix (lit "json") (skipn (length pre + 3) t)
                 then 4 else 0) = length tag).
  { rewrite Hskip. unfold tag. destruct tagged.
    - rewrite is_prefix_app. reflexivity.
    - cbn [app]. rewrite (Htag eq_refl). reflexivity. }
  assert (Hskip2 : skipn (length pre + 3 + length tag) t
                   = ws ++ body ++ fence ++ post).
  { unfold t. rewrite (app_assoc pre), (app_assoc (pre ++ fence)).
    replace (length pre + 3 + length tag)
      with (length ((pre ++ fence) ++ tag))
      by (rewrite !length_app; reflexivity).
    apply skipn_app_length. }
  assert (Hrun2 : ws_run (body ++ fence ++ post) = 0).
  { destruct body as [|b body]; [reflexivity|].
    cbn [app ws_run] in *. destruct (is_space b); [discriminate | reflexivity]. }
  set (q := length pre + 3 + length tag + length ws).
  assert (Hskip3 : skipn q t = body ++ fence ++ post).
  { unfold t, q.
    rewrite (app_assoc pre), (app_assoc (pre ++ fence)),
      (app_assoc ((pre ++ fence) ++ tag)).
    replace (length pre + 3 + length tag + length ws)
      with (length (((pre ++ fence) ++ tag) ++ ws))
      by (rewrite !length_app; reflexivity).
    apply skipn_app_length. }
  assert (Hr : find fence t q = Some (q + length body)).
  { unfold find. rewrite Hskip3. rewrite fence_eq at 1.
    rewrite find_at_skip by exact Hbody. rewrite <- fence_eq.
    apply find_at_here. }
  unfold json_str, json_match. rewrite Hp. cbv zeta. rewrite Htl, Hskip2.
  rewrite ws_run_app by exact Hws. rewrite Hrun2, Nat.add_0_r.
  fold q. rewrite Hr. unfold t, q.
  rewrite (app_assoc pre), (app_assoc (pre ++ fence)),
    (app_assoc ((pre ++ fence) ++ tag)).
  replace (length pre + 3 + length tag + length ws)
    with (length (((pre ++ fence) ++ tag) ++ ws))
    by (rewrite !length_app; reflexivity).
  apply slice_at.
Qed.

Lemma no_fence_no_match (t : str) :
  forallb (fun c => negb (Ascii.eqb backquote c)) t = true ->
  json_match t = None.
Proof.
  intro H. unfold json_match, find. cbn [skipn]. rewrite fence_eq.
  rewrite find_at_none by exact H. reflexivity.
Qed.

(** X15. Without any backquote in the answer, [json_str] is the text from
    the first opening brace to the last closing brace, both included; and
    it is empty when the answer has no opening brace or no closing brace. *)
Theorem braces_fallback (t : str) :
  forallb (fun c => negb (Ascii.eqb backquote c)) t = true ->
  (forall pre mid post,
      t = pre ++ "{"%char :: mid ++ "}"%char :: post ->
      forallb (fun c => negb (Ascii.eqb "{"%char c)) pre = true ->
      forallb (fun c => negb (Ascii.eqb "}"%char c)) post = true ->
      json_str t = "{"%char :: mid ++ ["}"%char])
  /\ (forallb (fun c => negb (Ascii.eqb "{"%char c)) t = true
      \/ forallb (fun c => negb (Ascii.eqb "}"%char c)) t = true ->
      json_str t = []).
Proof.
  intro Hbq. pose proof (no_fence_no_match t Hbq) as Hm. split.
  - intros pre mid post -> Hpre Hpost.
    unfold json_str. rewrite Hm.
    assert (Hs : find (lit "{") (pre ++ "{"%char :: mid ++ "}"%char :: post) 0
                 = Some (length pre)).
    { unfold find. cbn [skipn]. change (lit "{") with ["{"%char].
      rewrite find_at_skip by exact Hpre.
      exact (find_at_here ["{"%char] (mid ++ "}"%char :: post) _). }
    assert (He : rfind (lit "}") (pre ++ "{"%char :: mid ++ "}"%char :: post)
                 = Some (length pre + S (length mid))).
    { unfold rfind. change (lit "}") with ["}"%char].
      change (pre ++ "{"%char :: mid ++ "}"%char :: post)
        with (pre ++ ("{"%char :: mid) ++ "}"%char :: post).
      rewrite app_assoc, rfind_at_last by exact Hpost.
      rewrite length_app. reflexivity. }
    rewrite Hs, He.
    change (pre ++ "{"%char :: mid ++ "}"%char :: post)
      with (pre ++ ("{"%char :: mid ++ "}"%char :: post)).
    replace ("{"%char :: mid ++ "}"%char :: post)
      with (("{"%char :: mid ++ ["}"%char]) ++ post)
      by (cbn [app]; rewrite <- app_assoc; reflexivity).
    replace (length pre + S (length mid) + 1)
      with (length pre + length ("{"%char :: mid ++ ["}"%char]))
      by (cbn [length]; rewrite length_app; cbn [length]; lia).
    apply slice_at.
  - intros [H|H]; unfold json_str; rewrite Hm.
    + unfold find. cbn [skipn]. change (lit "{") with ["{"%char].
      rewrite find_at_none by exact H. reflexivity.
    + unfold rfind. change (lit "}") with ["}"%char].
      rewrite rfind_at_none by exact H.
      destruct (find (lit "{") t 0); reflexivity.
Qed.

End AnswerFacts.

(** * [smart_clean_name] *)

Module NamesFacts.
Import Json Text TextFacts Names.

Lemma drop_digits_app (d rest : str) :
  forallb is_digit d = true ->
  drop_digits (d ++ rest) = drop_digits rest.
Proof.
  induction d as [|c d IH]; intro H; [reflexivity|].
  cbn [forallb] in H. apply andb_true_iff in H. destruct H as (Hc & Hd).
  cbn [app drop_digits]. rewrite Hc. exact (IH Hd).
Qed.

Lemma after_digits_app (c : ascii) (d rest : str) :
  forallb is_digit (c :: d) = true ->
  after_digits ((c :: d) ++ rest) = Some (drop_digits rest).
Proof.
  intro H. cbn [forallb] in H. apply andb_true_iff in H.
  destruct H as (Hc & Hd). cbn [app after_digits]. rewrite Hc.
  rewrite drop_digits_app by exact Hd. reflexivity.
Qed.

Lemma remove_plain (a rest : str) :
  forallb (fun c => negb (Ascii.eqb c "("%char)) a = true ->
  remove_synthetic_from (a ++ rest) 0 = a ++ remove_synthetic_from rest 0.
Proof.
  induction a as [|c a IH]; intro H; [reflexivity|].
  cbn [forallb] in H. apply andb_true_iff in H. destruct H as (Hc & Ha).
  apply negb_true_iff in Hc. cbn [app remove_synthetic_from].
  rewrite Hc, (IH Ha). reflexivity.
Qed.

Lemma remove_skip (x rest : str) :
  remove_synthetic_from (x ++ rest) (length x)
  = remove_synthetic_from rest 0.
Proof.
  induction x as [|c x IH]; [reflexivity|]. exact IH.
Qed.

Lemma line_of_app (x rest : str) :
  forallb (fun c => negb (Ascii.eqb c newline)) x = true ->
  line_of (x ++ rest) = x ++ line_of rest.
Proof.
  induction x as [|c x IH]; intro H; [reflexivity|].
  cbn [forallb] in H. apply andb_true_iff in H. destruct H as (Hc & Hx).
  apply negb_true_iff in Hc. cbn [app line_of]. rewrite Hc, (IH Hx).
  reflexivity.
Qed.

(** X16. A name that does not start with a digit and has no opening
    parenthesis is only stripped of the whitespace around it. *)
Theorem plain_name_is_stripped (name : str) :
  after_digits name = None ->
  forallb (fun c => negb (Ascii.eqb c "("%char)) name = true ->
  smart_clean_name name = strip name.
Proof.
  intros Hd Hp. unfold smart_clean_name, strip_locant, remove_synthetic.
  rewrite Hd. rewrite <- (app_nil_r name) at 1.
  rewrite remove_plain by exact Hp. cbn [remove_synthetic_from].
  rewrite app_nil_r. reflexivity.
Qed.

(** X17. A locant prefix is cut off: digits, a dot or a comma, digits and
    a hyphen at the very start of the name are removed, so that
    "2,3-butanediol" is cleaned like "butanediol". *)
Theorem locant_prefix_is_cut (c1 c2 sep : ascii) (d1 d2 rest : str) :
  forallb is_digit (c1 :: d1) = true ->
  forallb is_digit (c2 :: d2) = true ->
  char_in (lit ".,") sep = true ->
  smart_clean_name ((c1 :: d1) ++ sep :: (c2 :: d2) ++ "-"%char :: rest)
  = strip (remove_synthetic rest).
Proof.
  intros H1 H2 Hsep. unfold smart_clean_name. f_equal. f_equal.
  unfold strip_locant. rewrite after_digits_app by exact H1.
  assert (Hnd : is_digit sep = false).
  { unfold char_in in Hsep. cbn [lit list_ascii_of_string existsb] in Hsep.
    rewrite orb_false_r in Hsep. apply orb_true_iff in Hsep.
    destruct Hsep as [E|E]; apply Ascii.eqb_eq in E; subst sep; reflexivity. }
  cbn [drop_digits]. rewrite Hnd, Hsep.
  rewrite after_digits_app by exact H2. reflexivity.
Qed.

(** X18. A parenthesis holding the word "synthetic", in any letter case,
    is removed with all it holds: for a name [a ( x syn y ) b] where [a] has
    no opening parenthesis, [syn] lower-cases to "synthetic" and [x syn y]
    has neither a closing parenthesis nor a newline, the removal leaves [a]
    followed by what it leaves of [b]. *)
Theorem synthetic_parenthesis_is_removed (a x syn y b : str) :
  forallb (fun c => negb (Ascii.eqb c "("%char)) a = true ->
  lower syn = lit "synthetic" ->
  forallb (fun c => negb (Ascii.eqb ")"%char c)) (x ++ syn ++ y) = true ->
  forallb (fun c => negb (Ascii.eqb c newline)) (x ++ syn ++ y) = true ->
  remove_synthetic (a ++ "("%char :: x ++ syn ++ y ++ ")"%char :: b)
  = a ++ remove_synthetic b.
Proof.
  intros Ha Hsyn Hclose Hnl. unfold remove_synthetic.
  rewrite remove_plain by exact Ha. f_equal.
  cbn [remove_synthetic_from]. rewrite Ascii.eqb_refl.
  set (inner := x ++ syn ++ y) in *.
  assert (Hrest : x ++ syn ++ y ++ ")"%char :: b = inner ++ ")"%char :: b)
    by (unfold inner; rewrite <- !app_assoc; reflexivity).
  rewrite Hrest.
  assert (Hline : line_of (inner ++ ")"%char :: b)
                  = inner ++ ")"%char :: line_of b).
  { rewrite line_of_app by exact Hnl. reflexivity. }
  assert (Hlen : length syn = 9).
  { apply (f_equal (@length ascii)) in Hsyn. unfold lower in Hsyn.
    rewrite length_map in Hsyn. exact Hsyn. }
  assert (Hfind : exists i,
             find_ci (lit "synthetic") (inner ++ ")"%char :: line_of b)
             = Some i /\ i <= length x).
  { unfold find_ci, inner. unfold lower.
    rewrite <- !app_assoc, !map_app. fold (lower x). fold (lower syn).
    rewrite Hsyn.
    destruct (find_at_before (lit "synthetic") (lower x)
                (map lower_char y
                 ++ map lower_char (")"%char :: line_of b)) 0)
      as (i & Hi & Hb).
    exists i. split; [exact Hi|].
    unfold lower in Hb. rewrite length_map in Hb. lia. }
  destruct Hfind as (i & Hi & Hle).
  assert (Hinner : length inner = length x + 9 + length y)
    by (unfold inner; rewrite !length_app; lia).
  assert (Hj : find (lit ")") (inner ++ ")"%char :: line_of b) (i + 9)
               = Some (length inner)).
  { unfold find. change (lit ")") with [")"%char].
    rewrite skipn_app.
    replace (i + 9 - length inner) with 0 by lia. cbn [skipn].
    rewrite find_at_skip.
    - cbn [find_at is_prefix]. rewrite Ascii.eqb_refl. cbn [andb].
      f_equal. rewrite length_skipn. lia.
    - apply forallb_forall. intros c Hc.
      rewrite forallb_forall in Hclose. apply Hclose.
      rewrite <- (firstn_skipn (i + 9) inner). apply in_or_app. right.
      exact Hc. }
  unfold synthetic_match. rewrite Hline, Hi, Hj.
  replace (length inner + 1) with (length (inner ++ [")"%char]))
    by (rewrite length_app; reflexivity).
  replace (inner ++ ")"%char :: b) with ((inner ++ [")"%char]) ++ b)
    by (rewrite <- app_assoc; reflexivity).
  apply remove_skip.
Qed.

End NamesFacts.

(** * [generate_graphviz_dot] *)

Module GraphFacts.
Import Json Text Names Graph.

Lemma for_lines_fail {A} (body : A -> error + list str) (l : list A)
    (x : A) (e : error) :
  In x l -> body x = inl e -> exists e', for_lines body l = inl e'.
Proof.
  induction l as [|y l IH]; intros Hin Hx; [destruct Hin|].
  cbn [for_lines]. destruct (body y) as [e0|lines] eqn:Ey.
  - exists e0. reflexivity.
  - destruct Hin as [->|Hin]; [congruence|].
    destruct (IH Hin Hx) as (e' & He'). exists e'. cbn [ebind].
    rewrite He'. reflexivity.
Qed.

Lemma for_lines_all {A} (body : A -> error + list str)
    (f : A -> list str) (l : list A) :
  (forall x, In x l -> body x = inr (f x)) ->
  for_lines body l = inr (flat_map f l).
Proof.
  induction l as [|y l IH]; intro H; [reflexivity|].
  cbn [for_lines flat_map]. rewrite (H y (or_introl eq_refl)).
  cbn [ebind]. rewrite IH by (intros x Hx; apply H; right; exact Hx).
  reflexivity.
Qed.

Lemma in_enumerate_exists {A} (l : list A) (x : A) :
  In x l -> exists i, In (i, x) (enumerate l).
Proof.
  unfold enumerate. generalize 0.
  induction l as [|y l IH]; intros a Hin; [destruct Hin|].
  cbn [length seq combine]. destruct Hin as [->|Hin].
  - exists a. left. reflexivity.
  - destruct (IH (S a) Hin) as (i & Hi). exists i. right. exact Hi.
Qed.

Lemma flat_map_filter_length {A B} (keep : A -> bool) (f : A -> list B)
    (l : list A) (n : nat) :
  (forall x, length (f x) = n) ->
  length (flat_map f (filter keep l)) = n * length (filter keep l).
Proof.
  intro H. induction (filter keep l) as [|x r IH]; [cbn; lia|].
  cbn [flat_map length]. rewrite length_app, H, IH. lia.
Qed.

Section WithBuiltins.

Context {B : Builtins}.

(** The lines of the string metabolites of one side of a reaction. *)
Lemma metabolite_loop (rxn_id : str) (is_substrate : bool)
    (names : list str) :
  for_lines (metabolite_lines rxn_id is_substrate) (map JStr names)
  = inr (flat_map
           (fun s =>
              let s_clean := smart_clean_name s in
              let s_id := lit "met_" ++ decimal (Z.abs_N (hash s_clean)) in
              [metabolite_node s_id s_clean;
               if is_substrate then edge s_id rxn_id else edge rxn_id s_id])
           (filter (fun s => negb (excluded (smart_clean_name s))) names)).
Proof.
  induction names as [|s names IH]; [reflexivity|].
  cbn [map for_lines metabolite_lines filter]. rewrite IH.
  destruct (excluded (smart_clean_name s)); reflexivity.
Qed.

(** X19. A reaction with a string enzyme and non-empty lists of string
    substrates and products gives its own node, then, for every substrate
    and then every product whose cleaned name is not an excluded cofactor,
    a box and an edge: one line more than twice the number of kept
    metabolites. An excluded cofactor gives no line at all. *)
Theorem reaction_lines_of_strings (i : nat) (r : list (str * json))
    (ss ps : list str) (enzyme : str) :
  lookup r (lit "substrates") = Some (JList (map JStr ss)) ->
  lookup r (lit "products") = Some (JList (map JStr ps)) ->
  lookup r (lit "enzyme") = Some (JStr enzyme) ->
  ss <> [] -> ps <> [] ->
  let kept := filter (fun s => negb (excluded (smart_clean_name s))) in
  let rxn_id := lit "rxn_" ++ decimal (N.of_nat i) in
  let met_id := fun s =>
    lit "met_" ++ decimal (Z.abs_N (hash (smart_clean_name s))) in
  exists lines,
    reaction_lines (i, JDict r) = inr lines
    /\ lines =
       reaction_node rxn_id (remove_all (lit " activity") enzyme)
       :: flat_map (fun s => [metabolite_node (met_id s) (smart_clean_name s);
                              edge (met_id s) rxn_id]) (kept ss)
       ++ flat_map (fun s => [metabolite_node (met_id s) (smart_clean_name s);
                              edge rxn_id (met_id s)]) (kept ps)
    /\ length lines = 1 + 2 * (length (kept ss) + length (kept ps)).
Proof.
  intros Hs Hp He Hss Hps kept rxn_id met_id.
  eexists. split; [|split; [reflexivity|]].
  - unfold reaction_lines. cbn [get ebind]. rewrite Hs, Hp, He.
    assert (Hts : truthy (JList (map JStr ss)) = true)
      by (destruct ss; [congruence | reflexivity]).
    assert (Htp : truthy (JList (map JStr ps)) = true)
      by (destruct ps; [congruence | reflexivity]).
    rewrite Hts, Htp. cbn [negb orb enzyme_label ebind py_str iterate].
    rewrite !metabolite_loop. cbn [ebind]. reflexivity.
  - subst kept. cbv beta. cbn [length]. rewrite length_app.
    rewrite !(flat_map_filter_length _ _ _ 2) by reflexivity.
    lia.
Qed.

(** X20. One malformed reaction loses the whole graph: when the
    'reactions' list holds a reaction that is not a dict, or a dict
    reaction whose list of substrates holds an element that is not a string
    (its products being non-empty), the function returns [None] and shows
    one error. *)
Theorem malformed_reaction_loses_graph (d : list (str * json))
    (l : list json) (rxn : json) :
  lookup d (lit "reactions") = Some (JList l) ->
  In rxn l ->
  ((forall r, rxn <> JDict r)
   \/ exists r ss ps x,
        rxn = JDict r
        /\ lookup r (lit "substrates") = Some (JList ss)
        /\ lookup r (lit "products") = Some ps
        /\ truthy ps = true
        /\ In x ss
        /\ forall s, x <> JStr s) ->
  exists e, generate_graphviz_dot (JDict d) = (None, [e]).
Proof.
  intros Hd Hin Hbad.
  destruct (in_enumerate_exists l rxn Hin) as (i & Hi).
  assert (Hfail : exists e, reaction_lines (i, rxn) = inl e).
  { destruct Hbad as [Hnd|(r & ss & ps & x & -> & Hs & Hp & Htp & Hx & Hns)].
    - unfold reaction_lines.
      destruct rxn; try (eexists; reflexivity).
      destruct (Hnd d0 eq_refl).
    - unfold reaction_lines. cbn [get ebind]. rewrite Hs, Hp.
      assert (Hts : truthy (JList ss) = true)
        by (destruct ss; [destruct Hx | reflexivity]).
      rewrite Hts, Htp. cbn [negb orb].
      destruct (enzyme_label _) as [e|label]; [exists e; reflexivity|].
      cbn [ebind iterate].
      destruct (for_lines_fail
                  (metabolite_lines (lit "rxn_" ++ decimal (N.of_nat i)) true)
                  ss x (TypeError (lit "expected string or bytes-like object")) Hx)
        as (e & He).
      { destruct x; try reflexivity. destruct (Hns s eq_refl). }
      exists e. rewrite He. reflexivity. }
  destruct Hfail as (e & He).
  destruct (for_lines_fail reaction_lines (enumerate l) (i, rxn) e Hi He)
    as (e' & He').
  exists e'. unfold generate_graphviz_dot, graph_lines.
  cbn [ebind contains getitem]. rewrite Hd. cbn [ebind iterate].
  rewrite He'. reflexivity.
Qed.

Lemma join_with_cons (sep w : str) (l : list str) :
  l <> [] -> join_with sep (w :: l) = w ++ sep ++ join_with sep l.
Proof. destruct l; [congruence | reflexivity]. Qed.

(** X21. The DPI line always lands right after the first line: whatever
    the labels hold, the high-resolution DOT text of a generated graph is
    the graph with "  dpi=300;" inserted as its second line. *)
Theorem dpi_follows_the_header (json_data : json) (dot_code : str)
    (shown : list error) :
  generate_graphviz_dot json_data = (Some dot_code, shown) ->
  exists rest,
    dot_code = lit "digraph MetabolicPathway {" ++ newline :: rest
    /\ dot_code_high_res dot_code
       = lit "digraph MetabolicPathway {" ++ newline :: lit "  dpi=300;"
         ++ newline :: rest.
Proof.
  unfold generate_graphviz_dot. intro H.
  destruct (graph_lines json_data) as [e|dot] eqn:Hg; [discriminate|].
  inversion H; subst dot_code shown. clear H.
  assert (Hdot : exists tl, tl <> []
                   /\ dot = lit "digraph MetabolicPathway {" :: tl).
  { unfold graph_lines in Hg.
    destruct (match json_data with
              | JDict _ => inr json_data
              | JStr s => json_loads s
              | _ => inl (TypeError (lit "the JSON object must be str"))
              end) as [e|data]; [discriminate|].
    cbn [ebind] in Hg.
    destruct (contains (lit "reactions") data) as [e|has]; [discriminate|].
    cbn [ebind] in Hg.
    destruct (if has then _ else _) as [e|body]; [discriminate|].
    cbn [ebind] in Hg. inversion Hg.
    eexists. split; [|reflexivity]. discriminate. }
  destruct Hdot as (tl & Htl & ->).
  exists (join_with [newline] tl).
  rewrite join_with_cons by exact Htl. split; reflexivity.
Qed.

End WithBuiltins.

End GraphFacts.

(** * Worked instances of the further properties *)

Module MoreInstances.
Import Sample.


Lemma match_size_bounds_witness :
  accepted_match 85 page1 (lit "liver converts glucose") = Some (1, 4)
  /\ Nat.max 1 (length (split (lit "liver converts glucose")) - 2) <= 4 - 1
  /\ 4 - 1 <= length (split (lit "liver converts glucose")) + 4
  /\ 4 <= length page1.
Proof.
  split; [vm_compute; reflexivity|].
  apply (match_size_bounds 85 page1 (lit "liver converts glucose") 1 4).
  vm_compute. reflexivity.
Defined.

(** With an entry whose text is [None] in the list, the one highlight that
    is returned is on page 1. *)
Lemma malformed_entry_keeps_first_page_only_witness :
  let text_quotes :=
    [evidence "liver converts glucose" orange; null_evidence;
     evidence "glycogen is stored" yellow] in
  let d := [(lit "text", PNone); (lit "color", yellow)] in
  let a := annotation_of 0 orange (lit "liver converts glucose")
             (wd "liver" 110 1) in
  In d (normalize_queries text_quotes)
  /\ (forall quote, item_text d <> inr (PStr quote))
  /\ In a (returned (find_text_fuzzy two_page_pdf text_quotes 85))
  /\ a_page a = 1.
Proof.
  cbv zeta.
  split; [vm_compute; right; left; reflexivity|].
  split; [intros quote H; vm_compute in H; discriminate H|].
  split; [vm_compute; left; reflexivity|].
  apply (malformed_entry_keeps_first_page_only 85 two_page_pdf
           [evidence "liver converts glucose" orange; null_evidence;
            evidence "glycogen is stored" yellow]
           [(lit "text", PNone); (lit "color", yellow)]).
  - vm_compute. right. left. reflexivity.
  - intros quote H. vm_compute in H. discriminate H.
  - vm_compute. left. reflexivity.
Defined.

Lemma threshold_above_100_returns_nothing_witness :
  (100 < 101)%Q
  /\ returned
       (find_text_fuzzy one_page_pdf
          [evidence "liver converts glucose" orange] 101) = [].
Proof.
  split; [vm_compute; reflexivity|].
  apply (threshold_above_100_returns_nothing 101 one_page_pdf
           [evidence "liver converts glucose" orange]).
  vm_compute. reflexivity.
Defined.

(** A page without words at threshold 0. *)
Lemma nonpositive_threshold_raises_witness :
  let query_item := item "liver converts glucose" orange in
  let quote := lit "liver converts glucose" in
  item_text query_item = inr (PStr quote)
  /\ 5 <= length (clean quote)
  /\ (0 <= 0)%Q
  /\ Qle_bool 0 (partial_ratio (lower (clean quote)) (lower (page_text [])))
     = true
  /\ process_query 0 3 [] query_item (mk_state [] []) =
     (inl unpack_error,
      mk_state []
        ([] ++ scanned_windows (length (@nil word))
                 (length (split (clean quote))))).
Proof.
  cbv zeta.
  split; [vm_compute; reflexivity|].
  split; [vm_compute; lia|].
  split; [vm_compute; discriminate|].
  split; [vm_compute; reflexivity|].
  apply (nonpositive_threshold_raises 0 3 []
           (item "liver converts glucose" orange)
           (lit "liver converts glucose") (mk_state [] [])).
  - vm_compute. reflexivity.
  - vm_compute. lia.
  - vm_compute. discriminate.
  - vm_compute. reflexivity.
  - intros w Hw. vm_compute in Hw. destruct Hw.
Defined.

Lemma match_ignores_case_witness :
  lower (lit "LIVER Converts glucose") = lower (lit "liver converts glucose")
  /\ map (fun w => lower (w_text w)) page1
     = map (fun w => lower (w_text w)) page1
  /\ accepted_match 85 page1 (lit "LIVER Converts glucose")
     = accepted_match 85 page1 (lit "liver converts glucose").
Proof.
  split; [vm_compute; reflexivity|].
  split; [reflexivity|].
  apply (match_ignores_case 85 page1 page1 (lit "LIVER Converts glucose")
           (lit "liver converts glucose"));
    [vm_compute; reflexivity | reflexivity].
Defined.

Lemma collected_entries_witness :
  let quote := Json.JStr (lit "liver converts glucose") in
  Evidence.collect Evidence.sample_reactions [] = inr Evidence.sample_items
  /\ (In (quote, Evidence.orange) Evidence.sample_items <->
      exists d quotes,
        In (Json.JDict d) Evidence.sample_reactions
        /\ Json.lookup d (lit "evidence") = Some (Json.JList quotes)
        /\ In quote quotes
        /\ Evidence.certainty_color
             (match Json.lookup d (lit "certainty") with
              | Some c => c
              | None => Json.JStr (lit "Confirmed")
              end) = inr Evidence.orange)
  /\ (In (quote, Evidence.orange) Evidence.sample_items ->
      Evidence.orange = Evidence.yellow \/ Evidence.orange = Evidence.orange).
Proof.
  cbv zeta.
  split; [vm_compute; reflexivity|].
  apply (EvidenceFacts.collected_entries Evidence.sample_reactions
           Evidence.sample_items (Json.JStr (lit "liver converts glucose"))
           Evidence.orange).
  vm_compute. reflexivity.
Defined.

(** A numeric certainty makes the collection raise. *)
Lemma collection_raises_only_on_odd_certainty_witness :
  let reactions :=
    Evidence.sample_reactions
    ++ [Json.JDict Evidence.scored_reaction_fields] in
  In (Json.JDict Evidence.scored_reaction_fields) reactions
  /\ Json.truthy (Json.JInt 1) = true
  /\ exists e, Evidence.collect reactions [] = inl e.
Proof.
  cbv zeta.
  split; [vm_compute; tauto|].
  split; [reflexivity|].
  apply (proj2 (EvidenceFacts.collection_raises_only_on_odd_certainty
                  (Evidence.sample_reactions
                   ++ [Json.JDict Evidence.scored_reaction_fields]))
           Evidence.scored_reaction_fields
           (Json.JList [Json.JStr (lit "liver converts glucose")])
           (Json.JInt 1)).
  - vm_compute. tauto.
  - reflexivity.
  - reflexivity.
  - reflexivity.
  - intros s H. discriminate H.
Defined.

Lemma highlights_come_from_evidence_witness :
  let a := annotation_of 0 (PStr Evidence.orange)
             (lit "liver converts glucose") (wd "liver" 110 1) in
  Evidence.collect Evidence.sample_reactions [] = inr Evidence.sample_items
  /\ In a (returned
             (find_text_fuzzy two_page_pdf
                (map Evidence.evidence_item Evidence.sample_items) 85))
  /\ exists color d quotes,
       a_color a = PStr color
       /\ (color = Evidence.yellow \/ color = Evidence.orange)
       /\ In (Json.JDict d) Evidence.sample_reactions
       /\ Json.lookup d (lit "evidence") = Some (Json.JList quotes)
       /\ In (Json.JStr (a_quote a)) quotes
       /\ Evidence.certainty_color
            (match Json.lookup d (lit "certainty") with
             | Some c => c
             | None => Json.JStr (lit "Confirmed")
             end) = inr color.
Proof.
  cbv zeta.
  split; [vm_compute; reflexivity|].
  split; [vm_compute; left; reflexivity|].
  apply (EvidenceFacts.highlights_come_from_evidence 85 two_page_pdf
           Evidence.sample_reactions Evidence.sample_items);
    [vm_compute; reflexivity | vm_compute; left; reflexivity].
Defined.

(** A key written as [ '"AIza-Key"' ], with a space on each side. *)
Lemma api_key_unwrapped_witness :
  let key := lit "AIza-Key" in
  forallb is_space (lit " ") = true
  /\ Text.char_in [single_quote; double_quote] "A"%char = false
  /\ clean_api_key
       (Some (lit " " ++ [single_quote] ++ [double_quote] ++ key
              ++ [double_quote] ++ [single_quote] ++ lit " "))
     = Some key.
Proof.
  cbv zeta.
  split; [reflexivity|].
  split; [reflexivity|].
  apply (api_key_unwrapped (lit " ") [single_quote] [double_quote]
           (lit "AIza-Key") [double_quote] [single_quote] (lit " ")
           (lit "Iza-Key") (lit "AIza-Ke") "A"%char "y"%char);
    reflexivity.
Defined.

Lemma fenced_block_is_extracted_witness :
  let pre := lit "Here is the model:" ++ [Names.newline] in
  let body := lit "{ " ++ Graph.quoted (lit "reactions") ++ lit ": [] }" in
  let post := [Names.newline] ++ lit "The pathway {glycolysis} ..." in
  forallb (fun c => negb (Ascii.eqb Answer.backquote c)) pre = true
  /\ Text.ws_run body = 0
  /\ Answer.json_str
       (pre ++ Answer.fence ++ lit "json" ++ [Names.newline] ++ body
        ++ Answer.fence ++ post) = body.
Proof.
  cbv zeta.
  split; [reflexivity|].
  split; [reflexivity|].
  apply (AnswerFacts.fenced_block_is_extracted
           (lit "Here is the model:" ++ [Names.newline]) [Names.newline]
           (lit "{ " ++ Graph.quoted (lit "reactions") ++ lit ": [] }")
           ([Names.newline] ++ lit "The pathway {glycolysis} ...") true);
    reflexivity.
Defined.

Lemma braces_fallback_witness :
  let t := lit "Model: {a: {b: 1}} as asked." in
  forallb (fun c => negb (Ascii.eqb Answer.backquote c)) t = true
  /\ Answer.json_str t = lit "{a: {b: 1}}".
Proof.
  cbv zeta.
  split; [reflexivity|].
  apply (proj1 (AnswerFacts.braces_fallback
                  (lit "Model: {a: {b: 1}} as asked.") eq_refl)
           (lit "Model: ") (lit "a: {b: 1}") (lit " as asked."));
    reflexivity.
Defined.

Lemma plain_name_is_stripped_witness :
  Names.after_digits (lit "  pyruvate ") = None
  /\ Names.smart_clean_name (lit "  pyruvate ") = strip (lit "  pyruvate ").
Proof.
  split; [reflexivity|].
  apply (NamesFacts.plain_name_is_stripped (lit "  pyruvate "));
    reflexivity.
Defined.

(** "2,3-butanediol" *)
Lemma locant_prefix_is_cut_witness :
  Text.char_in (lit ".,") ","%char = true
  /\ Names.smart_clean_name
       (["2"%char] ++ ","%char :: ["3"%char] ++ "-"%char :: lit "butanediol")
     = strip (Names.remove_synthetic (lit "butanediol")).
Proof.
  split; [reflexivity|].
  apply (NamesFacts.locant_prefix_is_cut "2"%char "3"%char ","%char [] []
           (lit "butanediol"));
    reflexivity.
Defined.

(** "Glucose (Synthetic analog)" *)
Lemma synthetic_parenthesis_is_removed_witness :
  lower (lit "Synthetic") = lit "synthetic"
  /\ Names.remove_synthetic
       (lit "Glucose " ++ "("%char :: [] ++ lit "Synthetic" ++ lit " analog"
        ++ ")"%char :: [])
     = lit "Glucose " ++ Names.remove_synthetic [].
Proof.
  split; [reflexivity|].
  apply (NamesFacts.synthetic_parenthesis_is_removed (lit "Glucose ") []
           (lit "Synthetic") (lit " analog") []);
    reflexivity.
Defined.

(** Glucose and ATP to glucose 6-phosphate and ADP: the two cofactors are
    left out, so the reaction has five lines. *)
Lemma reaction_lines_of_strings_witness :
  let B := Graph.sample_builtins in
  Json.lookup Graph.glycolysis_fields (lit "enzyme")
    = Some (Json.JStr (lit "hexokinase activity"))
  /\ exists lines,
       Graph.reaction_lines (0, Json.JDict Graph.glycolysis_fields)
         = inr lines
       /\ lines =
          Graph.reaction_node (lit "rxn_" ++ Graph.decimal (N.of_nat 0))
            (Graph.remove_all (lit " activity") (lit "hexokinase activity"))
          :: flat_map
               (fun s =>
                  [Graph.metabolite_node
                     (lit "met_"
                      ++ Graph.decimal
                           (Z.abs_N (hash (Names.smart_clean_name s))))
                     (Names.smart_clean_name s);
                   Graph.edge
                     (lit "met_"
                      ++ Graph.decimal
                           (Z.abs_N (hash (Names.smart_clean_name s))))
                     (lit "rxn_" ++ Graph.decimal (N.of_nat 0))])
               (filter
                  (fun s => negb (Graph.excluded (Names.smart_clean_name s)))
                  [lit "glucose"; lit "ATP"])
          ++ flat_map
               (fun s =>
                  [Graph.metabolite_node
                     (lit "met_"
                      ++ Graph.decimal
                           (Z.abs_N (hash (Names.smart_clean_name s))))
                     (Names.smart_clean_name s);
                   Graph.edge
                     (lit "rxn_" ++ Graph.decimal (N.of_nat 0))
                     (lit "met_"
                      ++ Graph.decimal
                           (Z.abs_N (hash (Names.smart_clean_name s))))])
               (filter
                  (fun s => negb (Graph.excluded (Names.smart_clean_name s)))
                  [lit "glucose 6-phosphate"; lit "ADP"])
       /\ length lines =
          1 + 2 * (length
                     (filter
                        (fun s =>
                           negb (Graph.excluded (Names.smart_clean_name s)))
                        [lit "glucose"; lit "ATP"])
                   + length
                       (filter
                          (fun s =>
                             negb (Graph.excluded (Names.smart_clean_name s)))
                          [lit "glucose 6-phosphate"; lit "ADP"])).
Proof.
  cbv zeta.
  split; [reflexivity|].
  apply (GraphFacts.reaction_lines_of_strings (B := Graph.sample_builtins) 0
           Graph.glycolysis_fields [lit "glucose"; lit "ATP"]
           [lit "glucose 6-phosphate"; lit "ADP"]
           (lit "hexokinase activity"));
    try reflexivity; discriminate.
Defined.

Lemma malformed_reaction_loses_graph_witness :
  let B := Graph.sample_builtins in
  Json.lookup Graph.broken_pathway_fields (lit "reactions")
    = Some (Json.JList [Graph.glycolysis_step; Json.JStr (lit "see text")])
  /\ exists e,
       Graph.generate_graphviz_dot (Json.JDict Graph.broken_pathway_fields)
       = (None, [e]).
Proof.
  cbv zeta.
  split; [reflexivity|].
  apply (GraphFacts.malformed_reaction_loses_graph
           (B := Graph.sample_builtins) Graph.broken_pathway_fields
           [Graph.glycolysis_step; Json.JStr (lit "see text")]
           (Json.JStr (lit "see text"))).
  - reflexivity.
  - right. left. reflexivity.
  - left. intros r H. discriminate H.
Defined.

Lemma dpi_follows_the_header_witness :
  let B := Graph.sample_builtins in
  let dot_code :=
    match fst (Graph.generate_graphviz_dot Graph.sample_pathway) with
    | Some d => d
    | None => []
    end in
  Graph.generate_graphviz_dot Graph.sample_pathway = (Some dot_code, [])
  /\ exists rest,
       dot_code = lit "digraph MetabolicPathway {" ++ Names.newline :: rest
       /\ Graph.dot_code_high_res dot_code
          = lit "digraph MetabolicPathway {" ++ Names.newline
            :: lit "  dpi=300;" ++ Names.newline :: rest.
Proof.
  cbv zeta.
  split; [vm_compute; reflexivity|].
  apply (GraphFacts.dpi_follows_the_header (B := Graph.sample_builtins)
           Graph.sample_pathway
           (match fst (Graph.generate_graphviz_dot Graph.sample_pathway) with
            | Some d => d
            | None => []
            end) []).
  vm_compute. reflexivity.
Defined.

End MoreInstances.
